(** * indiescore: position mapping, calibration and scoring

    A shallow embedding of the scoring-domain code of the repository
    (position mapper, calibration, answer-key builder, demo scorer, batch
    drivers and configuration converter) together with the properties the
    specification states about it.

    Conventions of the embedding.
    - A Python [int] is a [Z].
    - A Python [str] is the list of its Unicode code points ([list N]);
      [lit] turns an ASCII literal into such a list.
    - A float literal is a binary64 number ([float]); [Binary64.to_Q] gives
      the rational that it denotes.  A Python [float] that results from
      arithmetic on pixel coordinates is a rational ([Q]): the arithmetic
      is carried out exactly.  [Binary64] repeats that arithmetic in
      binary64, to compare the two on the inputs that the properties name.
    - A Python [dict] that is only read by key is a [gmap]; a dict whose
      insertion order is observed is an association list.
    - A call that may raise is a value of [outcome]. *)

From Stdlib Require Import ZArith QArith Lia Lqa Ascii Floats.
From stdpp Require Import gmap strings list pretty.

Local Open Scope Z_scope.

(** ** Python strings *)

Module PyStr.

(** An ASCII literal, character by character. *)
Fixpoint lit (s : string) : list N :=
  match s with
  | EmptyString => []
  | String a s' => N_of_ascii a :: lit s'
  end.

(** [str(i)] for an integer [i]: the decimal numeral, with a leading minus
    sign for negative numbers. *)
Definition str_of_int (i : Z) : list N := lit (pretty i).

(** The characters that the sources write outside ASCII or test against. *)
Definition plus_minus : N := 177.  (* U+00B1 *)
Definition not_sign : N := 172.    (* U+00AC *)
Definition ampersand : N := 38.
Definition space : N := 32.

(** [c.isspace()] for one character: the code points that Python counts as
    white space. *)
Definition isspace (c : N) : bool :=
  ((9 <=? c) && (c <=? 13) || (28 <=? c) && (c <=? 32)
   || (c =? 133) || (c =? 160) || (c =? 5760)
   || (8192 <=? c) && (c <=? 8202)
   || (c =? 8232) || (c =? 8233) || (c =? 8239) || (c =? 8287)
   || (c =? 12288))%N.

(** [s.rstrip()]: the string without its trailing white space. *)
Fixpoint rstrip (s : list N) : list N :=
  match s with
  | [] => []
  | c :: s' =>
      match rstrip s' with
      | [] => if isspace c then [] else [c]
      | r => c :: r
      end
  end.

(** [s.lstrip()] and [s.strip()]. *)
Fixpoint lstrip (s : list N) : list N :=
  match s with
  | [] => []
  | c :: s' => if isspace c then lstrip s' else s
  end.

Definition strip (s : list N) : list N := rstrip (lstrip s).

(** [s.replace(old, new)] for a pattern [old] of one character. *)
Definition replace (old : N) (new : list N) (s : list N) : list N :=
  flat_map (fun c => if (c =? old)%N then new else [c]) s.

(** [s.ljust(width)]: padded on the right with spaces up to [width]
    characters; a string that is already that long is returned as it is. *)
Definition ljust (width : nat) (s : list N) : list N :=
  s ++ repeat space (width - length s).

(** [c in s] for a character [c]. *)
Definition contains (c : N) (s : list N) : bool :=
  existsb (fun d => (d =? c)%N) s.

(** [s.split(sep)] for a separator of one character: the pieces between
    the occurrences of [sep], always at least one piece. *)
Fixpoint split (sep : N) (s : list N) : list (list N) :=
  match s with
  | [] => [[]]
  | c :: s' =>
      match split sep s' with
      | [] => [[]]
      | piece :: pieces =>
          if (c =? sep)%N then [] :: piece :: pieces
          else (c :: piece) :: pieces
      end
  end.

(** The two built-in functions [str.upper] and [int] on ASCII text: letters
    a..z are raised to A..Z, and a numeral is an optional sign and decimal
    digits, white space around it being ignored.  The sources are embedded
    for any [upper] and [int]; these two serve to run them on samples. *)
Definition ascii_upper (s : list N) : list N :=
  map (fun c => if ((97 <=? c) && (c <=? 122))%N then (c - 32)%N else c) s.

Definition digit_of (c : N) : option Z :=
  if ((48 <=? c) && (c <=? 57))%N then Some (Z.of_N c - 48) else None.

Fixpoint digits_value (acc : Z) (s : list N) : option Z :=
  match s with
  | [] => Some acc
  | c :: s' =>
      match digit_of c with
      | Some d => digits_value (10 * acc + d) s'
      | None => None
      end
  end.

Definition ascii_int (s : list N) : option Z :=
  match strip s with
  | [] => None
  | c :: body =>
      if (c =? 45)%N then
        match body with
        | [] => None
        | _ => Z.opp <$> digits_value 0 body
        end
      else if (c =? 43)%N then
        match body with
        | [] => None
        | _ => digits_value 0 body
        end
      else digits_value 0 (c :: body)
  end.

End PyStr.
Import PyStr.

(** ** Exceptions and the calls that may raise them *)

(** An exception of class [Exception] or below: the name of its class and,
    where the program or a collaborator builds it with a text, that text.
    The wording that the interpreter gives to its own exceptions is not
    modelled ([None]). *)
Record exception := Exc {
  exc_class : string;
  exc_text : option (list N)
}.

Inductive outcome (A : Type) : Type :=
| Returns (a : A)
| Raises (e : exception).
Arguments Returns {A} a.
Arguments Raises {A} e.

#[global] Instance outcome_ret : MRet outcome := fun A a => Returns a.
#[global] Instance outcome_bind : MBind outcome := fun A B k m =>
  match m with
  | Returns a => k a
  | Raises e => Raises e
  end.

(** [try: body  except Exception as e: handler(e)] *)
Definition try_except {A} (body : outcome A) (handler : exception -> outcome A)
  : outcome A :=
  match body with
  | Returns a => Returns a
  | Raises e => handler e
  end.

(** Whether a call raised. *)
Definition raised {A} (o : outcome A) : bool :=
  match o with
  | Returns _ => false
  | Raises _ => true
  end.

(** [for x in l: state = body(state, x)], where the body may raise. *)
Fixpoint for_each {S A} (body : S -> A -> outcome S) (s : S) (l : list A)
  : outcome S :=
  match l with
  | [] => Returns s
  | x :: l' =>
      match body s x with
      | Returns s' => for_each body s' l'
      | Raises e => Raises e
      end
  end.

Definition ZeroDivisionError : exception := Exc "ZeroDivisionError" None.
Definition ValueError : exception := Exc "ValueError" None.
Definition IndexError : exception := Exc "IndexError" None.

(** ** Comparison of rationals, as a boolean *)

Definition Qltb (a b : Q) : bool := negb (Qle_bool b a).

(** ** Binary64 numbers *)

Module Binary64.

(** [float(z)] for an integer below 2^53 in magnitude. *)
Definition of_int (z : Z) : float :=
  match z with
  | Z0 => 0%float
  | Zpos _ => PrimFloat.of_uint63 (Uint63.of_Z z)
  | Zneg p => PrimFloat.opp (PrimFloat.of_uint63 (Uint63.of_Z (Zpos p)))
  end.

(** The rational that a finite binary64 number denotes. *)
Definition to_Q (f : float) : Q :=
  match Prim2SF f with
  | S754_finite s m e =>
      let magnitude :=
        if 0 <=? e then inject_Z (Z.pos m * 2 ^ e)
        else (Z.pos m # Pos.pow 2 (Z.to_pos (- e)))%Q in
      if s then (- magnitude)%Q else magnitude
  | _ => 0%Q
  end.

(** [int(f)] for a finite binary64 number: the integer towards zero. *)
Definition trunc (f : float) : Z :=
  match Prim2SF f with
  | S754_finite s m e =>
      let magnitude :=
        if 0 <=? e then Z.pos m * 2 ^ e else Z.pos m / 2 ^ (- e) in
      if s then - magnitude else magnitude
  | _ => 0
  end.

(** [x < f] for an integer [x] and a binary64 number [f], decided on the
    values.  (Where the integer is first rounded to binary64, the answer is
    the same as long as [f] is below 2^53 in magnitude, rounding being
    monotone and exact below that bound.) *)
Definition int_lt (x : Z) (f : float) : bool := Qltb (inject_Z x) (to_Q f).

(** The expressions of the sources that divide pixel coordinates, evaluated
    in binary64. *)

(** [int(y / d)] *)
Definition int_of_quotient (y d : Z) : Z := trunc (of_int y / of_int d).

(** [x_min + (i + 0.5) * (x_range / (13 - 1))] *)
Definition boundary_at (x_min x_max i : Z) : float :=
  (of_int x_min
   + (of_int i + 0.5) * (of_int (x_max - x_min) / of_int (13 - 1)))%float.

(** [x_min + i * (x_range / 13)] *)
Definition column_edge (x_min x_max i : Z) : float :=
  (of_int x_min + of_int i * (of_int (x_max - x_min) / of_int 13))%float.

(** [(correct / total_questions) * 100] *)
Definition percentage (correct total : Z) : float :=
  (of_int correct / of_int total * 100)%float.

End Binary64.

(** ** results/improved_position_mapper.py *)

Module ImprovedPositionMapper.

(** The calibrated boundaries, the float literals of the source. *)
#[warnings="-inexact-float"]
Definition boundaries : list float :=
  [ 258.6; 629.8; 1001.0; 1372.2; 1743.3999999999999 ]%float.

Definition choices : list (list N) :=
  [lit "A"; lit "B"; lit "C"; lit "D"; lit "E"].

(** [for i, boundary in enumerate(boundaries): if x < boundary: ...]
    the index of the first boundary that exceeds [x], counting from [i]. *)
Fixpoint first_below (x : Z) (i : nat) (bs : list float) : option nat :=
  match bs with
  | [] => None
  | boundary :: bs' =>
      if Binary64.int_lt x boundary then Some i else first_below x (S i) bs'
  end.

(** The positions are pixel coordinates ([List[int]]); [question_num] and
    [y] are bound but never read.  The index handed to [choices] is below
    five, so the default of the lookup is never used. *)
Definition improved_position_to_choice
    (question_num : Z) (position : Z * Z) : list N :=
  let '(x, y) := position in
  match first_below x 0 boundaries with
  | Some i => default (lit "E") (choices !! i)
  | None => lit "E"
  end.

(** The boundary table in the decimal notation of the specification. *)
Definition decimal_boundaries : list Q :=
  [ 258.6; 629.8; 1001.0; 1372.2; 1743.4 ]%Q.

End ImprovedPositionMapper.

(** ** simple_demo.py *)

Module SimpleDemo.

(** The object: its only attribute is the answer key. *)
Record SimpleHybridDemo := { answer_key : gmap (list N) (list N) }.

(** [__init__] *)
Definition init : SimpleHybridDemo :=
  {| answer_key := list_to_map
       [ (lit "1", lit "4"); (lit "2", lit "8"); (lit "3", lit "12");
         (lit "4", lit "7"); (lit "5", lit "1"); (lit "6", lit "23");
         (lit "7", lit "34"); (lit "8", lit "56"); (lit "9", lit "78");
         (lit "10", lit "90"); (lit "11", lit "-5"); (lit "12", lit "-12");
         (lit "13", lit "+8"); (lit "14", plus_minus :: lit "3");
         (lit "15", lit "100") ] |}.

(** [max(1, min(15, int(y / 100) + 1))].  The quotient [y / 100] is a float
    and [int] cuts it towards zero; on an integer [y] that is the integer
    quotient rounded towards zero ([Binary64Facts.int_of_quotient_exact]
    checks it in binary64 over the pixels of a page). *)
Definition question_num_of (y : Z) : Z :=
  Z.max 1 (Z.min 15 (Z.quot y 100 + 1)).

(** The first loop of [convert_bubbles_to_answers]: every bubble is appended
    to the list of its question. *)
Definition group_by_row (bubbles : list (Z * Z)) : gmap Z (list (Z * Z)) :=
  foldl (fun questions '(x, y) =>
           let question_num := question_num_of y in
           <[question_num := default [] (questions !! question_num) ++ [(x, y)]]>
             questions)
        ∅ bubbles.

Definition column_chars : list (list N) :=
  [ [plus_minus]; lit "-"; lit "+"; lit "0"; lit "1"; lit "2"; lit "3";
    lit "4"; lit "5"; lit "6"; lit "7"; lit "8"; lit "9" ].

(** [bubble_positions.sort(key=lambda b: b[0])]: a stable sort on the x
    coordinate.  An element is put in front of the first element whose key
    is not smaller, so marks with equal x keep their order. *)
Fixpoint insert_by_x (b : Z * Z) (l : list (Z * Z)) : list (Z * Z) :=
  match l with
  | [] => [b]
  | c :: l' => if fst c <? fst b then c :: insert_by_x b l' else b :: c :: l'
  end.

Fixpoint sort_by_x (l : list (Z * Z)) : list (Z * Z) :=
  match l with
  | [] => []
  | b :: l' => insert_by_x b (sort_by_x l')
  end.

(** [min(12, max(0, int(x / 200)))] *)
Definition char_idx_of (x : Z) : Z := Z.min 12 (Z.max 0 (Z.quot x 200)).

(** [column_chars[char_idx]]; the index lies between 0 and 12, so the
    lookup never fails. *)
Definition symbol_of (x : Z) : list N :=
  default [] (column_chars !! Z.to_nat (char_idx_of x)).

(** The body of the second loop: the answer of one question from its
    bubbles. *)
Definition answer_of_row (bubble_positions : list (Z * Z)) : list N :=
  let answer :=
    foldl (fun answer '(x, y) => answer ++ symbol_of x)
          [] (take 3 (sort_by_x bubble_positions)) in
  match rstrip answer with
  | [] => lit "0"
  | stripped => stripped
  end.

(** The second loop writes one entry per question of the grouping, under
    the key [str(q_num)]. *)
Definition convert_bubbles_to_answers
    (detected_bubbles : gmap (list N) (list (Z * Z))) : gmap (list N) (list N) :=
  let bubbles := default [] (detected_bubbles !! lit "bubbles") in
  let questions := group_by_row bubbles in
  kmap (M2 := gmap (list N)) str_of_int (answer_of_row <$> questions).

Inductive status := Correct | Incorrect | Blank.

#[global] Instance status_eq_dec : EqDecision status.
Proof. solve_decision. Defined.

Record comparison := {
  question : Z;
  correct : list N;
  detected : list N;
  status_of : status
}.

Record score_summary := {
  total_questions : Z;
  correct_count : Z;
  incorrect_count : Z;
  blank_count : Z;
  score_percentage : Q
}.

Record results := {
  answers : gmap (list N) (list N);
  summary : score_summary;
  detailed_comparison : list comparison
}.

(** The test of the loop body: [not detected_answer], then
    [detected_answer == correct_answer]. *)
Definition classify (correct_answer detected_answer : list N) : status :=
  match detected_answer with
  | [] => Blank
  | _ => if decide (detected_answer = correct_answer) then Correct
         else Incorrect
  end.

(** The variables that the loop of [calculate_score] updates. *)
Record tally := {
  t_correct : Z;
  t_incorrect : Z;
  t_blank : Z;
  t_answers : gmap (list N) (list N);
  t_comparison : list comparison
}.

(** The entry of [detailed_comparison] for one question. *)
Definition compare_question (self : SimpleHybridDemo)
    (detected_answers : gmap (list N) (list N)) (q_num : Z) : comparison :=
  let q_str := str_of_int q_num in
  let correct_answer := default [] (answer_key self !! q_str) in
  let detected_answer := default [] (detected_answers !! q_str) in
  {| question := q_num; correct := correct_answer;
     detected := detected_answer;
     status_of := classify correct_answer detected_answer |}.

(** One round of the loop. *)
Definition score_question (self : SimpleHybridDemo)
    (detected_answers : gmap (list N) (list N)) (t : tally) (q_num : Z) : tally :=
  let c := compare_question self detected_answers q_num in
  {| t_correct :=
       match status_of c with Correct => t_correct t + 1 | _ => t_correct t end;
     t_incorrect :=
       match status_of c with
       | Incorrect => t_incorrect t + 1
       | _ => t_incorrect t
       end;
     t_blank :=
       match status_of c with Blank => t_blank t + 1 | _ => t_blank t end;
     t_answers := <[str_of_int q_num := detected c]> (t_answers t);
     t_comparison := t_comparison t ++ [c] |}.

(** [calculate_score]; the percentage [(correct / total_questions) * 100]
    divides by the number of entries of the key and raises when the key is
    empty. *)
Definition calculate_score (self : SimpleHybridDemo)
    (detected_answers : gmap (list N) (list N)) : outcome results :=
  let total := Z.of_nat (size (answer_key self)) in
  let t := foldl (score_question self detected_answers)
                 {| t_correct := 0; t_incorrect := 0; t_blank := 0;
                    t_answers := ∅; t_comparison := [] |}
                 (seqZ 1 total) in
  if total =? 0 then Raises ZeroDivisionError
  else Returns
    {| answers := t_answers t;
       summary := {| total_questions := total;
                     correct_count := t_correct t;
                     incorrect_count := t_incorrect t;
                     blank_count := t_blank t;
                     score_percentage :=
                       (inject_Z (t_correct t) / inject_Z total * 100)%Q |};
       detailed_comparison := t_comparison t |}.

(** One entry of the list that [process_batch] returns: the results of a
    sheet with its path and method, or the record of a failure.  The
    failure record stands for the dictionary with the key ["error"]; it
    keeps the exception whose text the source stores.  The time stamp of a
    scored entry is left out. *)
Inductive entry :=
| Scored (r : results) (image_path : list N) (processing_method : list N)
| Failed (image_path : list N) (error : exception) (processing_method : list N).

Definition is_failed (e : entry) : bool :=
  match e with
  | Failed _ _ _ => true
  | Scored _ _ _ => false
  end.

Section Pipeline.

(** [detect_bubbles_simple] reads the image through OpenCV; it returns the
    dictionary with the key ["bubbles"] or raises. *)
Variable detect_bubbles_simple :
  list N -> outcome (gmap (list N) (list (Z * Z))).

Definition process_single_image (self : SimpleHybridDemo) (image_path : list N)
  : outcome entry :=
  try_except
    (detected_bubbles ← detect_bubbles_simple image_path;
     let detected_answers := convert_bubbles_to_answers detected_bubbles in
     r ← calculate_score self detected_answers;
     mret (Scored r image_path (lit "Python OpenCV")))
    (fun e => mret (Failed image_path e (lit "failed"))).

(** [process_batch], from the sorted list of the image files found. *)
Definition process_batch (self : SimpleHybridDemo) (image_files : list (list N))
  : outcome (list entry) :=
  mapM (process_single_image self) image_files.

End Pipeline.

(** Ascending in x: every element is at most each later one. *)
Definition ascending_x (l : list (Z * Z)) : Prop :=
  forall i j b c, (i < j)%nat -> l !! i = Some b -> l !! j = Some c ->
                  fst b <= fst c.

(** How many entries of a comparison list carry the status [st]. *)
Definition count_status (st : status) (l : list comparison) : Z :=
  Z.of_nat (length (filter (fun c => status_of c = st) l)).

(** The row index in the words of the specification: [floor(y / row_height)]
    clamped to [1, total_questions], for the rows of 100 pixels and the 15
    questions of the demo. *)
Definition spec_row_index (y : Z) : Z := Z.max 1 (Z.min 15 (y / 100)).

(** Equality of two tokens when the case of ASCII letters is ignored, the
    comparison that the specification describes for letter answers. *)
Definition lower_ascii (c : N) : N :=
  if ((65 <=? c) && (c <=? 90))%N then (c + 32)%N else c.

Definition spec_equal_ignoring_case (a b : list N) : bool :=
  bool_decide (map lower_ascii a = map lower_ascii b).

End SimpleDemo.

(** ** calibrate_positions.py *)

Module CalibratePositions.

(** The data of the results file once it is loaded: a list of sheets.  A
    sheet may carry the dictionary ["detected_answers"], from question to
    answer data; an answer data is a dictionary that may hold a
    ["position"], a pair of pixel coordinates, or it is something else. *)
Inductive answer_data :=
| NotADict
| AnswerDict (position : option (Z * Z)).

Record sheet := {
  detected_answers : option (list (list N * answer_data))
}.

Definition positions_of_sheet (s : sheet) : list (Z * Z) :=
  match detected_answers s with
  | None => []
  | Some answers =>
      flat_map (fun '(question, data) =>
                  match data with
                  | AnswerDict (Some position) => [position]
                  | _ => []
                  end) answers
  end.

(** [all_positions] and [sheet_count] after the loop over the sheets. *)
Definition all_positions_of (data : list sheet) : list (Z * Z) :=
  flat_map positions_of_sheet data.

Definition sheet_count_of (data : list sheet) : Z :=
  Z.of_nat (length (filter (fun s => is_Some (detected_answers s)) data)).

(** [min] and [max] of a list that is not empty, given by its head and its
    tail. *)
Definition min_of (a : Z) (l : list Z) : Z := foldl Z.min a l.
Definition max_of (a : Z) (l : list Z) : Z := foldl Z.max a l.

(** The labels of the thirteen columns.  The first label is written in the
    source with the two characters U+00AC U+00B1. *)
Definition labels : list (list N) :=
  [ [not_sign; plus_minus]; lit "-"; lit "+" ]
  ++ map str_of_int (seqZ 0 10).

(** [generate_numeric_mapping]: for each label the range
    [(start_x, end_x)] of its column, in the order of insertion. *)
Definition generate_numeric_mapping (x_min x_max : Q)
  : list (list N * (Q * Q)) :=
  let x_range := (x_max - x_min)%Q in
  let num_columns := 13 in
  let column_width := (x_range / inject_Z num_columns)%Q in
  imap (fun i label =>
          let start_x := (x_min + inject_Z (Z.of_nat i) * column_width)%Q in
          let end_x :=
            (x_min + (inject_Z (Z.of_nat i) + 1) * column_width)%Q in
          (label, (start_x, end_x)))
       labels.

Record analysis := {
  sheet_count : Z;
  total_marks_analyzed : Z;
  x_coordinate_range : Z * Z;
  y_coordinate_range : Z * Z;
  column_width : Q;
  sign_boundaries : list (list N * Q);
  digit_boundaries : list (list N * Q);
  recommended_mapping : list (list N * (Q * Q))
}.

(** [x_min + (i + 0.5) * column_width] *)
Definition boundary_at (x_min : Z) (column_width : Q) (i : Z) : Q :=
  (inject_Z x_min + (inject_Z i + 0.5) * column_width)%Q.

(** The body of [analyze_numeric_positions] once the positions are
    collected and found not to be empty. *)
Definition analyze_positions (data : list sheet)
    (first : Z * Z) (others : list (Z * Z)) : analysis :=
  let all_positions := first :: others in
  let x_min := min_of (fst first) (map fst others) in
  let x_max := max_of (fst first) (map fst others) in
  let x_range := x_max - x_min in
  let num_columns := 13 in
  let column_width := (inject_Z x_range / inject_Z (num_columns - 1))%Q in
  let sign_bounds := map (boundary_at x_min column_width) (seqZ 0 3) in
  let digit_bounds := map (boundary_at x_min column_width) (seqZ 3 10) in
  {| sheet_count := sheet_count_of data;
     total_marks_analyzed := Z.of_nat (length all_positions);
     x_coordinate_range := (x_min, x_max);
     y_coordinate_range :=
       (min_of (snd first) (map snd others),
        max_of (snd first) (map snd others));
     column_width := column_width;
     sign_boundaries :=
       [ ([not_sign; plus_minus], nth 0 sign_bounds (inject_Z x_min));
         (lit "-", nth 1 sign_bounds (inject_Z x_min));
         (lit "+", nth 2 sign_bounds (inject_Z x_min)) ];
     digit_boundaries :=
       map (fun i => (str_of_int i,
                      nth (Z.to_nat i) digit_bounds (inject_Z x_max)))
           (seqZ 0 10);
     recommended_mapping :=
       generate_numeric_mapping (inject_Z x_min) (inject_Z x_max) |}.

(** [analyze_numeric_positions], from the outcome of opening and loading
    the results file.  The result is the analysis, or [None] for the empty
    dictionary; whatever is raised inside is caught and answered with the
    empty dictionary as well. *)
Definition analyze_numeric_positions (loaded : outcome (list sheet))
  : outcome (option analysis) :=
  try_except
    (data ← loaded;
     match all_positions_of data with
     | [] => mret None
     | first :: others => mret (Some (analyze_positions data first others))
     end)
    (fun e => mret None).

(** The boundaries of the analysis in column order: the three of the signs,
    then the ten of the digits. *)
Definition boundary_values (a : analysis) : list Q :=
  map snd (sign_boundaries a) ++ map snd (digit_boundaries a).

Section Calibration.

(** [create_position_visualization] draws the chart and returns its path. *)
Variable create_position_visualization : analysis -> outcome (list N).

(** [calibrate_numeric_positions]: an empty analysis is reported as a failed
    calibration and nothing is returned. *)
Definition calibrate_numeric_positions (loaded : outcome (list sheet))
  : outcome (option analysis) :=
  analysis_result ← analyze_numeric_positions loaded;
  match analysis_result with
  | None => mret None
  | Some a =>
      viz_path ← create_position_visualization a;
      mret (Some a)
  end.

End Calibration.

(** The column of a table of ranges that holds [x]: the labels whose
    half-open range [start_x, end_x) contains [x]. *)
Definition labels_at (mapping : list (list N * (Q * Q))) (x : Q)
  : list (list N) :=
  map fst
    (filter (fun entry =>
               Qle_bool (fst (snd entry)) x && Qltb x (snd (snd entry)) = true)
            mapping).

(** Samples. *)

(** Two marks, at x = 0 and x = 1200: columns of width 100. *)
Definition two_marks : list sheet :=
  [ {| detected_answers :=
         Some [ (lit "1", AnswerDict (Some (0, 40)));
                (lit "2", AnswerDict (Some (1200, 140))) ] |} ].

(** A single mark, at (5, 7). *)
Definition one_mark : list sheet :=
  [ {| detected_answers := Some [ (lit "1", AnswerDict (Some (5, 7))) ] |} ].

End CalibratePositions.

(** ** hybrid_scorer.py *)

Module HybridScorer.

(** The sheet that [score_with_answers] hands to the scoring backend. *)
Record sheet_data := {
  detected_answers : gmap (list N) (list (Z * Z));
  filename : list N
}.

(** One entry of the list that [process_batch] returns: the results of the
    backend with the two keys that [process_single_image] adds, or the
    record of a failure, which keeps the exception whose text the source
    stores under ["error"]. *)
Inductive entry (score : Type) :=
| Scored (results : score) (detection_method : list N) (image_path : list N)
| Failed (image_path : list N) (error : exception) (detection_method : list N).
Arguments Scored {score} results detection_method image_path.
Arguments Failed {score} image_path error detection_method.

Definition is_failed {score} (e : entry score) : bool :=
  match e with
  | Failed _ _ _ => true
  | Scored _ _ _ => false
  end.

Section Scorer.

(** The collaborators: the output of the C program and the results of the
    scoring backend are dictionaries whose shape plays no part here. *)
Variable c_output : Type.
Variable score : Type.

(** [detect_bubbles_c] runs the C binary on the image and loads its output. *)
Variable detect_bubbles_c : list N -> list N -> outcome c_output.

(** [detect_bubbles_python_fallback] reads the image through OpenCV. *)
Variable detect_bubbles_python_fallback :
  list N -> outcome (gmap (list N) (list (Z * Z))).

(** The scoring backend, [python_backend.scoring]: setting up the answer-key
    manager, the mapper and the calculator, then
    [calculate_sheet_score(sheet_data)]. *)
Variable calculate_sheet_score : sheet_data -> outcome score.

(** [convert_to_python_format]: a placeholder that drops the C output. *)
Definition convert_to_python_format (c : c_output)
  : gmap (list N) (list (Z * Z)) :=
  {[ lit "detected_bubbles" := [] ]}.

(** [score_with_answers]; the answer key that is passed in is not used. *)
Definition score_with_answers
    (detected_bubbles : gmap (list N) (list (Z * Z)))
    (answer_key : gmap (list N) (list N)) : outcome score :=
  calculate_sheet_score
    {| detected_answers := detected_bubbles;
       filename := lit "hybrid_processed" |}.

Definition process_single_image (image_path : list N)
    (answer_key : gmap (list N) (list N)) : outcome (entry score) :=
  detection ←
    try_except
      (c ← detect_bubbles_c image_path (lit "results/c_output");
       mret (convert_to_python_format c, lit "C-based"))
      (fun e =>
         bubbles ← detect_bubbles_python_fallback image_path;
         mret (bubbles, lit "Python fallback"));
  results ← score_with_answers (fst detection) answer_key;
  mret (Scored results (snd detection) image_path).

(** [process_batch], from the list of the image files found. *)
Definition process_batch (image_files : list (list N))
    (answer_key : gmap (list N) (list N)) : outcome (list (entry score)) :=
  mapM (fun img_file =>
          try_except
            (process_single_image img_file answer_key)
            (fun e => mret (Failed img_file e (lit "failed"))))
       image_files.

End Scorer.

(** A sample run: the C binary is not available, the fallback cannot load
    the file "c.png" and finds one bubble in any other image, and the
    backend answers with a number. *)
Definition sample_detect_bubbles_c (image_path output_dir : list N)
  : outcome unit :=
  Raises (Exc "RuntimeError"
              (Some (lit "C binary not available and cannot be compiled"))).

Definition sample_fallback (image_path : list N)
  : outcome (gmap (list N) (list (Z * Z))) :=
  if decide (image_path = lit "c.png")
  then Raises (Exc "ValueError" (Some (lit "Could not load image: c.png")))
  else Returns {[ lit "bubbles" := [(120, 80)] ]}.

Definition sample_backend (s : sheet_data) : outcome Z :=
  Returns (Z.of_nat (size (detected_answers s))).

End HybridScorer.

(** ** config_converter.py *)

Module ConfigConverter.

(** The C configuration after [json.load]: objects with the keys that the
    converter reads or writes, each of which may be absent. *)
Record c_paper := {
  Paper_Width : option Z;
  Paper_height : option Z
}.

Record c_block := {
  Column : option Z;
  Row : option Z;
  X : option Z;
  Y : option Z;
  Width : option Z;
  Height : option Z;
  WidthNext : option Z;
  HeightNext : option Z;
  Primary : option bool
}.

Record c_format := {
  Paper : option c_paper;
  Question : option c_block;
  Sheet : option c_block;
  StudentIDCheck : option c_block;
  SubjectIDCheck : option c_block
}.

Record c_subject := {
  MaxScore : option Z;
  Choices : option (list (list N));
  AnswerList : option (list (list N));
  BiasScore : option (list Z)
}.

(** [Subjects] is a dictionary whose first key is asked for: its entries
    are kept in their order. *)
Record c_config := {
  Formats : option (list c_format);
  Subjects : option (list (list N * c_subject))
}.

(** The Python configuration. *)
Record py_paper := {
  width : option Z;
  height : option Z
}.

Record py_question_area := {
  q_columns : option Z;
  q_rows : option Z;
  q_width : option Z;
  q_height : option Z;
  q_width_next : option Z;
  q_height_next : option Z
}.

Record py_sheet_area := {
  s_columns : option Z;
  s_rows : option Z;
  s_x : option Z;
  s_y : option Z;
  s_width_next : option Z;
  s_height_next : option Z
}.

Record py_scoring := {
  max_score : option Z;
  choices : option (list (list N));
  bias_scores : option (list Z)
}.

Record python_config := {
  paper : option py_paper;
  question_area : option py_question_area;
  sheet_area : option py_sheet_area;
  scoring : option py_scoring;
  answer_key : option (gmap (list N) (list N))
}.

(** The default of ["Choices"] and of ["choices"]. *)
Definition default_choices : list (list N) :=
  map lit ["+"; "-"; "&"; "0"; "1"; "2"; "3"; "4"; "5"; "6"; "7"; "8"; "9"].

(** [enumerate(l, start)] *)
Fixpoint enumerate_from {A} (start : Z) (l : list A) : list (Z * A) :=
  match l with
  | [] => []
  | a :: l' => (start, a) :: enumerate_from (start + 1) l'
  end.

(** [answer.rstrip().replace('&', '±')] *)
Definition clean_answer (answer : list N) : list N :=
  replace ampersand [plus_minus] (rstrip answer).

(** The loop that turns the answer list into the dictionary of the key. *)
Definition answer_key_of_list (answer_list : list (list N))
  : gmap (list N) (list N) :=
  foldl (fun key '(i, answer) => <[str_of_int i := clean_answer answer]> key)
        ∅ (enumerate_from 1 answer_list).

(** [c_json_to_python_config], from the loaded JSON; no TOML file is
    written.  [Formats] given as an empty list makes the index [0] fail. *)
Definition c_json_to_python_config (c_config : c_config)
  : outcome python_config :=
  formats ←
    match Formats c_config with
    | None => mret {| Paper := None; Question := None; Sheet := None;
                      StudentIDCheck := None; SubjectIDCheck := None |}
    | Some [] => Raises IndexError
    | Some (f :: _) => mret f
    end;
  let subjects := default [] (Subjects c_config) in
  let paper_of := Paper formats in
  let question := Question formats in
  let sheet := Sheet formats in
  let first_subject :=
    match subjects with
    | [] => None
    | (subject_key, subject_data) :: _ => Some subject_data
    end in
  mret
    {| paper := Some
         {| width := Some (default 3507 (paper_of ≫= Paper_Width));
            height := Some (default 2480 (paper_of ≫= Paper_height)) |};
       question_area := Some
         {| q_columns := Some (default 13 (question ≫= Column));
            q_rows := Some (default 5 (question ≫= Row));
            q_width := Some (default 40 (question ≫= Width));
            q_height := Some (default 40 (question ≫= Height));
            q_width_next := Some (default 47 (question ≫= WidthNext));
            q_height_next := Some (default 48 (question ≫= HeightNext)) |};
       sheet_area := Some
         {| s_columns := Some (default 4 (sheet ≫= Column));
            s_rows := Some (default 9 (sheet ≫= Row));
            s_x := Some (default 743 (sheet ≫= X));
            s_y := Some (default 51 (sheet ≫= Y));
            s_width_next := Some (default 714 (sheet ≫= WidthNext));
            s_height_next := Some (default 268 (sheet ≫= HeightNext)) |};
       scoring :=
         subject_data ← first_subject;
         Some {| max_score := Some (default 100 (MaxScore subject_data));
                 choices :=
                   Some (default default_choices (Choices subject_data));
                 bias_scores := Some (default [] (BiasScore subject_data)) |};
       answer_key :=
         subject_data ← first_subject;
         Some (answer_key_of_list (default [] (AnswerList subject_data))) |}.

(** The two blocks that [python_to_c_json] writes from constants. *)
Definition student_id_check : c_block :=
  {| X := Some 189; Y := Some 771; Column := Some 9; Row := Some 10;
     Width := Some 45; Height := Some 45; WidthNext := Some 49;
     HeightNext := Some 52; Primary := Some false |}.

Definition subject_id_check : c_block :=
  {| X := Some 12; Y := Some 771; Column := Some 3; Row := Some 10;
     Width := Some 45; Height := Some 45; WidthNext := Some 49;
     HeightNext := Some 52; Primary := Some false |}.

(** One round of the loop over the answer key:
    [answer_key.get(str(i), "").replace('±', '&').ljust(5)]. *)
Definition padded_answer (answer_key : gmap (list N) (list N)) (i : Z)
  : list N :=
  ljust 5 (replace plus_minus [ampersand]
                   (default [] (answer_key !! str_of_int i))).

(** [python_to_c_json]; no JSON file is written. *)
Definition python_to_c_json (python_config : python_config) : c_config :=
  let paper_of := paper python_config in
  let question := question_area python_config in
  let sheet := sheet_area python_config in
  let scoring_of := scoring python_config in
  let key := default ∅ (answer_key python_config) in
  let answer_list :=
    map (padded_answer key) (seqZ 1 (Z.of_nat (size key))) in
  {| Formats := Some
       [ {| Paper := Some
              {| Paper_Width := Some (default 3507 (paper_of ≫= width));
                 Paper_height := Some (default 2480 (paper_of ≫= height)) |};
            Question := Some
              {| Column := Some (default 13 (question ≫= q_columns));
                 Row := Some (default 5 (question ≫= q_rows));
                 X := None; Y := None;
                 Width := Some (default 40 (question ≫= q_width));
                 Height := Some (default 40 (question ≫= q_height));
                 WidthNext := Some (default 47 (question ≫= q_width_next));
                 HeightNext := Some (default 48 (question ≫= q_height_next));
                 Primary := Some true |};
            Sheet := Some
              {| Column := Some (default 4 (sheet ≫= s_columns));
                 Row := Some (default 9 (sheet ≫= s_rows));
                 X := Some (default 743 (sheet ≫= s_x));
                 Y := Some (default 51 (sheet ≫= s_y));
                 Width := None; Height := None;
                 WidthNext := Some (default 714 (sheet ≫= s_width_next));
                 HeightNext := Some (default 268 (sheet ≫= s_height_next));
                 Primary := Some false |};
            StudentIDCheck := Some student_id_check;
            SubjectIDCheck := Some subject_id_check |} ];
     Subjects := Some
       [ (lit "10 ",
          {| MaxScore := Some (default 100 (scoring_of ≫= max_score));
             Choices :=
               Some (default default_choices (scoring_of ≫= choices));
             AnswerList := Some answer_list;
             BiasScore := Some (default [] (scoring_of ≫= bias_scores)) |}) ]
  |}.

(** From the C configuration to the Python configuration and back. *)
Definition round_trip (c : c_config) : outcome c_config :=
  python_config ← c_json_to_python_config c;
  mret (python_to_c_json python_config).

(** An answer that the round trip leaves as it is: it holds no sign U+00B1
    and it is its own right-stripped text padded with spaces to five
    characters. *)
Definition canonical_answer (answer : list N) : Prop :=
  (plus_minus ∉ answer) /\ ljust 5 (rstrip answer) = answer.

(** A configuration in the form that [python_to_c_json] writes: one format
    with the layout parameters of paper, question and sheet, the two check
    blocks and the [Primary] flags as written, and the one subject ["10 "]. *)
Record layout := {
  paper_width : Z; paper_height : Z;
  question_column : Z; question_row : Z; question_width : Z;
  question_height : Z; question_width_next : Z; question_height_next : Z;
  sheet_column : Z; sheet_row : Z; sheet_x : Z; sheet_y : Z;
  sheet_width_next : Z; sheet_height_next : Z
}.

Definition written_config (l : layout) (subject_key : list N)
    (max : Z) (symbols : list (list N)) (answer_list : list (list N))
    (bias : list Z) (student subject : c_block) : c_config :=
  {| Formats := Some
       [ {| Paper := Some {| Paper_Width := Some (paper_width l);
                             Paper_height := Some (paper_height l) |};
            Question := Some
              {| Column := Some (question_column l);
                 Row := Some (question_row l);
                 X := None; Y := None;
                 Width := Some (question_width l);
                 Height := Some (question_height l);
                 WidthNext := Some (question_width_next l);
                 HeightNext := Some (question_height_next l);
                 Primary := Some true |};
            Sheet := Some
              {| Column := Some (sheet_column l);
                 Row := Some (sheet_row l);
                 X := Some (sheet_x l); Y := Some (sheet_y l);
                 Width := None; Height := None;
                 WidthNext := Some (sheet_width_next l);
                 HeightNext := Some (sheet_height_next l);
                 Primary := Some false |};
            StudentIDCheck := Some student;
            SubjectIDCheck := Some subject |} ];
     Subjects := Some
       [ (subject_key,
          {| MaxScore := Some max; Choices := Some symbols;
             AnswerList := Some answer_list; BiasScore := Some bias |}) ] |}.

(** The layout that the converters take as default. *)
Definition default_layout : layout :=
  {| paper_width := 3507; paper_height := 2480;
     question_column := 13; question_row := 5; question_width := 40;
     question_height := 40; question_width_next := 47;
     question_height_next := 48;
     sheet_column := 4; sheet_row := 9; sheet_x := 743; sheet_y := 51;
     sheet_width_next := 714; sheet_height_next := 268 |}.

(** The layout parameters of a format as the converter reads them. *)
Definition read_layout (f : c_format) : list (option Z) :=
  [ Paper f ≫= Paper_Width; Paper f ≫= Paper_height;
    Question f ≫= Column; Question f ≫= Row; Question f ≫= Width;
    Question f ≫= Height; Question f ≫= WidthNext;
    Question f ≫= HeightNext;
    Sheet f ≫= Column; Sheet f ≫= Row; Sheet f ≫= X; Sheet f ≫= Y;
    Sheet f ≫= WidthNext; Sheet f ≫= HeightNext ].

(** The defaults of the layout parameters, in the order of [read_layout]. *)
Definition layout_defaults : list Z :=
  [3507; 2480; 13; 5; 40; 40; 47; 48; 4; 9; 743; 51; 714; 268].

(** The layout parameters of a written configuration, in that order. *)
Definition layout_values (l : layout) : list Z :=
  [ paper_width l; paper_height l;
    question_column l; question_row l; question_width l; question_height l;
    question_width_next l; question_height_next l;
    sheet_column l; sheet_row l; sheet_x l; sheet_y l;
    sheet_width_next l; sheet_height_next l ].

(** The layout parameters of a Python configuration as they are read from
    it, in that order. *)
Definition python_layout (p : python_config) : list (option Z) :=
  [ paper p ≫= width; paper p ≫= height;
    question_area p ≫= q_columns; question_area p ≫= q_rows;
    question_area p ≫= q_width; question_area p ≫= q_height;
    question_area p ≫= q_width_next; question_area p ≫= q_height_next;
    sheet_area p ≫= s_columns; sheet_area p ≫= s_rows;
    sheet_area p ≫= s_x; sheet_area p ≫= s_y;
    sheet_area p ≫= s_width_next; sheet_area p ≫= s_height_next ].

(** The format that is read when the configuration has no ["Formats"]:
    the empty dictionary. *)
Definition empty_format : c_format :=
  {| Paper := None; Question := None; Sheet := None;
     StudentIDCheck := None; SubjectIDCheck := None |}.

(** What the round trip makes of one answer of the list. *)
Definition returned_answer (answer : list N) : list N :=
  ljust 5 (replace plus_minus [ampersand] (clean_answer answer)).

(** Samples: the answers "4", "-5" and "&3" padded to five characters. *)
Definition sample_answers : list (list N) :=
  [lit "4    "; lit "-5   "; lit "&3   "].

End ConfigConverter.

(** ** answer_key_manager.py *)

Module AnswerKeyManager.

Record exam_info := {
  name : list N;
  date : list N;
  total_questions : Z;
  choices_per_question : Z;
  passing_score : Z
}.

Record scoring := {
  correct_points : Z;
  incorrect_points : Z;
  blank_points : Z
}.

Record bubble_mapping := {
  choice_positions : list (list N);
  questions_per_column : Z;
  total_columns : Z
}.

Record grid_layout := {
  start_x : Z;
  start_y : Z;
  bubble_width : Z;
  bubble_height : Z;
  question_spacing_y : Z;
  choice_spacing_x : Z;
  column_spacing_x : Z
}.

(** [self.config] *)
Record config := {
  info : exam_info;
  points : scoring;
  answers : gmap (list N) (list N);
  mapping : bubble_mapping;
  layout : grid_layout
}.

(** [__init__]; [today] is the date of the day, as the clock gives it. *)
Definition init (today : list N) : config :=
  {| info := {| name := []; date := today; total_questions := 100;
                choices_per_question := 5; passing_score := 60 |};
     points := {| correct_points := 1; incorrect_points := 0;
                  blank_points := 0 |};
     answers := ∅;
     mapping := {| choice_positions := map lit ["A"; "B"; "C"; "D"; "E"];
                   questions_per_column := 25; total_columns := 4 |};
     layout := {| start_x := 50; start_y := 100; bubble_width := 20;
                  bubble_height := 20; question_spacing_y := 25;
                  choice_spacing_x := 40; column_spacing_x := 200 |} |}.

Definition set_exam_info (self : config) (exam_name : list N)
    (total passing : Z) : config :=
  {| info := {| name := exam_name; date := date (info self);
                total_questions := total;
                choices_per_question := choices_per_question (info self);
                passing_score := passing |};
     points := points self; answers := answers self;
     mapping := mapping self; layout := layout self |}.

(** [self.config["answers"] = answers] *)
Definition with_answers (self : config) (new : gmap (list N) (list N))
  : config :=
  {| info := info self; points := points self; answers := new;
     mapping := mapping self; layout := layout self |}.

(** A section of [set_answers_from_sections]: a dictionary that may hold a
    ["pattern"] and may hold a list of ["answers"]. *)
Record section_config := {
  pattern : option (list N);
  section_answers : option (list (list N))
}.

Section Builder.

(** The built-in [str.upper] and the built-in [int] on a string, which
    raises [ValueError] on what is not a numeral ([None]). *)
Variable upper : list N -> list N.
Variable int : list N -> option Z.

(** The token that the pattern loop gives to question [i]. *)
Definition pattern_token (first : Z) (p : list N) (i : Z) : list N :=
  upper (default [] (c ← p !! Z.to_nat ((i - first) `mod` Z.of_nat (length p));
                     Some [c])).

(** The loop that both pattern helpers run: the questions [first..last] take
    the characters of the pattern in turn, each through [upper].  The index
    [(i - first) % len(pattern)] divides by the length of the pattern. *)
Definition fill_from_pattern (first last : Z) (pattern_of : list N)
    (answers_of : gmap (list N) (list N))
  : outcome (gmap (list N) (list N)) :=
  for_each
    (fun answers_of i =>
       if Z.of_nat (length pattern_of) =? 0 then Raises ZeroDivisionError
       else
         let pattern_index := (i - first) `mod` Z.of_nat (length pattern_of) in
         Returns
           (<[str_of_int i :=
                upper (default [] (c ← pattern_of !! Z.to_nat pattern_index;
                                   Some [c]))]>
              answers_of))
    answers_of (seqZ first (last + 1 - first)).

(** [set_answers_from_pattern] *)
Definition set_answers_from_pattern (self : config) (pattern_of : list N)
  : outcome config :=
  let total_q := total_questions (info self) in
  new ← fill_from_pattern 1 total_q pattern_of ∅;
  mret (with_answers self new).

(** [set_answers_from_list].  The loop runs over
    [range(1, min(len(answers_list) + 1, total_q + 1))]. *)
Definition set_answers_from_list (self : config)
    (answers_list : list (list N)) : config :=
  let total_q := total_questions (info self) in
  let len := Z.of_nat (length answers_list) in
  let stop := Z.min (len + 1) (total_q + 1) in
  let new :=
    foldl (fun answers_of i =>
             if i <=? len
             then <[str_of_int i :=
                      upper (default [] (answers_list !! Z.to_nat (i - 1)))]>
                    answers_of
             else <[str_of_int i := lit "A"]> answers_of)
          ∅ (seqZ 1 (stop - 1)) in
  with_answers self new.

(** The range of a section, read from its name:
    [section_name.split("(")[-1].replace(")", "")], which must hold a "-"
    for the section to count, is split at "-" into exactly two numerals. *)
Definition range_of_name (section_name : list N)
  : outcome (option (Z * Z)) :=
  let range_part := replace 41 [] (List.last (split 40 section_name) []) in
  if contains 45 range_part then
    match split 45 range_part with
    | [a; b] =>
        match int a, int b with
        | Some first, Some last => Returns (Some (first, last))
        | _, _ => Raises ValueError
        end
    | _ => Raises ValueError
    end
  else Returns None.

(** The answers of a section given as a list: the entry [i] goes to the
    question [start + i] as long as that is not beyond [last]. *)
Definition fill_from_answers (first last : Z) (given : list (list N))
    (answers_of : gmap (list N) (list N)) : gmap (list N) (list N) :=
  foldl (fun answers_of '(i, answer) =>
           if first + i <=? last
           then <[str_of_int (first + i) := upper answer]> answers_of
           else answers_of)
        answers_of (imap (fun i answer => (Z.of_nat i, answer)) given).

(** The token that a section with the range [first..last] writes for the
    question [i], if it writes one: the character of its pattern at the
    turn of [i], or else, without a pattern, the entry [i - first] of its
    list of answers. *)
Definition section_token (section : section_config) (first last i : Z)
  : option (list N) :=
  if bool_decide (first <= i <= last) then
    match pattern section, section_answers section with
    | Some pattern_of, _ => Some (pattern_token first pattern_of i)
    | None, Some given => upper <$> given !! Z.to_nat (i - first)
    | None, None => None
    end
  else None.

(** [set_answers_from_sections]; the sections come in the order of the
    dictionary. *)
Definition set_answers_from_sections (self : config)
    (sections : list (list N * section_config)) : outcome config :=
  new ←
    for_each
      (fun answers_of '(section_name, section) =>
         range ← range_of_name section_name;
         match range with
         | None => Returns answers_of
         | Some (first, last) =>
             match pattern section, section_answers section with
             | Some pattern_of, _ =>
                 fill_from_pattern first last pattern_of answers_of
             | None, Some given =>
                 Returns (fill_from_answers first last given answers_of)
             | None, None => Returns answers_of
             end
         end)
      ∅ sections;
  mret (with_answers self new).

End Builder.

(** The example of the docstring of [set_answers_from_sections], without
    its middle section. *)
Definition docstring_sections : list (list N * section_config) :=
  [ (lit "Math (1-25)",
     {| pattern := Some (lit "ABCDE"); section_answers := None |});
    (lit "English (51-75)",
     {| pattern := Some (lit "EDCBA"); section_answers := None |}) ].

(** Sections of both kinds, the last of which writes question 25 again. *)
Definition mixed_sections : list (list N * section_config) :=
  [ (lit "Math (1-25)",
     {| pattern := Some (lit "ABCDE"); section_answers := None |});
    (lit "Science (26-50)",
     {| pattern := None;
        section_answers := Some [lit "b"; lit "c"; lit "d"] |});
    (lit "Redo (25-25)",
     {| pattern := Some (lit "x"); section_answers := None |}) ].

End AnswerKeyManager.

From stdpp Require Import sorting.

Local Open Scope Z_scope.

(** ** simple_demo.py: the summary of [main] *)

Module SimpleDemoMain.
Import SimpleDemo.

(** The numbers that [main] prints after a batch. *)
Record run_summary := {
  total_images : Z;
  successfully_processed : Z;
  failed_images : Z;
  avg_score : Q;
  total_correct : Z;
  total_questions_scored : Z
}.

(** [successful = [r for r in results if "error" not in r]] *)
Definition successful_of (batch : list entry) : list results :=
  omap (fun e => match e with
                 | Scored r _ _ => Some r
                 | Failed _ _ _ => None
                 end) batch.

(** [failed = [r for r in results if "error" in r]] *)
Definition failed_of (batch : list entry) : list entry :=
  filter (fun e => is_failed e = true) batch.

(** The part of [main] between the batch and the printing: the average of
    the percentages and the total of the correct answers over the sheets
    that were processed, and zeros when there is no such sheet. *)
Definition main_summary (demo : SimpleHybridDemo) (batch : list entry)
  : run_summary :=
  let successful := successful_of batch in
  let failed := failed_of batch in
  let n := Z.of_nat (length successful) in
  {| total_images := Z.of_nat (length batch);
     successfully_processed := n;
     failed_images := Z.of_nat (length failed);
     avg_score :=
       match successful with
       | [] => 0%Q
       | _ =>
           (foldl Qplus 0%Q
                  (map (fun r => score_percentage (summary r)) successful)
            / inject_Z n)%Q
       end;
     total_correct :=
       match successful with
       | [] => 0
       | _ => foldl Z.add 0 (map (fun r => correct_count (summary r))
                                 successful)
       end;
     total_questions_scored :=
       match successful with
       | [] => 0
       | _ => n * Z.of_nat (size (answer_key demo))
       end |}.

(** What every score that [calculate_score] returns obeys: the correct
    answers are at most the questions of the key, and the percentage lies
    between 0 and 100. *)
Definition plausible (self : SimpleHybridDemo) (r : results) : Prop :=
  0 <= correct_count (summary r) <= Z.of_nat (size (answer_key self))
  /\ (0 <= score_percentage (summary r) <= 100)%Q.

End SimpleDemoMain.

(** ** main_hybrid.py *)

Module MainHybrid.

(** One result of a batch as [generate_performance_report] reads it: a
    dictionary of which the four keys ["error"], ["detection_method"],
    ["score"] and ["image_path"] are looked at, each of which may be absent.
    The error stands for the exception whose text the dictionary holds. *)
Record result := {
  r_error : option exception;
  r_detection_method : option (list N);
  r_score : option Q;
  r_image_path : option (list N)
}.

Record report_summary := {
  total_images : Z;
  successful_detections : Z;
  failed_detections : Z;
  c_detections : Z;
  python_fallback_detections : Z
}.

(** One row of ["detailed_results"]; the score is the number or, when the
    result has none, the text "N/A" ([None]). *)
Record detail := {
  image : list N;
  detection_method : list N;
  score : option Q;
  succeeded : bool;
  error : option exception
}.

Record performance_metrics := {
  detection_success_rate : Q;
  c_detection_rate : Q;
  average_score : Q
}.

(** The report; its time stamp is left out. *)
Record report := {
  summary : report_summary;
  detailed_results : list detail;
  metrics : performance_metrics
}.

(** [os.path.basename] for a path written with "/". *)
Definition basename (path : list N) : list N :=
  List.last (PyStr.split 47 path) [].

(** The variables that the loop of the report updates. *)
Record counters := {
  n_successful : Z;
  n_failed : Z;
  n_c : Z;
  n_fallback : Z;
  total_scores : list Q;
  rows : list detail
}.

(** One round of the loop over the results. *)
Definition count_result (c : counters) (r : result) : counters :=
  let failed := bool_decide (is_Some (r_error r)) in
  let is_c := bool_decide (r_detection_method r = Some (lit "C-based")) in
  let is_fallback :=
    bool_decide (r_detection_method r = Some (lit "Python fallback")) in
  {| n_successful := if failed then n_successful c else n_successful c + 1;
     n_failed := if failed then n_failed c + 1 else n_failed c;
     n_c := if failed then n_c c
            else if is_c then n_c c + 1 else n_c c;
     n_fallback :=
       if failed then n_fallback c
       else if is_c then n_fallback c
       else if is_fallback then n_fallback c + 1 else n_fallback c;
     total_scores :=
       if failed then total_scores c
       else match r_score r with
            | Some s => total_scores c ++ [s]
            | None => total_scores c
            end;
     rows := rows c ++
       [ {| image := basename (default (lit "unknown") (r_image_path r));
            detection_method :=
              default (lit "unknown") (r_detection_method r);
            score := r_score r;
            succeeded := negb failed;
            error := r_error r |} ] |}.

(** [generate_performance_report] *)
Definition generate_performance_report (results : list result) : report :=
  let c := foldl count_result
                 {| n_successful := 0; n_failed := 0; n_c := 0;
                    n_fallback := 0; total_scores := []; rows := [] |}
                 results in
  let total := Z.of_nat (length results) in
  {| summary :=
       {| total_images := total;
          successful_detections := n_successful c;
          failed_detections := n_failed c;
          c_detections := n_c c;
          python_fallback_detections := n_fallback c |};
     detailed_results := rows c;
     metrics :=
       {| detection_success_rate :=
            if 0 <? total
            then (inject_Z (n_successful c) / inject_Z total * 100)%Q
            else 0%Q;
          c_detection_rate :=
            if 0 <? total
            then (inject_Z (n_c c) / inject_Z total * 100)%Q
            else 0%Q;
          average_score :=
            match total_scores c with
            | [] => 0%Q
            | scores =>
                (foldl Qplus 0%Q scores
                 / inject_Z (Z.of_nat (length scores)))%Q
            end |} |}.

(** The row of ["detailed_results"] for one result. *)
Definition row_of (r : result) : detail :=
  {| image := basename (default (lit "unknown") (r_image_path r));
     detection_method := default (lit "unknown") (r_detection_method r);
     score := r_score r;
     succeeded := negb (bool_decide (is_Some (r_error r)));
     error := r_error r |}.

Section FromBatch.

(** The results of the scoring backend are dictionaries: whether such a
    dictionary holds an ["error"] and which ["score"] it holds. *)
Variable score_type : Type.
Variable backend_error : score_type -> option exception.
Variable backend_score : score_type -> option Q.

(** An entry of [HybridScorer.process_batch] as the dictionary that the
    report reads.  [process_single_image] sets the detection method and the
    image path of a scored entry over whatever the backend wrote. *)
Definition result_of_entry (e : HybridScorer.entry score_type) : result :=
  match e with
  | HybridScorer.Scored r method path =>
      {| r_error := backend_error r;
         r_detection_method := Some method;
         r_score := backend_score r;
         r_image_path := Some path |}
  | HybridScorer.Failed path e method =>
      {| r_error := Some e;
         r_detection_method := Some method;
         r_score := None;
         r_image_path := Some path |}
  end.

End FromBatch.

End MainHybrid.

(** ** [calibrate_positions.py], the columns of a mapping *)

Module CalibrateColumns.
Import PyStr CalibratePositions.

(** The ranges that the loop of [generate_numeric_mapping] gives to the
    labels [ls] when it reaches them at index [i], for columns of width
    [w] from [x_min]. *)
Definition columns_from (x_min w : Q) (i : nat) (ls : list (list N))
  : list (list N * (Q * Q)) :=
  imap (fun j label =>
          (label,
           ((x_min + inject_Z (Z.of_nat (i + j)) * w)%Q,
            (x_min + (inject_Z (Z.of_nat (i + j)) + 1) * w)%Q)))
       ls.

End CalibrateColumns.
(** * Properties *)

(** ** Strings and comparisons *)

#[global] Instance lit_inj : Inj (=) (=) lit.
Proof.
  intros s; induction s as [|a s IH]; intros [|b t] H; simpl in H;
    try discriminate; [reflexivity|].
  injection H as Hab Hst.
  f_equal; [|by apply IH].
  rewrite <- (ascii_N_embedding a), <- (ascii_N_embedding b).
  by rewrite Hab.
Qed.

#[global] Instance str_of_int_inj : Inj (=) (=) str_of_int.
Proof.
  intros i j H. unfold str_of_int in H.
  apply lit_inj in H. by apply (inj pretty) in H.
Qed.

Lemma Qltb_lt a b : Qltb a b = true <-> (a < b)%Q.
Proof.
  unfold Qltb. rewrite negb_true_iff.
  split.
  - intros H. apply Qnot_le_lt. intros Hle.
    apply Qle_bool_iff in Hle. congruence.
  - intros H. destruct (Qle_bool b a) eqn:E; [|reflexivity].
    apply Qle_bool_iff in E. exfalso. apply (Qlt_not_le _ _ H E).
Qed.

Lemma Qltb_ge a b : Qltb a b = false <-> (b <= a)%Q.
Proof.
  unfold Qltb. rewrite negb_false_iff. apply Qle_bool_iff.
Qed.

(** ** The improved position mapper *)

Module ImprovedPositionMapperFacts.
Import ImprovedPositionMapper.

(** On an integer coordinate a comparison with a rational is a comparison
    of integers. *)
Lemma Qltb_inject_Z (x : Z) (n : Z) (d : positive) :
  Qltb (inject_Z x) (n # d) = (x * Z.pos d <? n).
Proof.
  unfold Qltb, Qle_bool, inject_Z; simpl.
  rewrite Z.mul_1_r.
  destruct (Z.leb_spec n (x * Z.pos d)), (Z.ltb_spec (x * Z.pos d) n);
    simpl; try reflexivity; lia.
Qed.

(** The rationals that the five literals denote. *)
Lemma boundaries_exact :
  map Binary64.to_Q boundaries =
    [ 4549339311085978 # 17592186044416;
      5539779385386598 # 8796093022208;
      8804889115230208 # 8796093022208;
      6034999422536909 # 4398046511104;
      7667554287458713 # 4398046511104 ]%Q.
Proof. vm_compute. reflexivity. Qed.

Lemma first_below_exact (x : Z) (i : nat) (bs : list float) :
  first_below x i bs =
    (fix go (i : nat) (qs : list Q) : option nat :=
       match qs with
       | [] => None
       | q :: qs' => if Qltb (inject_Z x) q then Some i else go (S i) qs'
       end) i (map Binary64.to_Q bs).
Proof.
  revert i. induction bs as [|b bs IH]; intros i; [reflexivity|].
  simpl. unfold Binary64.int_lt. by rewrite IH.
Qed.

(** The function, by the integer thresholds that the binary64 boundaries
    induce on pixel coordinates. *)
Lemma improved_position_to_choice_thresholds (q x y : Z) :
  improved_position_to_choice q (x, y) =
    if x <=? 258 then lit "A"
    else if x <=? 629 then lit "B"
    else if x <=? 1000 then lit "C"
    else if x <=? 1372 then lit "D"
    else lit "E".
Proof.
  unfold improved_position_to_choice.
  rewrite first_below_exact, boundaries_exact.
  rewrite !Qltb_inject_Z.
  repeat match goal with
         | |- context [ (?a <? ?b) ] => destruct (Z.ltb_spec a b)
         | |- context [ (?a <=? ?b) ] => destruct (Z.leb_spec a b)
         end; simpl; try reflexivity; lia.
Qed.

(** The decimal table of the specification gives the same thresholds. *)
Lemma decimal_table_thresholds (x : Z) :
  find (fun bc => Qltb (inject_Z x) (fst bc))
       (combine decimal_boundaries choices) =
    if x <=? 258 then Some (258.6%Q, lit "A")
    else if x <=? 629 then Some (629.8%Q, lit "B")
    else if x <=? 1000 then Some (1001.0%Q, lit "C")
    else if x <=? 1372 then Some (1372.2%Q, lit "D")
    else if x <=? 1743 then Some (1743.4%Q, lit "E")
    else None.
Proof.
  unfold decimal_boundaries, choices, combine, find, fst.
  rewrite !Qltb_inject_Z.
  repeat match goal with
         | |- context [ (?a <? ?b) ] => destruct (Z.ltb_spec a b)
         | |- context [ (?a <=? ?b) ] => destruct (Z.leb_spec a b)
         end; simpl; try reflexivity; lia.
Qed.

(** C1. For every position [(x, y)] the mapper returns the choice of the
    first boundary of the table [258.6, 629.8, 1001.0, 1372.2, 1743.4] that
    strictly exceeds [x], and ["E"] when no boundary does; every [x] at or
    beyond the last boundary is mapped to ["E"]; 100 is mapped to ["A"],
    1000 to ["C"] and 2000 to ["E"]. *)
Theorem improved_position_to_choice_first_exceeding (q x y : Z) :
  improved_position_to_choice q (x, y) =
    match find (fun bc => Qltb (inject_Z x) (fst bc))
               (combine decimal_boundaries choices) with
    | Some (_, choice) => choice
    | None => lit "E"
    end
  /\ ((1743.4 <= inject_Z x)%Q ->
      improved_position_to_choice q (x, y) = lit "E")
  /\ improved_position_to_choice q (100, y) = lit "A"
  /\ improved_position_to_choice q (1000, y) = lit "C"
  /\ improved_position_to_choice q (2000, y) = lit "E".
Proof.
  split; [|split].
  - rewrite improved_position_to_choice_thresholds, decimal_table_thresholds.
    repeat match goal with
           | |- context [ (?a <=? ?b) ] => destruct (Z.leb_spec a b)
           end; try reflexivity; lia.
  - intros Hx. apply Qltb_ge in Hx.
    change (1743.4%Q) with (17434 # 10)%Q in Hx.
    rewrite Qltb_inject_Z in Hx. apply Z.ltb_ge in Hx.
    rewrite improved_position_to_choice_thresholds.
    repeat match goal with
           | |- context [ (?a <=? ?b) ] => destruct (Z.leb_spec a b)
           end; try reflexivity; lia.
  - rewrite !improved_position_to_choice_thresholds. repeat split.
Qed.

Lemma improved_position_to_choice_first_exceeding_witness :
  (1743.4 <= inject_Z 2000)%Q /\
  improved_position_to_choice 7 (2000, 40) = lit "E".
Proof.
  split.
  - unfold Qle, inject_Z; simpl; lia.
  - refine (proj1 (proj2
      (improved_position_to_choice_first_exceeding 7 2000 40)) _).
    unfold Qle, inject_Z; simpl; lia.
Defined.

(** C10. The choice depends on the x coordinate alone: neither the question
    number nor the y coordinate has any influence. *)
Theorem improved_position_to_choice_depends_on_x_only (q1 q2 x y1 y2 : Z) :
  improved_position_to_choice q1 (x, y1) =
  improved_position_to_choice q2 (x, y2).
Proof. reflexivity. Qed.

End ImprovedPositionMapperFacts.

(** ** The demo scorer: grouping marks into questions *)

Module SimpleDemoFacts.
Import SimpleDemo.

(** *** Sorting by x *)

Lemma insert_by_x_perm b l : insert_by_x b l ≡ₚ b :: l.
Proof.
  induction l as [|c l IH]; simpl; [done|].
  destruct (fst c <? fst b); [|done].
  rewrite IH. apply perm_swap.
Qed.

Lemma sort_by_x_perm l : sort_by_x l ≡ₚ l.
Proof.
  induction l as [|b l IH]; simpl; [done|].
  by rewrite insert_by_x_perm, IH.
Qed.

Lemma ascending_x_cons b l :
  ascending_x (b :: l) <->
  Forall (fun c => fst b <= fst c) l /\ ascending_x l.
Proof.
  split.
  - intros H. split.
    + apply Forall_lookup. intros j c Hc.
      apply (H 0%nat (S j) b c); [lia|done|done].
    + intros i j c d Hij Hc Hd.
      apply (H (S i) (S j) c d); [lia|done|done].
  - intros [Hb Hl] i j c d Hij Hc Hd.
    destruct j as [|j]; [lia|]. simpl in Hd.
    destruct i as [|i]; simpl in Hc.
    + injection Hc as <-. by apply (proj1 (Forall_lookup _ _) Hb j).
    + apply (Hl i j); [lia|done|done].
Qed.

Lemma insert_by_x_ascending b l :
  ascending_x l -> ascending_x (insert_by_x b l).
Proof.
  induction l as [|c l IH]; intros Hl; simpl.
  - apply ascending_x_cons. split; [constructor|].
    intros i j ? ? ?. by rewrite lookup_nil.
  - apply ascending_x_cons in Hl as [Hc Hl].
    destruct (Z.ltb_spec (fst c) (fst b)) as [Hlt|Hge].
    + apply ascending_x_cons. split; [|by apply IH].
      rewrite insert_by_x_perm. constructor; [lia|done].
    + apply ascending_x_cons. split.
      * constructor; [done|].
        eapply Forall_impl; [exact Hc|]. simpl. intros; lia.
      * apply ascending_x_cons. by split.
Qed.

Lemma sort_by_x_ascending l : ascending_x (sort_by_x l).
Proof.
  induction l as [|b l IH]; simpl.
  - intros i j ? ? ?. by rewrite lookup_nil.
  - by apply insert_by_x_ascending.
Qed.

(** *** Row index *)

(** Cutting towards zero and rounding down differ on negative quotients
    only, and those are clamped to the first question either way. *)
Lemma question_num_of_floor y :
  question_num_of y = Z.max 1 (Z.min 15 (y / 100 + 1)).
Proof.
  unfold question_num_of.
  destruct (Z.le_gt_cases 0 y) as [Hy|Hy].
  - by rewrite Z.quot_div_nonneg by lia.
  - assert (Z.quot y 100 <= 0).
    { replace y with (- (- y)) by lia. rewrite Z.quot_opp_l by lia.
      pose proof (Z.quot_pos (- y) 100). lia. }
    assert (y / 100 < 0) by (apply Z.div_lt_upper_bound; lia).
    lia.
Qed.

(** *** Grouping *)

(** The rows of the grouping are the marks of each question, in the order
    of the input; a question without marks has no row. *)
Lemma group_by_row_lookup (bubbles : list (Z * Z)) (q : Z) :
  group_by_row bubbles !! q =
    match filter (fun b => question_num_of (snd b) = q) bubbles with
    | [] => None
    | row => Some row
    end.
Proof.
  unfold group_by_row.
  induction bubbles as [|[x y] l IH] using rev_ind; [done|].
  rewrite foldl_snoc, filter_app.
  set (m := foldl _ ∅ l) in *.
  rewrite lookup_insert.
  destruct (decide (question_num_of y = q)) as [Heq|Hne].
  - rewrite filter_cons_True by exact Heq. rewrite filter_nil.
    rewrite Heq, IH. by destruct (filter _ l).
  - rewrite filter_cons_False by (simpl; congruence).
    rewrite filter_nil, app_nil_r.
    done.
Qed.

(** *** The answer of a row *)

Lemma foldl_symbols (l : list (Z * Z)) (acc : list N) :
  foldl (fun answer '(x, y) => answer ++ symbol_of x) acc l =
    acc ++ concat (map (fun b => symbol_of (fst b)) l).
Proof.
  revert acc; induction l as [|[x y] l IH]; intros acc; simpl.
  - by rewrite app_nil_r.
  - by rewrite IH, app_assoc.
Qed.

Lemma rstrip_no_space (s : list N) :
  Forall (fun c => isspace c = false) s -> rstrip s = s.
Proof.
  induction 1 as [|c s Hc Hs IH]; simpl; [done|].
  rewrite IH. destruct s; [by rewrite Hc|done].
Qed.

Lemma symbol_of_single (x : Z) :
  exists c, symbol_of x = [c] /\ isspace c = false.
Proof.
  unfold symbol_of.
  assert (0 <= char_idx_of x <= 12) as Hr by (unfold char_idx_of; lia).
  assert (exists n, Z.to_nat (char_idx_of x) = n /\ (n <= 12)%nat)
    as (n & -> & Hn) by (eexists; split; [done|lia]).
  do 13 (destruct n as [|n]; [simpl; eexists; split; [done|done]|]).
  lia.
Qed.

Lemma answer_of_row_concat (row : list (Z * Z)) :
  row <> [] ->
  answer_of_row row =
    concat (map (fun b => symbol_of (fst b)) (take 3 (sort_by_x row))).
Proof.
  intros Hrow. unfold answer_of_row.
  set (l := take 3 (sort_by_x row)).
  assert (l <> []) as Hl.
  { subst l. pose proof (Permutation_length (sort_by_x_perm row)) as Hlen.
    destruct row; [done|]. destruct (sort_by_x _); [done|done]. }
  rewrite foldl_symbols, app_nil_l.
  rewrite rstrip_no_space.
  - destruct l as [|b l']; [done|]. simpl.
    destruct (symbol_of_single (fst b)) as (c & -> & _). done.
  - apply Forall_concat, Forall_map, Forall_forall. intros b _. simpl.
    destruct (symbol_of_single (fst b)) as (c & -> & Hc).
    by constructor.
Qed.

(** C6, as amended. The mark at [(x, y)] is put into the row
    [floor(y / 100) + 1] clamped to [1, 15]; the token of a question is the
    concatenation, left to right, of the symbols of the first three marks
    of its row in ascending order of x; a question without marks has no
    token. *)
Theorem convert_bubbles_to_answers_rows
    (detected_bubbles : gmap (list N) (list (Z * Z))) (q : Z) :
  let bubbles := default [] (detected_bubbles !! lit "bubbles") in
  let row :=
    filter (fun b => Z.max 1 (Z.min 15 (snd b / 100 + 1)) = q) bubbles in
  convert_bubbles_to_answers detected_bubbles !! str_of_int q =
    match row with
    | [] => None
    | _ => Some (concat (map (fun b => symbol_of (fst b))
                             (take 3 (sort_by_x row))))
    end
  /\ sort_by_x row ≡ₚ row
  /\ ascending_x (sort_by_x row).
Proof.
  intros bubbles row.
  split; [|split; [apply sort_by_x_perm|apply sort_by_x_ascending]].
  unfold convert_bubbles_to_answers. fold bubbles.
  rewrite (lookup_kmap (M2 := gmap (list N)) str_of_int
             (answer_of_row <$> group_by_row bubbles) q).
  rewrite lookup_fmap, group_by_row_lookup.
  replace (filter _ bubbles) with row.
  2:{ subst row. apply list_filter_iff. intros b.
      by rewrite question_num_of_floor. }
  destruct row as [|b row'] eqn:E; [done|].
  simpl. f_equal. by apply answer_of_row_concat.
Qed.

(** C6, as stated, fails: the mark at y = 250 belongs to question 3, not to
    row [floor(250 / 100)] = 2, and of four marks in one row only the first
    three contribute a symbol. *)
Lemma convert_bubbles_to_answers_rows_counterexample :
  spec_row_index 250 = 2
  /\ convert_bubbles_to_answers {[ lit "bubbles" := [(100, 250)] ]}
       !! str_of_int 2 = None
  /\ convert_bubbles_to_answers {[ lit "bubbles" := [(100, 250)] ]}
       !! str_of_int 3 = Some [plus_minus]
  /\ convert_bubbles_to_answers
       {[ lit "bubbles" := [(700, 50); (100, 50); (500, 50); (300, 50)] ]}
       !! str_of_int 1 = Some (plus_minus :: lit "-+")
  /\ concat (map (fun b => symbol_of (fst b))
                 (sort_by_x [(700, 50); (100, 50); (500, 50); (300, 50)]))
     = plus_minus :: lit "-+0".
Proof. by vm_compute. Qed.

(** *** Scoring *)

Lemma count_status_snoc st l c :
  count_status st (l ++ [c]) =
    count_status st l + (if decide (status_of c = st) then 1 else 0).
Proof.
  unfold count_status. rewrite filter_app, length_app.
  destruct (decide (status_of c = st)).
  - rewrite filter_cons_True by done. simpl. lia.
  - rewrite filter_cons_False by done. simpl. lia.
Qed.

(** The loop of [calculate_score], for any list of question numbers. *)
Lemma foldl_score_question self detected_answers (qs : list Z) (t : tally) :
  let t' := foldl (score_question self detected_answers) t qs in
  let cs := map (compare_question self detected_answers) qs in
  t_comparison t' = t_comparison t ++ cs
  /\ t_correct t' = t_correct t + count_status Correct cs
  /\ t_incorrect t' = t_incorrect t + count_status Incorrect cs
  /\ t_blank t' = t_blank t + count_status Blank cs.
Proof.
  induction qs as [|q qs IH] using rev_ind; simpl.
  - unfold count_status; simpl. rewrite app_nil_r. repeat split; lia.
  - rewrite foldl_snoc, map_app.
    destruct IH as (IHc & IH1 & IH2 & IH3).
    set (t0 := foldl _ t qs) in *.
    set (c := compare_question self detected_answers q).
    cbn [map score_question t_comparison t_correct t_incorrect t_blank].
    fold c.
    rewrite !count_status_snoc, IHc, IH1, IH2, IH3, app_assoc.
    split; [done|].
    destruct (status_of c); repeat split; simpl; lia.
Qed.

Lemma classify_cases (expected token : list N) :
  classify expected token =
    if decide (token = []) then Blank
    else if decide (token = expected) then Correct
    else Incorrect.
Proof.
  unfold classify. destruct token; [done|].
  rewrite (decide_False (P := _ :: _ = [])) by done. done.
Qed.

(** Without marks no question has an answer. *)
Lemma convert_no_bubbles (detected_bubbles : gmap (list N) (list (Z * Z))) :
  default [] (detected_bubbles !! lit "bubbles") = [] ->
  convert_bubbles_to_answers detected_bubbles = ∅.
Proof.
  intros H. unfold convert_bubbles_to_answers. rewrite H.
  change (group_by_row []) with (∅ : gmap Z (list (Z * Z))).
  by rewrite fmap_empty, kmap_empty.
Qed.

Lemma count_status_le_length st l :
  0 <= count_status st l <= Z.of_nat (length l).
Proof.
  unfold count_status. pose proof (length_filter (fun c => status_of c = st) l).
  lia.
Qed.

Lemma count_status_all st l :
  Forall (fun c => status_of c = st) l ->
  count_status st l = Z.of_nat (length l)
  /\ forall st', st' <> st -> count_status st' l = 0.
Proof.
  intros H. unfold count_status. split.
  - f_equal. f_equal. induction H as [|c l Hc Hl IH]; [done|].
    rewrite filter_cons_True by done. simpl. by rewrite IH.
  - intros st' Hne. replace (filter _ l) with (@nil comparison); [done|].
    symmetry. induction H as [|c l Hc Hl IH]; [done|].
    rewrite filter_cons_False by congruence. done.
Qed.

(** C2, as amended. With a key that is not empty, scoring returns, and for
    each question 1..total_questions it records the expected and the detected
    token with the status: blank when the detected token is empty, correct
    when it is the very string of the key (the case of letters counts), and
    incorrect otherwise; the three counters count these statuses.  A sheet
    without marks then scores no correct answer, total_questions blanks and
    a percentage of zero. *)
Theorem calculate_score_classifies (self : SimpleHybridDemo)
    (detected_answers : gmap (list N) (list N)) :
  size (answer_key self) <> 0%nat ->
  let total := Z.of_nat (size (answer_key self)) in
  (exists r,
      calculate_score self detected_answers = Returns r
      /\ detailed_comparison r =
           map (fun q =>
                  let expected := default [] (answer_key self !! str_of_int q) in
                  let token := default [] (detected_answers !! str_of_int q) in
                  {| question := q; correct := expected; detected := token;
                     status_of :=
                       if decide (token = []) then Blank
                       else if decide (token = expected) then Correct
                       else Incorrect |})
               (seqZ 1 total)
      /\ total_questions (summary r) = total
      /\ correct_count (summary r) = count_status Correct (detailed_comparison r)
      /\ incorrect_count (summary r) =
           count_status Incorrect (detailed_comparison r)
      /\ blank_count (summary r) = count_status Blank (detailed_comparison r))
  /\ (forall detected_bubbles : gmap (list N) (list (Z * Z)),
        default [] (detected_bubbles !! lit "bubbles") = [] ->
        exists r,
          calculate_score self (convert_bubbles_to_answers detected_bubbles)
            = Returns r
          /\ correct_count (summary r) = 0
          /\ incorrect_count (summary r) = 0
          /\ blank_count (summary r) = total
          /\ total_questions (summary r) = total
          /\ (score_percentage (summary r) == 0)%Q).
Proof.
  intros Hsize total.
  assert ((total =? 0) = false) as Htotal by (apply Z.eqb_neq; lia).
  assert (forall detected, exists r,
      calculate_score self detected = Returns r
      /\ detailed_comparison r = map (compare_question self detected) (seqZ 1 total)
      /\ total_questions (summary r) = total
      /\ correct_count (summary r) = count_status Correct (detailed_comparison r)
      /\ incorrect_count (summary r) =
           count_status Incorrect (detailed_comparison r)
      /\ blank_count (summary r) = count_status Blank (detailed_comparison r)
      /\ (score_percentage (summary r) ==
            inject_Z (correct_count (summary r)) / inject_Z total * 100)%Q)
    as Hrun.
  { intros detected. unfold calculate_score. fold total. rewrite Htotal.
    eexists. split; [reflexivity|]. simpl.
    destruct (foldl_score_question self detected (seqZ 1 total)
                {| t_correct := 0; t_incorrect := 0; t_blank := 0;
                   t_answers := ∅; t_comparison := [] |})
      as (Hc & H1 & H2 & H3).
    simpl in *. rewrite Hc, H1, H2, H3.
    repeat split; try done. }
  split.
  - destruct (Hrun detected_answers) as (r & Hr & Hc & Ht & H1 & H2 & H3 & _).
    exists r. repeat split; try done.
    rewrite Hc. apply map_ext. intros q. unfold compare_question. simpl.
    by rewrite classify_cases.
  - intros detected_bubbles Hnone.
    rewrite (convert_no_bubbles _ Hnone).
    destruct (Hrun ∅) as (r & Hr & Hc & Ht & H1 & H2 & H3 & Hp).
    exists r. split; [done|].
    assert (Forall (fun c => status_of c = Blank) (detailed_comparison r))
      as Hall.
    { rewrite Hc. apply Forall_map, Forall_forall. intros q _.
      unfold compare_question; simpl. by rewrite lookup_empty. }
    destruct (count_status_all _ _ Hall) as [Hb Hothers].
    rewrite H1, H2, H3, Hb, !Hothers by done.
    assert (correct_count (summary r) = 0) as H0
      by (rewrite H1; by apply Hothers).
    repeat split; try done.
    + rewrite Hc, length_map, length_seqZ. lia.
    + rewrite Hp, H0. unfold Qdiv. by rewrite !Qmult_0_l.
Qed.

Lemma calculate_score_classifies_witness :
  size (answer_key init) <> 0%nat
  /\ exists r,
       calculate_score init (convert_bubbles_to_answers ∅) = Returns r
       /\ correct_count (summary r) = 0
       /\ incorrect_count (summary r) = 0
       /\ blank_count (summary r) = 15
       /\ total_questions (summary r) = 15
       /\ (score_percentage (summary r) == 0)%Q.
Proof.
  assert (size (answer_key init) <> 0%nat) as H by (vm_compute; lia).
  split; [exact H|].
  exact (proj2 (calculate_score_classifies init ∅ H) ∅ eq_refl).
Defined.

(** C2, as stated, fails: against the expected token "A" the detected
    token "a" is scored incorrect, although the two are equal when the case
    of letters is ignored. *)
Lemma calculate_score_case_counterexample :
  spec_equal_ignoring_case (lit "a") (lit "A") = true
  /\ (detailed_comparison <$>
        match calculate_score {| answer_key := {[ lit "1" := lit "A" ]} |}
                              {[ lit "1" := lit "a" ]} with
        | Returns r => Some r
        | Raises _ => None
        end)
     = Some [ {| question := 1; correct := lit "A"; detected := lit "a";
                 status_of := Incorrect |} ].
Proof. by vm_compute. Qed.

End SimpleDemoFacts.

(** ** Calibration *)

Module CalibratePositionsFacts.
Import CalibratePositions.

(** *** Minimum and maximum *)

Lemma min_of_spec (a : Z) (l : list Z) :
  min_of a l ∈ a :: l /\ forall x, x ∈ a :: l -> min_of a l <= x.
Proof.
  unfold min_of. revert a. induction l as [|b l IH]; intros a; simpl.
  - split; [by left|]. intros x Hx. apply list_elem_of_singleton in Hx. lia.
  - destruct (IH (Z.min a b)) as [Hin Hle]. split.
    + apply elem_of_cons in Hin as [Heq|Hin].
      * rewrite Heq. destruct (Z.min_spec a b) as [[_ ->]|[_ ->]].
        -- by left.
        -- right; by left.
      * right; by right.
    + intros x Hx.
      assert (foldl Z.min (Z.min a b) l <= Z.min a b) as Hm
        by (apply Hle; by left).
      apply elem_of_cons in Hx as [->|Hx]; [lia|].
      apply elem_of_cons in Hx as [->|Hx]; [lia|].
      apply Hle. by right.
Qed.

Lemma max_of_spec (a : Z) (l : list Z) :
  max_of a l ∈ a :: l /\ forall x, x ∈ a :: l -> x <= max_of a l.
Proof.
  unfold max_of. revert a. induction l as [|b l IH]; intros a; simpl.
  - split; [by left|]. intros x Hx. apply list_elem_of_singleton in Hx. lia.
  - destruct (IH (Z.max a b)) as [Hin Hle]. split.
    + apply elem_of_cons in Hin as [Heq|Hin].
      * rewrite Heq. destruct (Z.max_spec a b) as [[_ ->]|[_ ->]].
        -- right; by left.
        -- by left.
      * right; by right.
    + intros x Hx.
      assert (Z.max a b <= foldl Z.max (Z.max a b) l) as Hm
        by (apply Hle; by left).
      apply elem_of_cons in Hx as [->|Hx]; [lia|].
      apply elem_of_cons in Hx as [->|Hx]; [lia|].
      apply Hle. by right.
Qed.

(** *** The boundaries *)

(** The analysis lists one boundary per column, thirteen in all. *)
Lemma boundary_values_analyze data first others :
  let a := analyze_positions data first others in
  boundary_values a =
    map (boundary_at (fst (x_coordinate_range a)) (column_width a))
        (seqZ 0 13).
Proof. reflexivity. Qed.

Lemma boundary_values_lookup data first others (i : nat) (b : Q) :
  let a := analyze_positions data first others in
  boundary_values a !! i = Some b ->
  (i < 13)%nat
  /\ b = boundary_at (fst (x_coordinate_range a)) (column_width a) (Z.of_nat i).
Proof.
  intros a. unfold a at 1. rewrite boundary_values_analyze.
  fold a. rewrite list_lookup_fmap. intros H.
  destruct (seqZ 0 13 !! i) as [k|] eqn:E; [|discriminate].
  apply lookup_seqZ in E as [-> Hi]. simpl in H. injection H as <-.
  split; [lia|]. f_equal.
Qed.

Lemma column_width_positive (x_min x_max : Z) :
  x_min < x_max -> (0 < inject_Z (x_max - x_min) / inject_Z (13 - 1))%Q.
Proof.
  intros H. unfold Qlt, Qdiv, Qmult, Qinv, inject_Z; simpl. lia.
Qed.

Lemma boundary_at_increasing (x_min : Z) (w : Q) (i j : Z) :
  (0 < w)%Q -> i < j -> (boundary_at x_min w i < boundary_at x_min w j)%Q.
Proof.
  intros Hw Hij. unfold boundary_at.
  apply Qplus_lt_r. apply Qmult_lt_compat_r; [exact Hw|].
  apply Qplus_lt_l. by rewrite <- Zlt_Qlt.
Qed.

Lemma boundary_at_flat (x_min : Z) (w : Q) (i : Z) :
  (w == 0)%Q -> (boundary_at x_min w i == inject_Z x_min)%Q.
Proof.
  intros Hw. unfold boundary_at. rewrite Hw. ring.
Qed.

(** C3, as amended. For every sample of marks that is not empty, with
    minimum x_min and maximum x_max of the x coordinates, calibration takes
    column_width = (x_max - x_min) / (13 - 1) and lists one boundary for each
    of the thirteen columns, boundary[i] = x_min + (i + 0.5) * column_width
    for i in 0..12.  The boundaries increase strictly when x_min < x_max;
    when x_min = x_max they all equal x_min. *)
Theorem analyze_numeric_positions_boundaries
    (data : list sheet) (first : Z * Z) (others : list (Z * Z)) :
  all_positions_of data = first :: others ->
  exists (a : analysis) (x_min x_max : Z),
    analyze_numeric_positions (Returns data) = Returns (Some a)
    /\ x_coordinate_range a = (x_min, x_max)
    /\ x_min ∈ map fst (all_positions_of data)
    /\ x_max ∈ map fst (all_positions_of data)
    /\ (forall x, x ∈ map fst (all_positions_of data) -> x_min <= x <= x_max)
    /\ (column_width a == inject_Z (x_max - x_min) / 12)%Q
    /\ length (boundary_values a) = 13%nat
    /\ (forall (i : nat) (b : Q),
          boundary_values a !! i = Some b ->
          (b == inject_Z x_min
                + (inject_Z (Z.of_nat i) + 0.5) * column_width a)%Q)
    /\ (x_min < x_max ->
        forall (i j : nat) (b c : Q),
          (i < j)%nat ->
          boundary_values a !! i = Some b ->
          boundary_values a !! j = Some c -> (b < c)%Q)
    /\ (x_min = x_max ->
        forall (i : nat) (b : Q),
          boundary_values a !! i = Some b -> (b == inject_Z x_min)%Q).
Proof.
  intros Hpos.
  set (a := analyze_positions data first others).
  exists a, (min_of (fst first) (map fst others)),
         (max_of (fst first) (map fst others)).
  destruct (min_of_spec (fst first) (map fst others)) as [Hmin_in Hmin].
  destruct (max_of_spec (fst first) (map fst others)) as [Hmax_in Hmax].
  rewrite Hpos. change (map fst (first :: others)) with (fst first :: map fst others).
  split; [|split; [|split; [|split; [|split; [|split; [|split; [|split; [|split]]]]]]]].
  - unfold analyze_numeric_positions; simpl. by rewrite Hpos.
  - reflexivity.
  - exact Hmin_in.
  - exact Hmax_in.
  - intros x Hx. split; [by apply Hmin|by apply Hmax].
  - reflexivity.
  - reflexivity.
  - intros i b Hb. apply boundary_values_lookup in Hb as [_ ->]. reflexivity.
  - intros Hlt i j b c Hij Hb Hc.
    apply boundary_values_lookup in Hb as [_ ->].
    apply boundary_values_lookup in Hc as [_ ->].
    apply boundary_at_increasing; [|lia].
    by apply column_width_positive.
  - intros Heq i b Hb.
    apply boundary_values_lookup in Hb as [_ ->].
    apply boundary_at_flat. simpl.
    rewrite Heq, Z.sub_diag. reflexivity.
Qed.

Lemma analyze_numeric_positions_boundaries_witness :
  all_positions_of two_marks = [(0, 40); (1200, 140)]
  /\ exists (a : analysis) (x_min x_max : Z),
    analyze_numeric_positions (Returns two_marks) = Returns (Some a)
    /\ x_coordinate_range a = (x_min, x_max)
    /\ x_min ∈ map fst (all_positions_of two_marks)
    /\ x_max ∈ map fst (all_positions_of two_marks)
    /\ (forall x, x ∈ map fst (all_positions_of two_marks) ->
                  x_min <= x <= x_max)
    /\ (column_width a == inject_Z (x_max - x_min) / 12)%Q
    /\ length (boundary_values a) = 13%nat
    /\ (forall (i : nat) (b : Q),
          boundary_values a !! i = Some b ->
          (b == inject_Z x_min
                + (inject_Z (Z.of_nat i) + 0.5) * column_width a)%Q)
    /\ (x_min < x_max ->
        forall (i j : nat) (b c : Q),
          (i < j)%nat ->
          boundary_values a !! i = Some b ->
          boundary_values a !! j = Some c -> (b < c)%Q)
    /\ (x_min = x_max ->
        forall (i : nat) (b : Q),
          boundary_values a !! i = Some b -> (b == inject_Z x_min)%Q).
Proof.
  split; [reflexivity|].
  exact (analyze_numeric_positions_boundaries
           two_marks (0, 40) [(1200, 140)] eq_refl).
Defined.

(** C3, as stated, fails on the sample of one mark: calibration lists
    thirteen boundaries, not twelve, among them one at index 12, and all of
    them equal 5, so the sequence does not increase strictly. *)
Lemma analyze_numeric_positions_boundaries_counterexample :
  match analyze_numeric_positions (Returns one_mark) with
  | Returns (Some a) =>
      length (boundary_values a) = 13%nat
      /\ is_Some (boundary_values a !! 12%nat)
      /\ Forall (fun b => (b == 5)%Q) (boundary_values a)
      /\ ~ (nth 0 (boundary_values a) 0 < nth 1 (boundary_values a) 0)%Q
  | _ => False
  end.
Proof.
  vm_compute. split; [reflexivity|]. split; [by eexists|]. split.
  - repeat (constructor; [reflexivity|]). constructor.
  - intros H. discriminate H.
Qed.

(** *** The mapping of ranges *)

(** C4 at the range [0, 1300]: every column is 100 wide; 150 lies in the
    column of "-" alone and 1250 in the column of "9" alone; 50 lies in the
    first column, whose label is the two characters U+00AC U+00B1 of the
    source and not the sign U+00B1, which labels no column. *)
Theorem generate_numeric_mapping_0_1300 :
  let mapping := generate_numeric_mapping 0 1300 in
  map fst mapping = labels
  /\ Forall (fun entry =>
               (snd (snd entry) - fst (snd entry) == 100)%Q) mapping
  /\ labels_at mapping 150 = [lit "-"]
  /\ labels_at mapping 1250 = [lit "9"]
  /\ labels_at mapping 50 = [[not_sign; plus_minus]]
  /\ [plus_minus] ∉ map fst mapping.
Proof.
  split; [reflexivity|]. split; [|split; [|split; [|split]]].
  - vm_compute. repeat (constructor; [reflexivity|]). constructor.
  - reflexivity.
  - reflexivity.
  - reflexivity.
  - intros H. vm_compute in H.
    repeat (apply elem_of_cons in H as [H|H]; [discriminate H|]).
    by apply elem_of_nil in H.
Qed.

(** *** No samples *)

(** Whatever the loading gives, the analysis returns: nothing that is raised
    inside gets out. *)
Lemma analyze_numeric_positions_returns (loaded : outcome (list sheet)) :
  exists r, analyze_numeric_positions loaded = Returns r.
Proof.
  unfold analyze_numeric_positions.
  destruct loaded as [data|e]; simpl; [|by eexists].
  destruct (all_positions_of data); by eexists.
Qed.

(** C7, as amended. Given no mark positions, the analysis returns the empty
    dictionary and raises nothing; the calibration then reports the failure
    and returns nothing, without drawing a chart. *)
Theorem analyze_numeric_positions_no_samples (data : list sheet)
    (create_position_visualization : analysis -> outcome (list N)) :
  all_positions_of data = [] ->
  analyze_numeric_positions (Returns data) = Returns None
  /\ calibrate_numeric_positions create_position_visualization (Returns data)
     = Returns None.
Proof.
  intros H. unfold calibrate_numeric_positions, analyze_numeric_positions.
  simpl. by rewrite H.
Qed.

Lemma analyze_numeric_positions_no_samples_witness :
  all_positions_of [ {| detected_answers := Some [] |} ] = []
  /\ analyze_numeric_positions
       (Returns [ {| detected_answers := Some [] |} ]) = Returns None
  /\ calibrate_numeric_positions (fun _ => Returns (lit "chart.png"))
       (Returns [ {| detected_answers := Some [] |} ]) = Returns None.
Proof.
  split; [reflexivity|].
  exact (analyze_numeric_positions_no_samples
           [ {| detected_answers := Some [] |} ]
           (fun _ => Returns (lit "chart.png")) eq_refl).
Defined.

(** C7, as stated, fails: on an empty collection of positions the analysis
    returns normally, with the empty dictionary; it raises no error. *)
Lemma analyze_numeric_positions_no_samples_counterexample :
  all_positions_of [] = []
  /\ analyze_numeric_positions (Returns []) = Returns None
  /\ match analyze_numeric_positions (Returns []) with
     | Returns _ => True
     | Raises _ => False
     end.
Proof. repeat split. Qed.

End CalibratePositionsFacts.

(** ** Batch processing *)

Module BatchFacts.

(** A loop whose body always returns, returns the list of its results. *)
Lemma mapM_returns {A B} (f : A -> outcome B) (g : A -> B) (l : list A) :
  (forall x, f x = Returns (g x)) -> mapM f l = Returns (map g l).
Proof.
  intros Hf. induction l as [|x l IH]; [reflexivity|].
  simpl. rewrite Hf, IH. reflexivity.
Qed.

Lemma try_except_returns {A} (body : outcome A) (h : exception -> A) :
  try_except body (fun e => mret (h e)) =
    Returns (match body with Returns a => a | Raises e => h e end).
Proof. by destruct body. Qed.

Lemma length_filter_map {A B} (P : B -> bool) (g : A -> B) (l : list A) :
  length (filter (fun b => P b = true) (map g l)) =
  length (filter (fun a => P (g a) = true) l).
Proof.
  induction l as [|a l IH]; [reflexivity|]. simpl map.
  destruct (P (g a)) eqn:E.
  - rewrite !filter_cons_True by done. simpl. by rewrite IH.
  - rewrite !filter_cons_False by congruence. done.
Qed.

Section Batch.
Import HybridScorer.

Variable c_output : Type.
Variable score : Type.
Variable detect_bubbles_c : list N -> list N -> outcome c_output.
Variable detect_bubbles_python_fallback :
  list N -> outcome (gmap (list N) (list (Z * Z))).
Variable calculate_sheet_score : sheet_data -> outcome score.
Variable detect_bubbles_simple :
  list N -> outcome (gmap (list N) (list (Z * Z))).

Let single :=
  process_single_image c_output score detect_bubbles_c
    detect_bubbles_python_fallback calculate_sheet_score.
Let batch :=
  process_batch c_output score detect_bubbles_c
    detect_bubbles_python_fallback calculate_sheet_score.

Lemma process_batch_entries image_files answer_key :
  batch image_files answer_key =
    Returns (map (fun img =>
                    match single img answer_key with
                    | Returns r => r
                    | Raises e => Failed img e (lit "failed")
                    end) image_files).
Proof.
  unfold batch, process_batch. apply mapM_returns.
  intros img. unfold single.
  by destruct (process_single_image _ _ _ _ _ img answer_key).
Qed.

(** What [process_single_image] returns is never a failure record. *)
Lemma process_single_image_scored img answer_key r :
  single img answer_key = Returns r -> is_failed r = false.
Proof.
  unfold single, process_single_image.
  destruct (detect_bubbles_c _ _) as [c|e]; simpl.
  - unfold score_with_answers. destruct (calculate_sheet_score _); simpl;
      [|discriminate]. by intros [= <-].
  - destruct (detect_bubbles_python_fallback _); simpl; [|discriminate].
    unfold score_with_answers. destruct (calculate_sheet_score _); simpl;
      [|discriminate]. by intros [= <-].
Qed.

Lemma entry_failed_iff_raised answer_key img :
  is_failed (match single img answer_key with
             | Returns r => r
             | Raises e => Failed img e (lit "failed")
             end) = raised (single img answer_key).
Proof.
  destruct (single img answer_key) eqn:E; [|done].
  simpl. by eapply process_single_image_scored.
Qed.

(** The demo: [process_single_image] turns whatever is raised by the
    detection or by the scoring into a failure record. *)
Lemma simple_process_single_image_returns self img :
  SimpleDemo.process_single_image detect_bubbles_simple self img =
    Returns
      match detect_bubbles_simple img with
      | Raises e => SimpleDemo.Failed img e (lit "failed")
      | Returns detected =>
          match SimpleDemo.calculate_score self
                  (SimpleDemo.convert_bubbles_to_answers detected) with
          | Raises e => SimpleDemo.Failed img e (lit "failed")
          | Returns r => SimpleDemo.Scored r img (lit "Python OpenCV")
          end
      end.
Proof.
  unfold SimpleDemo.process_single_image.
  destruct (detect_bubbles_simple img) as [d|e]; simpl; [|done].
  by destruct (SimpleDemo.calculate_score _ _).
Qed.

(** The hybrid scorer on one image, case by case. *)
Lemma process_single_image_cases img answer_key :
  single img answer_key =
    match detect_bubbles_c img (lit "results/c_output") with
    | Returns c =>
        match calculate_sheet_score
                {| detected_answers := {[ lit "detected_bubbles" := [] ]};
                   filename := lit "hybrid_processed" |} with
        | Returns r => Returns (Scored r (lit "C-based") img)
        | Raises e => Raises e
        end
    | Raises _ =>
        match detect_bubbles_python_fallback img with
        | Returns bubbles =>
            match calculate_sheet_score
                    {| detected_answers := bubbles;
                       filename := lit "hybrid_processed" |} with
            | Returns r => Returns (Scored r (lit "Python fallback") img)
            | Raises e => Raises e
            end
        | Raises e => Raises e
        end
    end.
Proof.
  unfold single, process_single_image, score_with_answers,
    convert_to_python_format.
  destruct (detect_bubbles_c _ _) as [c|e]; simpl.
  - by destruct (calculate_sheet_score _).
  - destruct (detect_bubbles_python_fallback _) as [bubbles|e']; simpl;
      [|done].
    by destruct (calculate_sheet_score _).
Qed.

(** The entry that the demo makes of one image. *)
Let demo_entry (self : SimpleDemo.SimpleHybridDemo) (img : list N)
  : SimpleDemo.entry :=
  match detect_bubbles_simple img with
  | Raises e => SimpleDemo.Failed img e (lit "failed")
  | Returns detected =>
      match SimpleDemo.calculate_score self
              (SimpleDemo.convert_bubbles_to_answers detected) with
      | Raises e => SimpleDemo.Failed img e (lit "failed")
      | Returns r => SimpleDemo.Scored r img (lit "Python OpenCV")
      end
  end.

Lemma demo_entry_failed self img :
  SimpleDemo.is_failed (demo_entry self img)
  = raised (detected ← detect_bubbles_simple img;
            SimpleDemo.calculate_score self
              (SimpleDemo.convert_bubbles_to_answers detected)).
Proof.
  unfold demo_entry.
  destruct (detect_bubbles_simple img) as [d|e]; simpl; [|done].
  by destruct (SimpleDemo.calculate_score _ _).
Qed.

(** C8. For every batch, [process_batch] returns, with one entry per image
    in the order of the images: the results of the image when its
    processing returns, and a failure record with the path of the image and
    the error when it raises; the images after a failed one are processed
    all the same.  So the failure records are as many as the images that
    fail and the scored entries as many as those that succeed; two valid
    sheets around a malformed one give two scored results and one recorded
    failure.  Processing one image gives the results of the backend with
    the detection method, "C-based" on the placeholder bubbles when the C
    detection returns and "Python fallback" on the bubbles of the fallback
    when it raises, and the path of the image; it raises what the fallback
    or the backend raises.  In the demo, processing a single image always
    returns: the score of the answers converted from the detected bubbles,
    with the path of the image and the method "Python OpenCV", or a failure
    record with the path and the error when the detection or the scoring
    raises; its batch returns these entries, one per image in order. *)
Theorem process_batch_isolates_failures
    (image_files : list (list N)) (answer_key : gmap (list N) (list N))
    (self : SimpleDemo.SimpleHybridDemo) :
  (exists results,
      batch image_files answer_key = Returns results
      /\ length results = length image_files
      /\ (forall (i : nat) (img : list N),
            image_files !! i = Some img ->
            results !! i =
              Some match single img answer_key with
                   | Returns r => r
                   | Raises e => Failed img e (lit "failed")
                   end)
      /\ length (filter (fun e => is_failed e = true) results) =
         length (filter (fun img => raised (single img answer_key) = true)
                        image_files)
      /\ length (filter (fun e => is_failed e = false) results) =
         length (filter (fun img => raised (single img answer_key) = false)
                        image_files))
  /\ (forall (img1 img2 img3 : list N) (r1 r2 : entry score) (e3 : exception),
        single img1 answer_key = Returns r1 ->
        single img2 answer_key = Returns r2 ->
        single img3 answer_key = Raises e3 ->
        batch [img1; img3; img2] answer_key =
          Returns [r1; Failed img3 e3 (lit "failed"); r2]
        /\ is_failed r1 = false /\ is_failed r2 = false)
  /\ (forall img : list N,
        (forall c r,
            detect_bubbles_c img (lit "results/c_output") = Returns c ->
            calculate_sheet_score
              {| detected_answers := {[ lit "detected_bubbles" := [] ]};
                 filename := lit "hybrid_processed" |} = Returns r ->
            single img answer_key = Returns (Scored r (lit "C-based") img))
        /\ (forall c e,
              detect_bubbles_c img (lit "results/c_output") = Returns c ->
              calculate_sheet_score
                {| detected_answers := {[ lit "detected_bubbles" := [] ]};
                   filename := lit "hybrid_processed" |} = Raises e ->
              single img answer_key = Raises e)
        /\ (forall e bubbles r,
              detect_bubbles_c img (lit "results/c_output") = Raises e ->
              detect_bubbles_python_fallback img = Returns bubbles ->
              calculate_sheet_score
                {| detected_answers := bubbles;
                   filename := lit "hybrid_processed" |} = Returns r ->
              single img answer_key
              = Returns (Scored r (lit "Python fallback") img))
        /\ (forall e bubbles e',
              detect_bubbles_c img (lit "results/c_output") = Raises e ->
              detect_bubbles_python_fallback img = Returns bubbles ->
              calculate_sheet_score
                {| detected_answers := bubbles;
                   filename := lit "hybrid_processed" |} = Raises e' ->
              single img answer_key = Raises e')
        /\ (forall e e',
              detect_bubbles_c img (lit "results/c_output") = Raises e ->
              detect_bubbles_python_fallback img = Raises e' ->
              single img answer_key = Raises e'))
  /\ (forall img : list N,
        (forall e,
            detect_bubbles_simple img = Raises e ->
            SimpleDemo.process_single_image detect_bubbles_simple self img
            = Returns (SimpleDemo.Failed img e (lit "failed")))
        /\ (forall detected e,
              detect_bubbles_simple img = Returns detected ->
              SimpleDemo.calculate_score self
                (SimpleDemo.convert_bubbles_to_answers detected) = Raises e ->
              SimpleDemo.process_single_image detect_bubbles_simple self img
              = Returns (SimpleDemo.Failed img e (lit "failed")))
        /\ (forall detected r,
              detect_bubbles_simple img = Returns detected ->
              SimpleDemo.calculate_score self
                (SimpleDemo.convert_bubbles_to_answers detected) = Returns r ->
              SimpleDemo.process_single_image detect_bubbles_simple self img
              = Returns (SimpleDemo.Scored r img (lit "Python OpenCV"))))
  /\ (exists results,
        SimpleDemo.process_batch detect_bubbles_simple self image_files
          = Returns results
        /\ length results = length image_files
        /\ (forall (i : nat) (img : list N),
              image_files !! i = Some img ->
              exists e,
                SimpleDemo.process_single_image detect_bubbles_simple self img
                  = Returns e
                /\ results !! i = Some e)
        /\ length (filter (fun e => SimpleDemo.is_failed e = true) results) =
           length (filter
                     (fun img =>
                        raised (detected ← detect_bubbles_simple img;
                                SimpleDemo.calculate_score self
                                  (SimpleDemo.convert_bubbles_to_answers
                                     detected)) = true)
                     image_files)).
Proof.
  split; [|split; [|split; [|split]]].
  - eexists. split; [apply process_batch_entries|].
    split; [by rewrite length_map|]. split; [|split].
    + intros i img Hi. by rewrite list_lookup_fmap, Hi.
    + rewrite (length_filter_map is_failed).
      f_equal. apply list_filter_iff. intros img.
      by rewrite entry_failed_iff_raised.
    + induction image_files as [|img l IH]; [done|].
      cbn [map]. pose proof (entry_failed_iff_raised answer_key img) as Hf.
      destruct (raised (single img answer_key)) eqn:E.
      * do 2 rewrite filter_cons_False by (cbv beta; congruence). exact IH.
      * do 2 rewrite filter_cons_True by (cbv beta; congruence).
        cbn [length]. by rewrite IH.
  - intros img1 img2 img3 r1 r2 e3 H1 H2 H3.
    rewrite process_batch_entries. simpl. rewrite H1, H2, H3.
    split; [done|].
    split; by eapply process_single_image_scored.
  - intros img. rewrite process_single_image_cases.
    split; [by intros c r -> ->|]. split; [by intros c e -> ->|].
    split; [by intros e bubbles r -> -> ->|].
    split; [by intros e bubbles e' -> -> ->|]. by intros e e' -> ->.
  - intros img. rewrite simple_process_single_image_returns.
    split; [by intros e ->|]. split; [by intros d e -> ->|].
    by intros d r -> ->.
  - exists (map (demo_entry self) image_files).
    split; [|split; [by rewrite length_map|split]].
    + unfold SimpleDemo.process_batch. apply mapM_returns.
      intros img. apply simple_process_single_image_returns.
    + intros i img Hi. exists (demo_entry self img).
      split; [apply simple_process_single_image_returns|].
      by rewrite list_lookup_fmap, Hi.
    + rewrite (length_filter_map SimpleDemo.is_failed).
      f_equal. apply list_filter_iff. intros img.
      by rewrite demo_entry_failed.
Qed.

End Batch.

Lemma process_batch_isolates_failures_witness :
  HybridScorer.process_batch unit Z HybridScorer.sample_detect_bubbles_c
    HybridScorer.sample_fallback HybridScorer.sample_backend
    [lit "a.png"; lit "c.png"; lit "b.png"] ∅
  = Returns
      [ HybridScorer.Scored 1 (lit "Python fallback") (lit "a.png");
        HybridScorer.Failed (lit "c.png")
          (Exc "ValueError" (Some (lit "Could not load image: c.png")))
          (lit "failed");
        HybridScorer.Scored 1 (lit "Python fallback") (lit "b.png") ]
  /\ SimpleDemo.process_single_image HybridScorer.sample_fallback
       SimpleDemo.init (lit "c.png")
     = Returns
         (SimpleDemo.Failed (lit "c.png")
            (Exc "ValueError" (Some (lit "Could not load image: c.png")))
            (lit "failed"))
  /\ exists results,
       SimpleDemo.process_batch HybridScorer.sample_fallback SimpleDemo.init
         [lit "a.png"; lit "c.png"; lit "b.png"] = Returns results
       /\ length results = 3%nat
       /\ length (filter (fun e => SimpleDemo.is_failed e = true) results)
          = 1%nat.
Proof.
  pose proof (process_batch_isolates_failures unit Z
                HybridScorer.sample_detect_bubbles_c
                HybridScorer.sample_fallback HybridScorer.sample_backend
                HybridScorer.sample_fallback
                [lit "a.png"; lit "c.png"; lit "b.png"] ∅ SimpleDemo.init)
    as (_ & Hmixed & _ & Hdemo & results & Hrun & Hlen & _ & Hfailed).
  split; [|split].
  - refine (proj1 (Hmixed (lit "a.png") (lit "b.png") (lit "c.png")
                     _ _ _ _ _ _)); reflexivity.
  - exact (proj1 (Hdemo (lit "c.png")) _ eq_refl).
  - exists results. split; [exact Hrun|]. split; [exact Hlen|].
    exact Hfailed.
Defined.

End BatchFacts.

(** ** Configuration conversion *)

Module ConfigConverterFacts.
Import ConfigConverter.

(** *** The answer key built from the answer list *)

Lemma answer_key_fold (l : list (list N)) (start : Z)
    (key : gmap (list N) (list N)) :
  (forall j, start <= j -> key !! str_of_int j = None) ->
  let key' :=
    foldl (fun key '(i, answer) => <[str_of_int i := clean_answer answer]> key)
          key (enumerate_from start l) in
  size key' = (size key + length l)%nat
  /\ (forall (k : nat) (a : list N),
        l !! k = Some a ->
        key' !! str_of_int (start + Z.of_nat k) = Some (clean_answer a))
  /\ (forall j, j < start -> key' !! str_of_int j = key !! str_of_int j)
  /\ (forall j, start + Z.of_nat (length l) <= j ->
                key' !! str_of_int j = None).
Proof.
  revert start key. induction l as [|a l IH]; intros start key Hfree; simpl.
  - repeat split; [lia|by intros ? ? ?|].
    intros j Hj. apply Hfree. lia.
  - set (key1 := <[str_of_int start := clean_answer a]> key).
    assert (forall j, start + 1 <= j -> key1 !! str_of_int j = None) as Hfree1.
    { intros j Hj. unfold key1. rewrite lookup_insert_ne.
      - apply Hfree; lia.
      - intros Heq. apply (inj str_of_int) in Heq. lia. }
    destruct (IH (start + 1) key1 Hfree1) as (Hsize & Hget & Hkeep & Hnone).
    split; [|split; [|split]].
    + rewrite Hsize. unfold key1.
      rewrite map_size_insert_None by (apply Hfree; lia). lia.
    + intros [|k] b Hb; simpl in Hb.
      * injection Hb as <-. rewrite Z.add_0_r, Hkeep by lia.
        unfold key1. by rewrite lookup_insert_eq.
      * replace (start + Z.of_nat (S k)) with (start + 1 + Z.of_nat k) by lia.
        by apply Hget.
    + intros j Hj. rewrite Hkeep by lia. unfold key1.
      rewrite lookup_insert_ne; [done|].
      intros Heq. apply (inj str_of_int) in Heq. lia.
    + intros j Hj. apply Hnone. lia.
Qed.

(** Reading the key back in the order 1..n gives the answers of the list,
    each as the round trip returns it. *)
Lemma padded_answers_of_list (l : list (list N)) :
  let key := answer_key_of_list l in
  map (padded_answer key) (seqZ 1 (Z.of_nat (size key))) =
    map returned_answer l.
Proof.
  intros key.
  destruct (answer_key_fold l 1 ∅) as (Hsize & Hget & _ & _);
    [by intros; apply lookup_empty|].
  fold (answer_key_of_list l) in Hsize, Hget. fold key in Hsize, Hget.
  rewrite map_size_empty in Hsize. simpl in Hsize. rewrite Hsize.
  apply list_eq. intros k. rewrite !list_lookup_fmap.
  destruct (l !! k) as [a|] eqn:E; simpl.
  - rewrite lookup_seqZ_lt by (apply lookup_lt_Some in E; lia). simpl.
    unfold padded_answer. by rewrite (Hget k a E).
  - rewrite lookup_seqZ_ge; [done|]. apply lookup_ge_None in E. lia.
Qed.

(** *** Answers that come back unchanged *)

Lemma rstrip_prefix (s : list N) : exists w, s = rstrip s ++ w.
Proof.
  induction s as [|c s [w IH]]; simpl; [by exists []|].
  destruct (rstrip s) as [|d r] eqn:E.
  - destruct (isspace c).
    + by exists (c :: s).
    + exists s. done.
  - exists w. simpl in *. by rewrite <- IH.
Qed.

Lemma replace_back (s : list N) :
  plus_minus ∉ s ->
  replace plus_minus [ampersand] (replace ampersand [plus_minus] s) = s.
Proof.
  unfold replace. induction s as [|c s IH]; intros Hs; [done|].
  apply not_elem_of_cons in Hs as [Hc Hs]. simpl.
  destruct (N.eqb_spec c ampersand) as [->|Hne]; simpl.
  - by rewrite IH.
  - destruct (N.eqb_spec c plus_minus) as [->|_]; [done|].
    simpl. by rewrite IH.
Qed.

Lemma returned_answer_canonical (a : list N) :
  canonical_answer a -> returned_answer a = a.
Proof.
  intros [Hpm Hpad]. unfold returned_answer, clean_answer.
  rewrite replace_back; [done|].
  destruct (rstrip_prefix a) as [w Hw]. intros Hin. apply Hpm.
  rewrite Hw. apply elem_of_app. by left.
Qed.

(** *** Strings *)

Lemma rstrip_idem (s : list N) : rstrip (rstrip s) = rstrip s.
Proof.
  induction s as [|c s IH]; [done|]. simpl.
  destruct (rstrip s) as [|d r] eqn:E.
  - destruct (isspace c) eqn:Ec; [done|]. simpl. by rewrite Ec.
  - change (rstrip (c :: d :: r))
      with (match rstrip (d :: r) with
            | [] => if isspace c then [] else [c]
            | d' :: r' => c :: d' :: r'
            end).
    by rewrite IH.
Qed.

Lemma rstrip_spaces (k : nat) : rstrip (repeat space k) = [].
Proof. induction k as [|k IH]; [done|]. simpl. by rewrite IH. Qed.

Lemma rstrip_fixed_tail (c : N) (t : list N) :
  rstrip (c :: t) = c :: t ->
  rstrip t = t /\ (t = [] -> isspace c = false).
Proof.
  simpl. destruct (rstrip t) as [|d r] eqn:E.
  - destruct (isspace c); [discriminate|]. intros [= <-]. done.
  - intros [= <-]. done.
Qed.

Lemma rstrip_app_spaces (t : list N) (k : nat) :
  rstrip t = t -> rstrip (t ++ repeat space k) = t.
Proof.
  induction t as [|c t IH]; intros H.
  - apply rstrip_spaces.
  - destruct (rstrip_fixed_tail c t H) as [Ht Hc].
    cbn [app rstrip]. rewrite (IH Ht).
    destruct t; [by rewrite Hc|done].
Qed.

Lemma replace_map (old new : N) (s : list N) :
  replace old [new] s = map (fun c => if (c =? old)%N then new else c) s.
Proof.
  unfold replace. induction s as [|c s IH]; [done|]. simpl.
  rewrite IH. by destruct (c =? old)%N.
Qed.

Lemma rstrip_replace (old new : N) (s : list N) :
  isspace old = false -> isspace new = false ->
  rstrip (replace old [new] s) = replace old [new] (rstrip s).
Proof.
  intros Hold Hnew. rewrite !replace_map.
  induction s as [|c s IH]; [done|]. cbn [map rstrip]. rewrite IH.
  assert (isspace (if (c =? old)%N then new else c) = isspace c) as Hc.
  { destruct (N.eqb_spec c old) as [->|_]; [by rewrite Hold, Hnew|done]. }
  destruct (rstrip s) as [|d r]; cbn [map].
  - rewrite Hc. by destruct (isspace c).
  - done.
Qed.

Lemma replace_removes (old new : N) (s : list N) :
  old <> new -> old ∉ replace old [new] s.
Proof.
  intros Hne. rewrite replace_map. intros Hin.
  apply list_elem_of_fmap in Hin as (c & Heq & _).
  destruct (N.eqb_spec c old); congruence.
Qed.

Lemma length_ljust (width : nat) (s : list N) :
  (width <= length (ljust width s))%nat.
Proof. unfold ljust. rewrite length_app, repeat_length. lia. Qed.

(** The answer of the Python key, written back for the C system and read
    again, is the answer of the Python key. *)
Lemma clean_answer_returned (a : list N) :
  clean_answer (returned_answer a) = clean_answer a.
Proof.
  unfold returned_answer, clean_answer, ljust.
  rewrite rstrip_app_spaces.
  - rewrite !replace_map, !map_map. apply map_ext. intros c.
    destruct (N.eqb_spec c ampersand) as [->|Hne]; [done|].
    destruct (N.eqb_spec c plus_minus) as [->|Hne']; [done|].
    destruct (N.eqb_spec c ampersand); [done|]. done.
  - rewrite !rstrip_replace by done. by rewrite rstrip_idem.
Qed.

Lemma returned_answer_is_canonical (a : list N) :
  canonical_answer (returned_answer a).
Proof.
  split.
  - unfold returned_answer, ljust. intros Hin.
    apply elem_of_app in Hin as [Hin|Hin].
    + by apply replace_removes in Hin.
    + apply list_elem_of_In, repeat_spec in Hin. discriminate Hin.
  - unfold returned_answer, ljust at 2. rewrite rstrip_app_spaces; [done|].
    unfold clean_answer. rewrite !rstrip_replace by done.
    by rewrite rstrip_idem.
Qed.

Lemma answer_key_of_list_returned (l : list (list N)) :
  answer_key_of_list (map returned_answer l) = answer_key_of_list l.
Proof.
  unfold answer_key_of_list.
  generalize (∅ : gmap (list N) (list N)) as key. generalize 1 as start.
  induction l as [|a l IH]; intros start key; [done|].
  cbn [map enumerate_from foldl]. by rewrite clean_answer_returned, IH.
Qed.

Lemma python_to_c_json_written (c : c_config) (p : python_config) :
  c_json_to_python_config c = Returns p ->
  exists l max symbols answers bias,
    python_to_c_json p
    = written_config l (lit "10 ") max symbols
        (map returned_answer answers) bias
        student_id_check subject_id_check
    /\ (forall subject_key subject_data more,
          Subjects c = Some ((subject_key, subject_data) :: more) ->
          answers = default [] (AnswerList subject_data)).
Proof.
  unfold c_json_to_python_config.
  assert (map (padded_answer ∅) (seqZ 1 (Z.of_nat (size (∅ : gmap (list N) (list N)))))
          = map returned_answer []) as Hempty.
  { by rewrite map_size_empty. }
  destruct (Formats c) as [[|f fs]|]; simpl; [discriminate| |];
    intros [= <-];
    (destruct (Subjects c) as [[|[k s] more]|]; simpl;
     unfold python_to_c_json; simpl;
     [rewrite Hempty|rewrite padded_answers_of_list|rewrite Hempty];
     eexists (Build_layout _ _ _ _ _ _ _ _ _ _ _ _ _ _), _, _, _, _;
     (split; [reflexivity|]); intros k' s' more'; intros [=]; by subst).
Qed.

Lemma round_trip_written (l : layout) (max : Z)
    (symbols answers : list (list N)) (bias : list Z) :
  Forall canonical_answer answers ->
  round_trip (written_config l (lit "10 ") max symbols answers bias
                student_id_check subject_id_check)
  = Returns (written_config l (lit "10 ") max symbols answers bias
               student_id_check subject_id_check).
Proof.
  intros Hcanon.
  unfold round_trip, c_json_to_python_config, python_to_c_json,
    written_config. simpl.
  rewrite padded_answers_of_list.
  replace (map returned_answer answers) with answers; [done|].
  induction Hcanon as [|a rest Ha _ IH]; [done|].
  simpl. by rewrite returned_answer_canonical, <- IH.
Qed.

(** *** The round trip *)

(** C9, as amended. The round trip from the C configuration to the Python
    configuration and back returns whenever the list of formats is not
    empty (a configuration without formats is read as one empty format),
    and raises an IndexError when it is empty.  What it returns has the
    written form: one format, with the check blocks and the [Primary]
    flags written from constants, and the one subject "10 ", whether the
    input has a subject or not.  Every layout parameter of paper, question
    and sheet is the one that the first format holds, or its default; the
    maximal score, the choices and the bias scores are those of the first
    subject, or their defaults; each answer of that subject comes back
    right-stripped, with the sign U+00B1 written "&", and padded with
    spaces to five characters; without a subject the answer list is empty.
    So the round trip is the identity exactly on the configurations of the
    written form whose answers are canonical. *)
Theorem round_trip_preserves (c : c_config) :
  (forall e, round_trip c = Raises e <-> e = IndexError /\ Formats c = Some [])
  /\ (Formats c <> Some [] ->
      exists (l : layout) (max : Z) (symbols answers : list (list N))
             (bias : list Z),
          round_trip c
          = Returns (written_config l (lit "10 ") max symbols answers bias
                       student_id_check subject_id_check)
          /\ layout_values l
             = zip_with default layout_defaults
                 (read_layout match Formats c with
                              | Some (f :: _) => f
                              | _ => empty_format
                              end)
          /\ (forall (subject_key : list N) (subject_data : c_subject)
                     (more : list (list N * c_subject)),
                Subjects c = Some ((subject_key, subject_data) :: more) ->
                max = default 100 (MaxScore subject_data)
                /\ symbols = default default_choices (Choices subject_data)
                /\ bias = default [] (BiasScore subject_data)
                /\ answers = map returned_answer
                               (default [] (AnswerList subject_data)))
          /\ (Subjects c = None \/ Subjects c = Some [] ->
              max = 100 /\ symbols = default_choices /\ bias = []
              /\ answers = []))
  /\ (round_trip c = Returns c
      <-> exists (l : layout) (max : Z) (symbols answers : list (list N))
                 (bias : list Z),
            c = written_config l (lit "10 ") max symbols answers bias
                  student_id_check subject_id_check
            /\ Forall canonical_answer answers).
Proof.
  split; [|split].
  - intros e. unfold round_trip, c_json_to_python_config.
    destruct (Formats c) as [[|f fs]|]; simpl.
    + split; [by intros [= <-]|by intros [-> _]].
    + split; [done|by intros [_ ?]].
    + split; [done|by intros [_ ?]].
  - intros Hf.
    assert (map (padded_answer ∅)
                (seqZ 1 (Z.of_nat (size (∅ : gmap (list N) (list N)))))
            = []) as Hempty by (by rewrite map_size_empty).
    unfold round_trip, c_json_to_python_config.
    destruct (Formats c) as [[|f others]|]; [done| |]; simpl;
    destruct (Subjects c) as [[|[k s] more]|] eqn:Es; simpl;
      unfold python_to_c_json; simpl;
      first [rewrite padded_answers_of_list|rewrite Hempty];
      eexists (Build_layout _ _ _ _ _ _ _ _ _ _ _ _ _ _), _, _, _, _;
      (split; [reflexivity|]); (split; [reflexivity|]).
    + split; [intros ? ? ? [=]|]. by intros _.
    + split; [by intros ? ? ? [= <- <- <-]|].
      by intros [?|?].
    + split; [intros ? ? ? [=]|]. by intros _.
    + split; [intros ? ? ? [=]|]. by intros _.
    + split; [by intros ? ? ? [= <- <- <-]|].
      by intros [?|?].
    + split; [intros ? ? ? [=]|]. by intros _.
  - split.
    + unfold round_trip.
      destruct (c_json_to_python_config c) as [p|e] eqn:E; simpl; [|done].
      intros [= Hc].
      destruct (python_to_c_json_written c p E)
        as (l & max & symbols & answers & bias & Hw & _).
      exists l, max, symbols, (map returned_answer answers), bias.
      split; [by rewrite <- Hc|].
      apply Forall_map, Forall_forall. intros a _.
      apply returned_answer_is_canonical.
    + intros (l & max & symbols & answers & bias & -> & Hcanon).
      by apply round_trip_written.
Qed.

Lemma sample_answers_canonical : Forall canonical_answer sample_answers.
Proof.
  unfold sample_answers.
  repeat (constructor;
          [split; [|reflexivity];
           intros H;
           repeat (apply elem_of_cons in H as [H|H]; [discriminate H|]);
           by apply elem_of_nil in H|]).
  constructor.
Qed.

Lemma round_trip_preserves_witness :
  round_trip (written_config default_layout (lit "10 ") 100 default_choices
                sample_answers [] student_id_check subject_id_check)
  = Returns (written_config default_layout (lit "10 ") 100 default_choices
               sample_answers [] student_id_check subject_id_check).
Proof.
  refine (proj2 (proj2 (proj2 (round_trip_preserves
                   (written_config default_layout (lit "10 ") 100
                      default_choices sample_answers []
                      student_id_check subject_id_check)))) _).
  exists default_layout, 100, default_choices, sample_answers, [].
  split; [reflexivity|exact sample_answers_canonical].
Defined.

(** C9, as stated, fails on well-formed configurations: a subject keyed
    "20 " comes back keyed "10 "; the answer "12" comes back padded to
    "12   "; and a student-id block placed at x = 200 comes back with the
    x = 189 of the converter. *)
Lemma round_trip_counterexample :
  (let c := written_config default_layout (lit "20 ") 100 default_choices
              sample_answers [] student_id_check subject_id_check in
   round_trip c =
     Returns (written_config default_layout (lit "10 ") 100 default_choices
                sample_answers [] student_id_check subject_id_check)
   /\ round_trip c <> Returns c)
  /\ (let c := written_config default_layout (lit "10 ") 100 default_choices
                 [lit "12"] [] student_id_check subject_id_check in
      round_trip c =
        Returns (written_config default_layout (lit "10 ") 100 default_choices
                   [lit "12   "] [] student_id_check subject_id_check)
      /\ round_trip c <> Returns c)
  /\ (let moved :=
        {| X := Some 200; Y := Some 771; Column := Some 9; Row := Some 10;
           Width := Some 45; Height := Some 45; WidthNext := Some 49;
           HeightNext := Some 52; Primary := Some false |} in
      let c := written_config default_layout (lit "10 ") 100 default_choices
                 sample_answers [] moved subject_id_check in
      round_trip c =
        Returns (written_config default_layout (lit "10 ") 100 default_choices
                   sample_answers [] student_id_check subject_id_check)
      /\ round_trip c <> Returns c).
Proof.
  split; [|split]; (split; [by vm_compute|]);
    intros H; vm_compute in H; discriminate H.
Qed.

End ConfigConverterFacts.

(** ** The answer-key builder *)

Module AnswerKeyManagerFacts.
Import AnswerKeyManager.

(** *** Loops that write one entry per question *)

Lemma foldl_insert_member {V} (g : Z -> V) (l : list Z)
    (m : gmap (list N) V) (i : Z) :
  i ∈ l ->
  foldl (fun m i => <[str_of_int i := g i]> m) m l !! str_of_int i
    = Some (g i).
Proof.
  induction l as [|j l IH] using rev_ind; intros Hi.
  - by apply elem_of_nil in Hi.
  - rewrite foldl_snoc. apply elem_of_app in Hi as [Hi|Hi].
    + destruct (decide (j = i)) as [->|Hne].
      * by rewrite lookup_insert_eq.
      * rewrite lookup_insert_ne; [by apply IH|].
        intros Heq. by apply (inj str_of_int) in Heq.
    + apply list_elem_of_singleton in Hi as ->. by rewrite lookup_insert_eq.
Qed.

Lemma foldl_insert_origin {V} (g : Z -> V) (l : list Z)
    (m : gmap (list N) V) (key : list N) (v : V) :
  foldl (fun m i => <[str_of_int i := g i]> m) m l !! key = Some v ->
  (exists i, i ∈ l /\ key = str_of_int i) \/ m !! key = Some v.
Proof.
  induction l as [|j l IH] using rev_ind; [by right|].
  rewrite foldl_snoc. intros H.
  destruct (decide (str_of_int j = key)) as [<-|Hne].
  - left. exists j. split; [|done]. apply elem_of_app. right. by left.
  - rewrite lookup_insert_ne in H by done.
    destruct (IH H) as [(i & Hi & ->)|Hm]; [|by right].
    left. exists i. split; [|done]. apply elem_of_app. by left.
Qed.

Lemma elem_of_seqZ_range (first len i : Z) :
  i ∈ seqZ first len <-> first <= i < first + len.
Proof. rewrite elem_of_seqZ. lia. Qed.

Lemma for_each_app {S A} (body : S -> A -> outcome S) (s : S)
    (l1 l2 : list A) :
  for_each body s (l1 ++ l2)
  = match for_each body s l1 with
    | Returns s' => for_each body s' l2
    | Raises e => Raises e
    end.
Proof.
  revert s. induction l1 as [|x l1 IH]; intros s; simpl; [done|].
  destruct (body s x); [apply IH|done].
Qed.

Lemma foldl_insert_other {V} (g : Z -> V) (l : list Z)
    (m : gmap (list N) V) (key : list N) :
  (forall i, i ∈ l -> key <> str_of_int i) ->
  foldl (fun m i => <[str_of_int i := g i]> m) m l !! key = m !! key.
Proof.
  induction l as [|j l IH] using rev_ind; intros Hkey; [done|].
  rewrite foldl_snoc, lookup_insert_ne.
  - apply IH. intros i Hi. apply Hkey, elem_of_app. by left.
  - intros Heq. apply (Hkey j); [|done]. apply elem_of_app. right. by left.
Qed.

Section Builder.

Variable upper : list N -> list N.
Variable int : list N -> option Z.

Lemma fill_from_pattern_fold (first last : Z) (p : list N)
    (m : gmap (list N) (list N)) :
  p <> [] ->
  fill_from_pattern upper first last p m =
    Returns (foldl (fun m i => <[str_of_int i := pattern_token upper first p i]> m)
                   m (seqZ first (last + 1 - first))).
Proof.
  intros Hp. unfold fill_from_pattern.
  assert ((Z.of_nat (length p) =? 0) = false) as Hlen.
  { apply Z.eqb_neq. destruct p; [done|simpl; lia]. }
  rewrite Hlen.
  generalize (seqZ first (last + 1 - first)) as l. intros l. revert m.
  induction l as [|i l IH]; intros m; simpl; [done|].
  apply IH.
Qed.

Lemma fill_from_pattern_covers (first last : Z) (p : list N)
    (m : gmap (list N) (list N)) :
  p <> [] ->
  exists m',
    fill_from_pattern upper first last p m = Returns m'
    /\ (forall i, first <= i <= last ->
                  m' !! str_of_int i = Some (pattern_token upper first p i))
    /\ (forall key v, m' !! key = Some v ->
          (exists i, first <= i <= last /\ key = str_of_int i)
          \/ m !! key = Some v).
Proof.
  intros Hp. eexists. split; [by apply fill_from_pattern_fold|]. split.
  - intros i Hi. apply foldl_insert_member, elem_of_seqZ_range. lia.
  - intros key v H. apply foldl_insert_origin in H as [(i & Hi & ->)|H];
      [left|by right].
    exists i. split; [|done]. apply elem_of_seqZ_range in Hi. lia.
Qed.

(** The token that the list loop gives to question [i]. *)
Lemma set_answers_from_list_fold (self : config) (l : list (list N)) :
  answers (set_answers_from_list upper self l) =
    foldl (fun m i =>
             <[str_of_int i :=
                 if i <=? Z.of_nat (length l)
                 then upper (default [] (l !! Z.to_nat (i - 1)))
                 else lit "A"]> m)
          ∅
          (seqZ 1 (Z.min (Z.of_nat (length l) + 1)
                         (total_questions (info self) + 1) - 1)).
Proof.
  unfold set_answers_from_list. cbn [answers with_answers].
  generalize (seqZ 1 (Z.min (Z.of_nat (length l) + 1)
                            (total_questions (info self) + 1) - 1)) as qs.
  generalize (∅ : gmap (list N) (list N)) as m.
  intros m qs. revert m. induction qs as [|i qs IH]; intros m; [done|].
  cbn [foldl]. rewrite IH. by destruct (i <=? Z.of_nat (length l)).
Qed.

Lemma fill_from_answers_snoc first last given a m :
  fill_from_answers upper first last (given ++ [a]) m
  = let m' := fill_from_answers upper first last given m in
    if first + Z.of_nat (length given) <=? last
    then <[str_of_int (first + Z.of_nat (length given)) := upper a]> m'
    else m'.
Proof.
  unfold fill_from_answers. rewrite imap_app, foldl_app. simpl.
  by rewrite Nat.add_0_r.
Qed.

Lemma fill_from_answers_spec first last given m :
  (forall (i : nat) a,
      given !! i = Some a -> first + Z.of_nat i <= last ->
      fill_from_answers upper first last given m
        !! str_of_int (first + Z.of_nat i) = Some (upper a))
  /\ (forall key v,
        fill_from_answers upper first last given m !! key = Some v ->
        (exists (i : nat) a,
            given !! i = Some a /\ first + Z.of_nat i <= last
            /\ key = str_of_int (first + Z.of_nat i) /\ v = upper a)
        \/ m !! key = Some v).
Proof.
  induction given as [|x l [IHin IHout]] using rev_ind.
  - split; [done|]. intros key v H. by right.
  - split.
    + intros i a Hi Hle. rewrite fill_from_answers_snoc. cbn zeta.
      destruct (decide (i = length l)) as [->|Hne].
      * rewrite list_lookup_middle in Hi by done. injection Hi as <-.
        destruct (Z.leb_spec (first + Z.of_nat (length l)) last); [|lia].
        by rewrite lookup_insert_eq.
      * assert (l !! i = Some a) as Hl.
        { apply lookup_lt_Some in Hi as Hlt.
          rewrite length_app in Hlt. simpl in Hlt.
          rewrite lookup_app_l in Hi by lia. done. }
        destruct (first + Z.of_nat (length l) <=? last).
        -- rewrite lookup_insert_ne; [by apply IHin|].
           intros Heq. apply (inj str_of_int) in Heq. lia.
        -- by apply IHin.
    + intros key v. rewrite fill_from_answers_snoc. cbn zeta.
      assert (forall w,
                 fill_from_answers upper first last l m !! key = Some w ->
                 (exists (i : nat) a,
                     (l ++ [x]) !! i = Some a /\ first + Z.of_nat i <= last
                     /\ key = str_of_int (first + Z.of_nat i) /\ w = upper a)
                 \/ m !! key = Some w) as Hold.
      { intros w Hw. destruct (IHout key w Hw) as [(i & a & Hi & ?)|?];
          [left|by right].
        exists i, a. split; [|done].
        rewrite lookup_app_l; [done|]. by apply lookup_lt_Some in Hi. }
      destruct (Z.leb_spec (first + Z.of_nat (length l)) last) as [Hle|Hgt];
        [|apply Hold].
      destruct (decide (str_of_int (first + Z.of_nat (length l)) = key))
        as [<-|Hne].
      * rewrite lookup_insert_eq. intros [= <-]. left.
        exists (length l), x. by rewrite list_lookup_middle.
      * rewrite lookup_insert_ne by done. apply Hold.
Qed.

Lemma fill_from_answers_other first last given m key :
  (forall (k : nat) a,
      given !! k = Some a -> first + Z.of_nat k <= last ->
      key <> str_of_int (first + Z.of_nat k)) ->
  fill_from_answers upper first last given m !! key = m !! key.
Proof.
  induction given as [|x l IH] using rev_ind; intros Hkey; [done|].
  rewrite fill_from_answers_snoc. cbn zeta.
  assert (fill_from_answers upper first last l m !! key = m !! key) as Hl.
  { apply IH. intros k a Hk. apply (Hkey k a).
    rewrite lookup_app_l; [done|]. by apply lookup_lt_Some in Hk. }
  destruct (Z.leb_spec (first + Z.of_nat (length l)) last) as [Hle|Hgt];
    [|done].
  rewrite lookup_insert_ne; [done|]. intros Heq.
  apply (Hkey (length l) x); [by rewrite list_lookup_middle|done|done].
Qed.

(** *** The loop over the sections *)

(** One round of the loop of [set_answers_from_sections]. *)
Let section_body (answers_of : gmap (list N) (list N))
    (entry : list N * section_config) : outcome (gmap (list N) (list N)) :=
  let '(section_name, section) := entry in
  range ← range_of_name int section_name;
  match range with
  | None => Returns answers_of
  | Some (first, last) =>
      match pattern section, section_answers section with
      | Some pattern_of, _ =>
          fill_from_pattern upper first last pattern_of answers_of
      | None, Some given =>
          Returns (fill_from_answers upper first last given answers_of)
      | None, None => Returns answers_of
      end
  end.

Lemma set_answers_from_sections_loop (self : config)
    (sections : list (list N * section_config)) :
  set_answers_from_sections upper int self sections
  = (new ← for_each section_body ∅ sections; mret (with_answers self new)).
Proof.
  unfold set_answers_from_sections. do 2 f_equal.
Qed.

(** What one section does to the key: it writes its tokens and leaves every
    other entry as it is. *)
Lemma section_body_spec (m : gmap (list N) (list N))
    (section_name : list N) (section : section_config)
    (r : option (Z * Z)) :
  pattern section <> Some [] ->
  range_of_name int section_name = Returns r ->
  exists m1,
    section_body m (section_name, section) = Returns m1
    /\ (forall first last i t,
          r = Some (first, last) ->
          section_token upper section first last i = Some t ->
          m1 !! str_of_int i = Some t)
    /\ (forall key,
          (forall first last i,
              r = Some (first, last) -> key = str_of_int i ->
              section_token upper section first last i = None) ->
          m1 !! key = m !! key)
    /\ (forall key v,
          m1 !! key = Some v ->
          (exists first last i,
              r = Some (first, last) /\ key = str_of_int i
              /\ section_token upper section first last i = Some v)
          \/ m !! key = Some v).
Proof.
  intros Hp Hr. unfold section_body. rewrite Hr. cbn.
  destruct r as [[first last]|]; [|by exists m; split_and!; auto].
  assert (forall i, bool_decide (first <= i <= last) = true
                    <-> first <= i <= last) as Hin
    by (intros i; apply bool_decide_eq_true).
  unfold section_token.
  destruct (pattern section) as [p|] eqn:Ep.
  - assert (p <> []) as Hp' by congruence.
    rewrite fill_from_pattern_fold by done. eexists. split; [done|].
    split; [|split].
    + intros f l i t [= <- <-].
      destruct (bool_decide (first <= i <= last)) eqn:E; [|done].
      intros [= <-]. apply foldl_insert_member, elem_of_seqZ_range.
      apply Hin in E. lia.
    + intros key Hkey. apply foldl_insert_other. intros i Hi ->.
      specialize (Hkey first last i eq_refl eq_refl).
      apply elem_of_seqZ_range in Hi.
      rewrite bool_decide_true in Hkey by lia. discriminate Hkey.
    + intros key v Hv.
      destruct (foldl_insert_origin _ _ _ _ _ Hv) as [(i & Hi & ->)|Hm];
        [left|by right].
      rewrite foldl_insert_member in Hv by done. injection Hv as <-.
      exists first, last, i. split; [done|]. split; [done|].
      apply elem_of_seqZ_range in Hi. by rewrite bool_decide_true by lia.
  - destruct (section_answers section) as [given|] eqn:Ea.
    + destruct (fill_from_answers_spec first last given m) as [Hget Horigin].
      eexists. split; [done|]. split; [|split].
      * intros f l i t [= <- <-].
        destruct (bool_decide (first <= i <= last)) eqn:E; [|done].
        apply Hin in E.
        destruct (given !! Z.to_nat (i - first)) as [a|] eqn:Eg; [|done].
        intros [= <-].
        specialize (Hget (Z.to_nat (i - first)) a Eg).
        replace (first + Z.of_nat (Z.to_nat (i - first))) with i in Hget
          by lia.
        apply Hget. lia.
      * intros key Hkey. apply fill_from_answers_other.
        intros k a Hk Hle ->.
        specialize (Hkey first last (first + Z.of_nat k) eq_refl eq_refl).
        rewrite bool_decide_true in Hkey by lia.
        replace (Z.to_nat (first + Z.of_nat k - first)) with k in Hkey
          by lia.
        rewrite Hk in Hkey. discriminate Hkey.
      * intros key v Hv.
        destruct (Horigin key v Hv) as [(k & a & Hk & Hle & -> & ->)|Hm];
          [left|by right].
        exists first, last, (first + Z.of_nat k).
        split; [done|]. split; [done|].
        rewrite bool_decide_true by lia.
        replace (Z.to_nat (first + Z.of_nat k - first)) with k by lia.
        by rewrite Hk.
    + exists m. split; [done|]. split; [|split].
      * intros f l i t _. by destruct (bool_decide _).
      * done.
      * intros key v Hv. by right.
Qed.

(** The loop over sections whose ranges can be read and whose patterns are
    not empty: every question has the token of the last section that writes
    it, and every token comes from a section that writes it. *)
Lemma for_each_section_body (sections : list (list N * section_config))
    (m : gmap (list N) (list N)) :
  (forall section_name section,
      (section_name, section) ∈ sections ->
      pattern section <> Some []
      /\ exists r, range_of_name int section_name = Returns r) ->
  exists m',
    for_each section_body m sections = Returns m'
    /\ (forall before section_name section after first last i t,
          sections = before ++ (section_name, section) :: after ->
          range_of_name int section_name = Returns (Some (first, last)) ->
          section_token upper section first last i = Some t ->
          (forall n' s' first' last',
              (n', s') ∈ after ->
              range_of_name int n' = Returns (Some (first', last')) ->
              section_token upper s' first' last' i = None) ->
          m' !! str_of_int i = Some t)
    /\ (forall key,
          (forall section_name section first last i,
              (section_name, section) ∈ sections ->
              range_of_name int section_name = Returns (Some (first, last)) ->
              key = str_of_int i ->
              section_token upper section first last i = None) ->
          m' !! key = m !! key)
    /\ (forall key v,
          m' !! key = Some v ->
          (exists section_name section first last i,
              (section_name, section) ∈ sections
              /\ range_of_name int section_name = Returns (Some (first, last))
              /\ key = str_of_int i
              /\ is_Some (section_token upper section first last i))
          \/ m !! key = Some v).
Proof.
  revert m. induction sections as [|[n s] rest IH]; intros m Hok.
  - exists m. split; [done|]. split; [|split].
    + intros before ? ? after ? ? ? ? Heq. by destruct before.
    + done.
    + intros key v Hv. by right.
  - destruct (Hok n s) as [Hp [r Hr]]; [by left|].
    destruct (section_body_spec m n s r Hp Hr)
      as (m1 & Hstep & Hwrite & Hkeep & Horigin).
    destruct (IH m1) as (m' & Hrun & HA & HB & HC).
    { intros n' s' Hin. apply Hok. by right. }
    exists m'. cbn [for_each]. rewrite Hstep. split; [exact Hrun|].
    split; [|split].
    + intros before n0 s0 after first last i t Heq Hr0 Ht Hlater.
      destruct before as [|x before]; simpl in Heq.
      * injection Heq as <- <- <-.
        rewrite HB.
        -- apply (Hwrite first last i t); [congruence|done].
        -- intros n' s' first' last' i' Hin Hr' Hi'.
           apply (inj str_of_int) in Hi' as <-. by eapply Hlater.
      * injection Heq as <- ->. by eapply HA.
    + intros key Hkey. rewrite HB.
      * apply Hkeep. intros first last i -> Hi.
        apply (Hkey n s first last i); [by left|done|done].
      * intros n' s' first' last' i Hin. apply Hkey. by right.
    + intros key v Hv.
      destruct (HC key v Hv) as [(n' & s' & f' & l' & i & Hin & ?)|Hm1].
      * left. exists n', s', f', l', i. split; [by right|done].
      * destruct (Horigin key v Hm1) as [(f' & l' & i & -> & -> & Ht)|Hm];
          [left|by right].
        exists n, s, f', l', i. split; [by left|].
        split; [done|]. split; [done|]. by rewrite Ht.
Qed.

(** C5, as amended. With a pattern that is not empty, the pattern helper
    returns a key in which every question 1..total_questions has exactly one
    token, the character of the pattern at its turn in upper case, and
    nothing else has one.  The list helper gives every question of
    1..total_questions for which the list has an entry that entry in upper
    case, and gives no token outside 1..total_questions.  The section helper
    gives, for a section whose name declares the range first-last and which
    holds a pattern that is not empty, exactly the questions first..last a
    token.  Over any sections whose ranges can be read and whose patterns
    are not empty it returns a key in which every question that some
    section writes has one token, the one of the last section that writes
    it, and in which every token belongs to a question that some section
    writes: it covers 1..total_questions only as far as the declared
    ranges do, whatever the number of questions is. *)
Theorem answer_helpers_cover (self : config) :
  let total := total_questions (info self) in
  (forall p : list N,
      p <> [] ->
      exists self',
        set_answers_from_pattern upper self p = Returns self'
        /\ info self' = info self
        /\ (forall i, 1 <= i <= total ->
              answers self' !! str_of_int i = Some (pattern_token upper 1 p i))
        /\ (forall key, is_Some (answers self' !! key) ->
              exists i, 1 <= i <= total /\ key = str_of_int i))
  /\ (forall l : list (list N),
        let self' := set_answers_from_list upper self l in
        info self' = info self
        /\ (forall i a, 1 <= i <= total ->
              l !! Z.to_nat (i - 1) = Some a ->
              answers self' !! str_of_int i = Some (upper a))
        /\ (forall key, is_Some (answers self' !! key) ->
              exists i, 1 <= i <= total /\ key = str_of_int i))
  /\ (forall (section_name p : list N) (first last : Z),
        p <> [] ->
        range_of_name int section_name = Returns (Some (first, last)) ->
        exists self',
          set_answers_from_sections upper int self
            [ (section_name,
               {| pattern := Some p; section_answers := None |}) ]
            = Returns self'
          /\ info self' = info self
          /\ (forall i, first <= i <= last ->
                answers self' !! str_of_int i
                  = Some (pattern_token upper first p i))
          /\ (forall key, is_Some (answers self' !! key) ->
                exists i, first <= i <= last /\ key = str_of_int i))
  /\ (forall sections : list (list N * section_config),
        (forall section_name section,
            (section_name, section) ∈ sections ->
            pattern section <> Some []
            /\ exists r, range_of_name int section_name = Returns r) ->
        exists self',
          set_answers_from_sections upper int self sections = Returns self'
          /\ info self' = info self
          /\ (forall before section_name section after first last i t,
                sections = before ++ (section_name, section) :: after ->
                range_of_name int section_name
                  = Returns (Some (first, last)) ->
                section_token upper section first last i = Some t ->
                (forall n' s' first' last',
                    (n', s') ∈ after ->
                    range_of_name int n' = Returns (Some (first', last')) ->
                    section_token upper s' first' last' i = None) ->
                answers self' !! str_of_int i = Some t)
          /\ (forall key,
                is_Some (answers self' !! key) ->
                exists section_name section first last i,
                  (section_name, section) ∈ sections
                  /\ range_of_name int section_name
                     = Returns (Some (first, last))
                  /\ key = str_of_int i
                  /\ first <= i <= last
                  /\ is_Some (section_token upper section first last i))
          /\ (forall other : config,
                exists other',
                  set_answers_from_sections upper int other sections
                    = Returns other'
                  /\ answers other' = answers self')).
Proof.
  intros total. split; [|split; [|split]].
  - intros p Hp.
    destruct (fill_from_pattern_covers 1 total p ∅ Hp) as (m' & Hm & Hin & Hout).
    exists (with_answers self m'). unfold set_answers_from_pattern.
    fold total. rewrite Hm. split; [done|]. split; [done|].
    split; [exact Hin|].
    intros key [v Hv]. apply Hout in Hv as [Hv|Hv]; [exact Hv|].
    by rewrite lookup_empty in Hv.
  - intros l self'. split; [done|]. subst self'.
    rewrite set_answers_from_list_fold. fold total. split.
    + intros i a Hi Ha.
      assert (Z.to_nat (i - 1) < length l)%nat as Hlt
        by (by apply lookup_lt_Some in Ha).
      rewrite (foldl_insert_member
                 (fun i => if i <=? Z.of_nat (length l)
                           then upper (default [] (l !! Z.to_nat (i - 1)))
                           else lit "A")).
      * destruct (Z.leb_spec i (Z.of_nat (length l))); [|lia].
        by rewrite Ha.
      * apply elem_of_seqZ_range. lia.
    + intros key [v Hv].
      apply (foldl_insert_origin
               (fun i => if i <=? Z.of_nat (length l)
                         then upper (default [] (l !! Z.to_nat (i - 1)))
                         else lit "A")) in Hv as [(i & Hi & ->)|Hv].
      * exists i. split; [|done]. apply elem_of_seqZ_range in Hi. lia.
      * by rewrite lookup_empty in Hv.
  - intros section_name p first last Hp Hrange.
    destruct (fill_from_pattern_covers first last p ∅ Hp)
      as (m' & Hm & Hin & Hout).
    exists (with_answers self m'). unfold set_answers_from_sections.
    cbn [for_each]. rewrite Hrange. cbn. rewrite Hm. cbn.
    split; [done|]. split; [done|]. split; [exact Hin|].
    intros key [v Hv]. apply Hout in Hv as [Hv|Hv]; [exact Hv|].
    by rewrite lookup_empty in Hv.
  - intros sections Hok.
    destruct (for_each_section_body sections ∅ Hok)
      as (m' & Hrun & Hlast & _ & Horigin).
    exists (with_answers self m').
    rewrite set_answers_from_sections_loop, Hrun.
    split; [done|]. split; [done|]. split; [exact Hlast|]. split.
    + intros key [v Hv].
      destruct (Horigin key v Hv)
        as [(n & s & first & last & i & Hin & Hr & -> & Ht)|Hempty];
        [|by rewrite lookup_empty in Hempty].
      exists n, s, first, last, i.
      split; [done|]. split; [done|]. split; [done|]. split; [|done].
      unfold section_token in Ht.
      destruct (bool_decide (first <= i <= last)) eqn:E;
        [by apply bool_decide_eq_true in E|by destruct Ht].
    + intros other. exists (with_answers other m').
      by rewrite set_answers_from_sections_loop, Hrun.
Qed.

End Builder.

Lemma answer_helpers_cover_witness :
  lit "ABCDE" <> []
  /\ (exists self',
        set_answers_from_pattern ascii_upper
          (set_exam_info (init (lit "2025-09-24")) (lit "Mathematics Test")
                         50 70)
          (lit "ABCDE") = Returns self'
        /\ answers self' !! str_of_int 7 = Some (lit "B")
        /\ answers self' !! str_of_int 50 = Some (lit "E"))
  /\ answers (set_answers_from_list ascii_upper
                (set_exam_info (init (lit "2025-09-24")) (lit "Quick Quiz")
                               3 80)
                [lit "b"; lit "c"]) !! str_of_int 2 = Some (lit "C")
  /\ (exists self',
        set_answers_from_sections ascii_upper ascii_int
          (init (lit "2025-09-24")) mixed_sections = Returns self'
        /\ answers self' !! str_of_int 7 = Some (lit "B")
        /\ answers self' !! str_of_int 25 = Some (lit "X")
        /\ answers self' !! str_of_int 27 = Some (lit "C")).
Proof.
  split; [discriminate|].
  pose proof (answer_helpers_cover ascii_upper ascii_int
                (set_exam_info (init (lit "2025-09-24"))
                               (lit "Mathematics Test") 50 70))
    as (Hpattern & _).
  pose proof (answer_helpers_cover ascii_upper ascii_int
                (set_exam_info (init (lit "2025-09-24"))
                               (lit "Quick Quiz") 3 80))
    as (_ & Hlist & _).
  pose proof (answer_helpers_cover ascii_upper ascii_int
                (init (lit "2025-09-24")))
    as (_ & _ & _ & Hsections).
  split; [|split].
  - destruct (Hpattern (lit "ABCDE") ltac:(discriminate))
      as (self' & Hrun & _ & Hin & _).
    exists self'. split; [exact Hrun|]. split.
    + rewrite (Hin 7) by (cbn; lia). reflexivity.
    + rewrite (Hin 50) by (cbn; lia). reflexivity.
  - refine (proj1 (proj2 (Hlist [lit "b"; lit "c"])) 2 (lit "c") _ eq_refl).
    cbn. lia.
  - destruct (Hsections mixed_sections) as (self' & Hrun & _ & Hlast & _).
    { intros n s Hin. unfold mixed_sections in Hin.
      repeat (apply elem_of_cons in Hin as [[= -> ->]|Hin];
              [split; [discriminate|by eexists]|]).
      by apply elem_of_nil in Hin. }
    exists self'. split; [exact Hrun|].
    assert (forall n s, (n, s) ∈ @nil (list N * section_config) -> False)
      as Hnil by (intros n s Hin; by apply elem_of_nil in Hin).
    split; [|split].
    + refine (Hlast [] _ _ _ 1 25 7 _ eq_refl eq_refl eq_refl _).
      intros n' s' first' last' Hin Hr.
      repeat (apply elem_of_cons in Hin as [[= -> ->]|Hin];
              [vm_compute in Hr; injection Hr as <- <-; reflexivity|]).
      by apply elem_of_nil in Hin.
    + refine (Hlast [_; _] _ _ [] 25 25 25 _ eq_refl eq_refl eq_refl _).
      intros n' s' first' last' Hin. by apply elem_of_nil in Hin.
    + refine (Hlast [_] _ _ [_] 26 50 27 _ eq_refl eq_refl eq_refl _).
      intros n' s' first' last' Hin Hr.
      repeat (apply elem_of_cons in Hin as [[= -> ->]|Hin];
              [vm_compute in Hr; injection Hr as <- <-; reflexivity|]).
      by apply elem_of_nil in Hin.
Defined.

(** C5, as stated, fails: on the builder of 100 questions the sections of
    the docstring give tokens to the questions of their ranges only, so
    that question 26 and question 100 have none; and with an empty pattern
    the pattern helper raises instead of returning a key. *)
Lemma answer_helpers_cover_counterexample :
  total_questions (info (init (lit "2025-09-24"))) = 100
  /\ (match set_answers_from_sections ascii_upper ascii_int
              (init (lit "2025-09-24")) docstring_sections with
      | Returns self' =>
          answers self' !! str_of_int 25 = Some (lit "E")
          /\ answers self' !! str_of_int 26 = None
          /\ answers self' !! str_of_int 51 = Some (lit "E")
          /\ answers self' !! str_of_int 100 = None
      | Raises _ => False
      end)
  /\ set_answers_from_pattern ascii_upper (init (lit "2025-09-24")) []
     = Raises ZeroDivisionError.
Proof. by vm_compute. Qed.

(** The list helper on a list shorter than the number of questions: the
    loop ends with the list, its branch for the filler is never taken, and
    the questions beyond the list have no token. *)
Lemma set_answers_from_list_short :
  let self' :=
    set_answers_from_list ascii_upper
      (set_exam_info (init (lit "2025-09-24")) (lit "Quick Quiz") 3 80)
      [lit "b"] in
  answers self' !! str_of_int 1 = Some (lit "B")
  /\ answers self' !! str_of_int 2 = None
  /\ answers self' !! str_of_int 3 = None.
Proof. by vm_compute. Qed.

End AnswerKeyManagerFacts.

(** ** Exact arithmetic against binary64 *)

Module Binary64Facts.

(** On the pixel range of a page, [int(y / 100)] and [int(x / 200)] in
    binary64 are the integer quotients towards zero of the embedding. *)
Lemma int_of_quotient_exact (y : Z) :
  -4000 <= y < 4000 ->
  Binary64.int_of_quotient y 100 = Z.quot y 100
  /\ Binary64.int_of_quotient y 200 = Z.quot y 200.
Proof.
  intros Hy.
  assert (forallb (fun y => (Binary64.int_of_quotient y 100 =? Z.quot y 100)
                            && (Binary64.int_of_quotient y 200 =? Z.quot y 200))
                  (seqZ (-4000) 8000) = true) as Hall
    by (vm_compute; reflexivity).
  rewrite forallb_forall in Hall.
  specialize (Hall y). rewrite <- list_elem_of_In, elem_of_seqZ in Hall.
  apply andb_prop in Hall as [H1 H2]; [|lia].
  split; by apply Z.eqb_eq.
Qed.

(** The boundaries of the two samples of the calibration, computed in
    binary64, denote the rationals that the analysis of the embedding
    lists. *)
Lemma boundaries_of_samples_exact :
  match CalibratePositions.analyze_numeric_positions
          (Returns CalibratePositions.one_mark),
        CalibratePositions.analyze_numeric_positions
          (Returns CalibratePositions.two_marks) with
  | Returns (Some a1), Returns (Some a2) =>
      Forall2 (fun f q => (Binary64.to_Q f == q)%Q)
              (map (Binary64.boundary_at 5 5) (seqZ 0 13))
              (CalibratePositions.boundary_values a1)
      /\ Forall2 (fun f q => (Binary64.to_Q f == q)%Q)
                 (map (Binary64.boundary_at 0 1200) (seqZ 0 13))
                 (CalibratePositions.boundary_values a2)
  | _, _ => False
  end.
Proof.
  cbn [CalibratePositions.analyze_numeric_positions try_except mbind
       outcome_bind CalibratePositions.all_positions_of].
  simpl.
  split; repeat (constructor; [vm_compute; reflexivity|]); constructor.
Qed.

(** The column edges of the mapping over [0, 1300], computed in binary64,
    are the multiples of 100 of the embedding. *)
Lemma column_edges_0_1300_exact :
  Forall2 (fun i entry =>
             (Binary64.to_Q (Binary64.column_edge 0 1300 i)
              == fst (snd entry))%Q
             /\ (Binary64.to_Q (Binary64.column_edge 0 1300 (i + 1))
                 == snd (snd entry))%Q)
          (seqZ 0 13)
          (CalibratePositions.generate_numeric_mapping 0 1300).
Proof.
  repeat (constructor; [split; vm_compute; reflexivity|]).
  constructor.
Qed.

(** The percentage of a sheet without a correct answer is zero in binary64
    as well. *)
Lemma percentage_of_blank_sheet_exact :
  Binary64.percentage 0 15 = 0%float.
Proof. vm_compute. reflexivity. Qed.

End Binary64Facts.

(** * Further properties *)

(** ** The improved position mapper, further *)

Module ImprovedPositionMapperMore.
Import ImprovedPositionMapper ImprovedPositionMapperFacts.

(** The place of the returned choice in the alphabet, by the thresholds. *)
Lemma choice_index (q x y : Z) :
  choices !! (if x <=? 258 then 0%nat else if x <=? 629 then 1%nat
              else if x <=? 1000 then 2%nat else if x <=? 1372 then 3%nat
              else 4%nat)
  = Some (improved_position_to_choice q (x, y)).
Proof.
  rewrite improved_position_to_choice_thresholds.
  repeat match goal with
         | |- context [ (?a <=? ?b) ] => destruct (Z.leb_spec a b)
         end; reflexivity.
Qed.

(** X1. The mapper always answers with one of the five choices, and it is
    monotone: a mark further to the right never gets an earlier letter. *)
Theorem improved_position_to_choice_monotone (q1 q2 x1 x2 y1 y2 : Z) :
  x1 <= x2 ->
  exists i j : nat,
    choices !! i = Some (improved_position_to_choice q1 (x1, y1))
    /\ choices !! j = Some (improved_position_to_choice q2 (x2, y2))
    /\ (i <= j)%nat.
Proof.
  intros Hx. eexists. eexists.
  split; [apply choice_index|]. split; [apply choice_index|].
  repeat match goal with
         | |- context [ (?a <=? ?b) ] => destruct (Z.leb_spec a b)
         end; lia.
Qed.

Lemma improved_position_to_choice_monotone_witness :
  300 <= 1200
  /\ exists i j : nat,
       choices !! i = Some (improved_position_to_choice 1 (300, 10))
       /\ choices !! j = Some (improved_position_to_choice 2 (1200, 90))
       /\ (i <= j)%nat.
Proof.
  split; [lia|].
  apply (improved_position_to_choice_monotone 1 2 300 1200 10 90). lia.
Defined.

End ImprovedPositionMapperMore.

(** ** The demo scorer, further *)

Module SimpleDemoMore.
Import SimpleDemo SimpleDemoFacts.

(** *** The order of the marks *)

Lemma ascending_x_sorted (l : list (Z * Z)) :
  ascending_x l -> StronglySorted Z.le (map fst l).
Proof.
  induction l as [|b l IH]; intros H; simpl; [constructor|].
  apply ascending_x_cons in H as [Hb Hl].
  constructor; [by apply IH|].
  apply Forall_map. exact Hb.
Qed.

(** The x coordinates of the sorted row depend on the marks of the row
    only, not on the order in which they were found. *)
Lemma sort_by_x_keys (l l' : list (Z * Z)) :
  l ≡ₚ l' -> map fst (sort_by_x l) = map fst (sort_by_x l').
Proof.
  intros Hp.
  apply (StronglySorted_unique Z.le).
  - apply ascending_x_sorted, sort_by_x_ascending.
  - apply ascending_x_sorted, sort_by_x_ascending.
  - apply fmap_Permutation.
    by rewrite !sort_by_x_perm.
Qed.

Lemma answer_of_row_keys (row : list (Z * Z)) :
  row <> [] ->
  answer_of_row row = concat (map symbol_of (take 3 (map fst (sort_by_x row)))).
Proof.
  intros H. rewrite answer_of_row_concat by done.
  by rewrite firstn_map, map_map.
Qed.

Lemma answer_of_row_perm (row row' : list (Z * Z)) :
  row ≡ₚ row' -> answer_of_row row = answer_of_row row'.
Proof.
  intros Hp. destruct row as [|b row].
  - apply Permutation_nil_l in Hp. by subst.
  - assert (row' <> []) as Hne.
    { intros ->. by apply Permutation_nil_r in Hp. }
    rewrite !answer_of_row_keys by done.
    by rewrite (sort_by_x_keys _ _ Hp).
Qed.

(** X2. The answers do not depend on the order in which the bubbles were
    detected: two lists with the same marks give the same answers. *)
Theorem convert_bubbles_to_answers_order
    (d d' : gmap (list N) (list (Z * Z))) :
  default [] (d !! lit "bubbles") ≡ₚ default [] (d' !! lit "bubbles") ->
  convert_bubbles_to_answers d = convert_bubbles_to_answers d'.
Proof.
  intros Hp. unfold convert_bubbles_to_answers.
  set (l := default [] (d !! lit "bubbles")) in *.
  set (l' := default [] (d' !! lit "bubbles")) in *.
  f_equal. apply map_eq. intros q.
  rewrite !lookup_fmap, !group_by_row_lookup.
  assert (filter (fun b => question_num_of (snd b) = q) l
          ≡ₚ filter (fun b => question_num_of (snd b) = q) l') as Hrow
    by (by rewrite Hp).
  destruct (filter _ l) as [|b row] eqn:E, (filter _ l') as [|b' row'] eqn:E'.
  - done.
  - by apply Permutation_nil_l in Hrow.
  - by apply Permutation_nil_r in Hrow.
  - simpl. f_equal. by apply answer_of_row_perm.
Qed.

Lemma convert_bubbles_to_answers_order_witness :
  default [] (({[ lit "bubbles" := [(900, 250); (100, 260)] ]}
                : gmap (list N) (list (Z * Z))) !! lit "bubbles")
  ≡ₚ default [] (({[ lit "bubbles" := [(100, 260); (900, 250)] ]}
                   : gmap (list N) (list (Z * Z))) !! lit "bubbles")
  /\ convert_bubbles_to_answers {[ lit "bubbles" := [(900, 250); (100, 260)] ]}
     = convert_bubbles_to_answers {[ lit "bubbles" := [(100, 260); (900, 250)] ]}.
Proof.
  assert (default [] (({[ lit "bubbles" := [(900, 250); (100, 260)] ]}
                        : gmap (list N) (list (Z * Z))) !! lit "bubbles")
          ≡ₚ default [] (({[ lit "bubbles" := [(100, 260); (900, 250)] ]}
                           : gmap (list N) (list (Z * Z))) !! lit "bubbles"))
    as H by (vm_compute; apply perm_swap).
  split; [exact H|].
  exact (convert_bubbles_to_answers_order _ _ H).
Defined.

(** *** The shape of the answers *)

Lemma symbols_shape (xs : list Z) :
  length (concat (map symbol_of xs)) = length xs
  /\ Forall (fun c => [c] ∈ column_chars) (concat (map symbol_of xs)).
Proof.
  induction xs as [|x xs [IHlen IHall]]; simpl; [by split|].
  unfold symbol_of at 1 3.
  assert (0 <= char_idx_of x <= 12) as Hr by (unfold char_idx_of; lia).
  destruct (column_chars !! Z.to_nat (char_idx_of x)) as [s|] eqn:E.
  2:{ apply lookup_ge_None in E. simpl in E. lia. }
  assert (s ∈ column_chars) as Hs by (by eapply list_elem_of_lookup_2).
  assert (exists c, s = [c]) as [c ->].
  { unfold column_chars in Hs.
    repeat (apply elem_of_cons in Hs as [->|Hs]; [by eexists|]).
    by apply elem_of_nil in Hs. }
  simpl. split; [by rewrite IHlen|]. by constructor.
Qed.

(** X3. Every answer that the conversion writes belongs to a question
    between 1 and 15, and it is a string of one, two or three symbols of the
    thirteen-symbol alphabet: no question gets an empty answer, and no
    answer is longer than three symbols. *)
Theorem convert_bubbles_to_answers_shape
    (d : gmap (list N) (list (Z * Z))) (key token : list N) :
  convert_bubbles_to_answers d !! key = Some token ->
  (exists q, 1 <= q <= 15 /\ key = str_of_int q)
  /\ (1 <= length token <= 3)%nat
  /\ Forall (fun c => [c] ∈ column_chars) token.
Proof.
  unfold convert_bubbles_to_answers. intros H.
  apply (lookup_kmap_Some (M2 := gmap (list N)) str_of_int) in H
    as (q & -> & H).
  rewrite lookup_fmap, group_by_row_lookup in H.
  destruct (filter _ _) as [|b row] eqn:E; [discriminate|].
  simpl in H. injection H as <-.
  assert (b ∈ filter (fun b => question_num_of (snd b) = q)
                     (default [] (d !! lit "bubbles"))) as Hb
    by (rewrite E; by left).
  apply list_elem_of_filter in Hb as [Hq _].
  split.
  - exists q. split; [|done]. unfold question_num_of in Hq. lia.
  - rewrite answer_of_row_keys by done.
    destruct (symbols_shape (take 3 (map fst (sort_by_x (b :: row)))))
      as [Hlen Hall].
    split; [|exact Hall]. rewrite Hlen, length_take, length_map.
    pose proof (Permutation_length (sort_by_x_perm (b :: row))) as Hp.
    cbn [length] in Hp. lia.
Qed.

Lemma convert_bubbles_to_answers_shape_witness :
  convert_bubbles_to_answers {[ lit "bubbles" := [(900, 250); (100, 260)] ]}
    !! lit "3" = Some (plus_minus :: lit "1")
  /\ (exists q, 1 <= q <= 15 /\ lit "3" = str_of_int q)
  /\ (1 <= length (plus_minus :: lit "1") <= 3)%nat
  /\ Forall (fun c => [c] ∈ column_chars) (plus_minus :: lit "1").
Proof.
  assert (convert_bubbles_to_answers
            {[ lit "bubbles" := [(900, 250); (100, 260)] ]}
            !! lit "3" = Some (plus_minus :: lit "1")) as H
    by (vm_compute; reflexivity).
  split; [exact H|].
  exact (convert_bubbles_to_answers_shape _ _ _ H).
Defined.

(** X4. No mark is dropped when the marks are grouped: a mark above the
    first row (y < 100, negative y included) counts for question 1, a mark
    below the last row (y >= 1400) for question 15, and any other mark for
    question [y / 100 + 1]; that question then has an answer. *)
Theorem convert_bubbles_to_answers_clamps
    (d : gmap (list N) (list (Z * Z))) (x y : Z) :
  (x, y) ∈ default [] (d !! lit "bubbles") ->
  is_Some (convert_bubbles_to_answers d
             !! str_of_int (if y <? 100 then 1
                            else if 1400 <=? y then 15
                            else y / 100 + 1)).
Proof.
  intros Hin. unfold convert_bubbles_to_answers.
  set (q := if y <? 100 then 1 else if 1400 <=? y then 15 else y / 100 + 1).
  assert (question_num_of y = q) as Hq.
  { rewrite question_num_of_floor. subst q.
    destruct (Z.ltb_spec y 100) as [Hy|Hy].
    - assert (y / 100 <= 0) by (apply Z.lt_succ_r, Z.div_lt_upper_bound; lia).
      lia.
    - destruct (Z.leb_spec 1400 y) as [Hy'|Hy'].
      + assert (14 <= y / 100) by (apply Z.div_le_lower_bound; lia). lia.
      + assert (1 <= y / 100) by (apply Z.div_le_lower_bound; lia).
        assert (y / 100 < 14) by (apply Z.div_lt_upper_bound; lia).
        lia. }
  rewrite (lookup_kmap (M2 := gmap (list N)) str_of_int
             (answer_of_row <$> group_by_row (default [] (d !! lit "bubbles")))
             q).
  rewrite lookup_fmap, group_by_row_lookup.
  assert ((x, y) ∈ filter (fun b => question_num_of (snd b) = q)
                          (default [] (d !! lit "bubbles"))) as Hrow
    by (apply list_elem_of_filter; by split).
  destruct (filter _ _); [by apply elem_of_nil in Hrow|].
  by eexists.
Qed.

Lemma convert_bubbles_to_answers_clamps_witness :
  (50, -30) ∈ default []
    (({[ lit "bubbles" := [(50, -30); (2600, 9000)] ]}
       : gmap (list N) (list (Z * Z))) !! lit "bubbles")
  /\ is_Some (convert_bubbles_to_answers
                {[ lit "bubbles" := [(50, -30); (2600, 9000)] ]}
                !! str_of_int 1).
Proof.
  assert ((50, -30) ∈ default []
            (({[ lit "bubbles" := [(50, -30); (2600, 9000)] ]}
               : gmap (list N) (list (Z * Z))) !! lit "bubbles")) as H
    by (vm_compute; by left).
  split; [exact H|].
  exact (convert_bubbles_to_answers_clamps _ 50 (-30) H).
Defined.

(** *** Scoring *)

Lemma count_status_total (l : list comparison) :
  count_status Correct l + count_status Incorrect l + count_status Blank l
  = Z.of_nat (length l).
Proof.
  induction l as [|c l IH] using rev_ind.
  - reflexivity.
  - rewrite !count_status_snoc, length_app. simpl.
    destruct (status_of c); simpl; lia.
Qed.

(** The dictionary of answers after the loop. *)
Lemma foldl_score_question_answers self detected_answers (qs : list Z)
    (t : tally) :
  t_answers (foldl (score_question self detected_answers) t qs) =
    foldl (fun m q =>
             <[str_of_int q := default [] (detected_answers !! str_of_int q)]> m)
          (t_answers t) qs.
Proof.
  induction qs as [|q qs IH] using rev_ind; [done|].
  rewrite !foldl_snoc. cbn [score_question t_answers]. by rewrite IH.
Qed.

(** What [calculate_score] returns for a key that is not empty. *)
Lemma calculate_score_returns (self : SimpleHybridDemo)
    (detected_answers : gmap (list N) (list N)) :
  size (answer_key self) <> 0%nat ->
  let total := Z.of_nat (size (answer_key self)) in
  let cs := map (compare_question self detected_answers) (seqZ 1 total) in
  exists r,
    calculate_score self detected_answers = Returns r
    /\ detailed_comparison r = cs
    /\ total_questions (summary r) = total
    /\ correct_count (summary r) = count_status Correct cs
    /\ incorrect_count (summary r) = count_status Incorrect cs
    /\ blank_count (summary r) = count_status Blank cs
    /\ score_percentage (summary r)
       = (inject_Z (count_status Correct cs) / inject_Z total * 100)%Q
    /\ answers r =
         foldl (fun m q =>
                  <[str_of_int q :=
                      default [] (detected_answers !! str_of_int q)]> m)
               ∅ (seqZ 1 total).
Proof.
  intros Hsize total cs.
  assert ((total =? 0) = false) as Htotal by (apply Z.eqb_neq; lia).
  unfold calculate_score. fold total. rewrite Htotal.
  eexists. split; [reflexivity|]. cbn [detailed_comparison summary answers
    total_questions correct_count incorrect_count blank_count score_percentage].
  destruct (foldl_score_question self detected_answers (seqZ 1 total)
              {| t_correct := 0; t_incorrect := 0; t_blank := 0;
                 t_answers := ∅; t_comparison := [] |})
    as (Hc & H1 & H2 & H3).
  cbn [t_comparison t_correct t_incorrect t_blank] in *.
  rewrite Hc, H1, H2, H3, foldl_score_question_answers.
  repeat split; try done.
Qed.

Lemma percentage_bounds (c total : Z) :
  0 <= c <= total -> 0 < total ->
  (0 <= inject_Z c / inject_Z total * 100 <= 100)%Q.
Proof.
  intros Hc Ht. unfold Qle, Qdiv, Qmult, Qinv, inject_Z.
  destruct total as [|p|p]; try lia. simpl. nia.
Qed.

(** X5. With a key that is not empty, the three counters add up to the
    number of questions, the percentage lies between 0 and 100, the detailed
    list has one entry per question, and the recorded answers are exactly
    those of the questions 1..total_questions, an absent detection being
    recorded as the empty string. *)
Theorem calculate_score_tally (self : SimpleHybridDemo)
    (detected_answers : gmap (list N) (list N)) :
  size (answer_key self) <> 0%nat ->
  let total := Z.of_nat (size (answer_key self)) in
  exists r,
    calculate_score self detected_answers = Returns r
    /\ correct_count (summary r) + incorrect_count (summary r)
       + blank_count (summary r) = total
    /\ 0 <= correct_count (summary r)
    /\ 0 <= incorrect_count (summary r)
    /\ 0 <= blank_count (summary r)
    /\ (0 <= score_percentage (summary r) <= 100)%Q
    /\ length (detailed_comparison r) = size (answer_key self)
    /\ (forall q, 1 <= q <= total ->
          answers r !! str_of_int q
            = Some (default [] (detected_answers !! str_of_int q)))
    /\ (forall key, is_Some (answers r !! key) ->
          exists q, 1 <= q <= total /\ key = str_of_int q).
Proof.
  intros Hsize total.
  destruct (calculate_score_returns self detected_answers Hsize)
    as (r & Hr & Hcs & Ht & H1 & H2 & H3 & Hp & Ha).
  fold total in Hcs, Ht, H1, H2, H3, Hp, Ha.
  set (cs := map (compare_question self detected_answers) (seqZ 1 total)) in *.
  assert (length cs = size (answer_key self)) as Hlen.
  { subst cs. rewrite length_map, length_seqZ. lia. }
  pose proof (count_status_total cs) as Hsum.
  pose proof (count_status_le_length Correct cs).
  pose proof (count_status_le_length Incorrect cs).
  pose proof (count_status_le_length Blank cs).
  exists r. split; [exact Hr|]. rewrite H1, H2, H3, Hp, Hcs.
  split; [lia|]. split; [lia|]. split; [lia|]. split; [lia|].
  split; [apply percentage_bounds; lia|]. split; [exact Hlen|].
  rewrite Ha. split.
  - intros q Hq.
    apply (AnswerKeyManagerFacts.foldl_insert_member
             (fun q => default [] (detected_answers !! str_of_int q))).
    apply AnswerKeyManagerFacts.elem_of_seqZ_range. lia.
  - intros key [v Hv].
    apply (AnswerKeyManagerFacts.foldl_insert_origin
             (fun q => default [] (detected_answers !! str_of_int q)))
      in Hv as [(q & Hq & ->)|Hv].
    + exists q. split; [|done].
      apply AnswerKeyManagerFacts.elem_of_seqZ_range in Hq. lia.
    + by rewrite lookup_empty in Hv.
Qed.

Lemma calculate_score_tally_witness :
  size (answer_key init) <> 0%nat
  /\ exists r,
       calculate_score init {[ lit "1" := lit "4"; lit "2" := lit "9" ]}
         = Returns r
       /\ correct_count (summary r) + incorrect_count (summary r)
          + blank_count (summary r) = 15
       /\ (0 <= score_percentage (summary r) <= 100)%Q.
Proof.
  assert (size (answer_key init) <> 0%nat) as H by (vm_compute; lia).
  split; [exact H|].
  destruct (calculate_score_tally init
              {[ lit "1" := lit "4"; lit "2" := lit "9" ]} H)
    as (r & Hr & Hsum & _ & _ & _ & Hp & _).
  exists r. split; [exact Hr|]. split; [exact Hsum|exact Hp].
Defined.

(** X6. Scoring raises exactly when the answer key is empty, and what it
    raises then is the division by zero of the percentage; with any other
    key it returns. *)
Theorem calculate_score_raises_iff_empty (self : SimpleHybridDemo)
    (detected_answers : gmap (list N) (list N)) :
  (calculate_score self detected_answers = Raises ZeroDivisionError
   <-> answer_key self = ∅)
  /\ (raised (calculate_score self detected_answers) = false
      <-> answer_key self <> ∅).
Proof.
  unfold calculate_score.
  destruct (decide (answer_key self = ∅)) as [He|Hne].
  - rewrite He, map_size_empty. simpl. split; split; done.
  - assert (size (answer_key self) <> 0%nat) as Hs
      by (by intros H%map_size_empty_iff).
    assert ((Z.of_nat (size (answer_key self)) =? 0) = false) as ->
      by (apply Z.eqb_neq; lia).
    split; split; done.
Qed.

(** X7. A sheet whose detected tokens are the tokens of the key scores
    every question correct and 100 percent, provided the key holds a token
    that is not empty for each question 1..total_questions. *)
Theorem calculate_score_perfect (self : SimpleHybridDemo) :
  size (answer_key self) <> 0%nat ->
  (forall q, 1 <= q <= Z.of_nat (size (answer_key self)) ->
             exists t, answer_key self !! str_of_int q = Some t /\ t <> []) ->
  exists r,
    calculate_score self (answer_key self) = Returns r
    /\ correct_count (summary r) = Z.of_nat (size (answer_key self))
    /\ incorrect_count (summary r) = 0
    /\ blank_count (summary r) = 0
    /\ (score_percentage (summary r) == 100)%Q.
Proof.
  intros Hsize Hdense.
  destruct (calculate_score_returns self (answer_key self) Hsize)
    as (r & Hr & Hcs & _ & H1 & H2 & H3 & Hp & _).
  set (total := Z.of_nat (size (answer_key self))) in *.
  set (cs := map (compare_question self (answer_key self)) (seqZ 1 total)) in *.
  assert (Forall (fun c => status_of c = Correct) cs) as Hall.
  { subst cs. apply Forall_map, Forall_forall. intros q Hq.
    apply AnswerKeyManagerFacts.elem_of_seqZ_range in Hq.
    destruct (Hdense q) as (t & Ht & Hne); [lia|].
    unfold compare_question; cbn [status_of]. rewrite Ht. simpl.
    rewrite classify_cases. rewrite decide_False by done.
    by rewrite decide_True. }
  destruct (count_status_all _ _ Hall) as [Hc Hothers].
  assert (length cs = size (answer_key self)) as Hlen.
  { subst cs. rewrite length_map, length_seqZ. lia. }
  exists r. split; [exact Hr|].
  rewrite H1, H2, H3, Hp, Hc, !Hothers, Hlen by done.
  repeat split; try done.
  fold total. assert (0 < total) as Hpos by lia.
  unfold Qeq, Qdiv, Qmult, Qinv, inject_Z.
  destruct total as [|p|p]; try lia. simpl. lia.
Qed.

Lemma init_key_dense (q : Z) :
  1 <= q <= Z.of_nat (size (answer_key init)) ->
  exists t, answer_key init !! str_of_int q = Some t /\ t <> [].
Proof.
  intros Hq.
  assert (Z.of_nat (size (answer_key init)) = 15) as E by (vm_compute; reflexivity).
  rewrite E in Hq.
  assert (q = 1 \/ q = 2 \/ q = 3 \/ q = 4 \/ q = 5 \/ q = 6 \/ q = 7
          \/ q = 8 \/ q = 9 \/ q = 10 \/ q = 11 \/ q = 12 \/ q = 13
          \/ q = 14 \/ q = 15) as Hcases by lia.
  repeat (destruct Hcases as [->|Hcases];
          [eexists; split; [vm_compute; reflexivity|discriminate]|]).
  subst q. eexists; split; [vm_compute; reflexivity|discriminate].
Qed.

Lemma calculate_score_perfect_witness :
  size (answer_key init) <> 0%nat
  /\ exists r,
       calculate_score init (answer_key init) = Returns r
       /\ correct_count (summary r) = Z.of_nat (size (answer_key init))
       /\ incorrect_count (summary r) = 0
       /\ blank_count (summary r) = 0
       /\ (score_percentage (summary r) == 100)%Q.
Proof.
  assert (size (answer_key init) <> 0%nat) as H by (vm_compute; lia).
  split; [exact H|].
  exact (calculate_score_perfect init H init_key_dense).
Defined.

Lemma foldl_ext_in {A B} (f g : A -> B -> A) (l : list B) (a : A) :
  (forall x, x ∈ l -> forall a, f a x = g a x) -> foldl f a l = foldl g a l.
Proof.
  revert a. induction l as [|x l IH]; intros a H; [done|].
  simpl. rewrite H by (by left). apply IH.
  intros y Hy. apply H. by right.
Qed.

(** X8. Scoring reads the detections of the questions 1..total_questions
    and nothing else: detections filed under any other key have no
    influence on the result. *)
Theorem calculate_score_reads_questions_only (self : SimpleHybridDemo)
    (d1 d2 : gmap (list N) (list N)) :
  (forall q, 1 <= q <= Z.of_nat (size (answer_key self)) ->
             d1 !! str_of_int q = d2 !! str_of_int q) ->
  calculate_score self d1 = calculate_score self d2.
Proof.
  intros Hsame. unfold calculate_score.
  set (total := Z.of_nat (size (answer_key self))) in *.
  rewrite (foldl_ext_in (score_question self d1) (score_question self d2)).
  - done.
  - intros q Hq t. apply AnswerKeyManagerFacts.elem_of_seqZ_range in Hq.
    unfold score_question, compare_question.
    by rewrite (Hsame q) by lia.
Qed.

Lemma calculate_score_reads_questions_only_witness :
  calculate_score init ∅ = calculate_score init {[ lit "99" := lit "7" ]}.
Proof.
  apply (calculate_score_reads_questions_only init ∅ {[ lit "99" := lit "7" ]}).
  intros q Hq.
  assert (Z.of_nat (size (answer_key init)) = 15) as E
    by (vm_compute; reflexivity).
  rewrite E in Hq.
  rewrite lookup_empty. symmetry. apply lookup_singleton_ne.
  change (lit "99") with (str_of_int 99).
  intros H. apply (inj str_of_int) in H. lia.
Defined.

End SimpleDemoMore.

(** ** The summary of the demo *)

Module SimpleDemoMainFacts.
Import SimpleDemo SimpleDemoMain.

Lemma calculate_score_plausible self d r :
  calculate_score self d = Returns r -> plausible self r.
Proof.
  intros Hr.
  destruct (decide (size (answer_key self) = 0%nat)) as [Hz|Hnz].
  - unfold calculate_score in Hr. rewrite Hz in Hr. discriminate Hr.
  - destruct (SimpleDemoMore.calculate_score_tally self d Hnz)
      as (r' & Hr' & Hsum & H1 & H2 & H3 & Hp & _).
    rewrite Hr in Hr'. injection Hr' as <-.
    split; [lia|exact Hp].
Qed.

Lemma sum_percentages_bounds (ps : list Q) (a : Q) :
  Forall (fun p => (0 <= p <= 100)%Q) ps ->
  (a <= foldl Qplus a ps
   /\ foldl Qplus a ps <= a + 100 * inject_Z (Z.of_nat (length ps)))%Q.
Proof.
  intros H. revert a. induction H as [|p ps [Hp0 Hp1] _ IH]; intros a.
  - cbn [foldl length]. change (inject_Z (Z.of_nat 0)) with 0%Q.
    split; lra.
  - cbn [foldl length]. destruct (IH (a + p)%Q) as [IH0 IH1].
    rewrite Nat2Z.inj_succ, <- Z.add_1_r, inject_Z_plus.
    change (inject_Z 1) with 1%Q. split; lra.
Qed.

Lemma sum_correct_bounds (cs : list Z) (bound a : Z) :
  Forall (fun c => 0 <= c <= bound) cs ->
  a <= foldl Z.add a cs <= a + Z.of_nat (length cs) * bound.
Proof.
  intros H. revert a. induction H as [|c cs Hc _ IH]; intros a.
  - simpl. lia.
  - cbn [foldl length]. specialize (IH (a + c)). nia.
Qed.

Lemma average_bounds (s : Q) (n : Z) :
  0 < n -> (0 <= s)%Q -> (s <= 0 + 100 * inject_Z n)%Q ->
  (0 <= s / inject_Z n <= 100)%Q.
Proof.
  intros Hn H0 H1.
  assert (0 < inject_Z n)%Q as Hq
    by (unfold Qlt, inject_Z; simpl; lia).
  split.
  - apply Qle_shift_div_l; [exact Hq|]. lra.
  - apply Qle_shift_div_r; [exact Hq|]. lra.
Qed.

Lemma length_successful_failed (batch : list entry) :
  (length (successful_of batch) + length (failed_of batch))%nat
  = length batch.
Proof.
  unfold successful_of, failed_of.
  induction batch as [|e batch IH]; [reflexivity|].
  destruct e; cbn [omap list_omap].
  - rewrite filter_cons_False by (simpl; congruence). simpl.
    cbn [omap list_omap] in IH. lia.
  - rewrite filter_cons_True by reflexivity. simpl.
    cbn [omap list_omap] in IH. lia.
Qed.

(** The summary of any batch whose scored entries are plausible. *)
Lemma main_summary_bounds (demo : SimpleHybridDemo) (batch : list entry) :
  Forall (plausible demo) (successful_of batch) ->
  let s := main_summary demo batch in
  total_images s = Z.of_nat (length batch)
  /\ successfully_processed s + failed_images s = total_images s
  /\ (0 <= avg_score s <= 100)%Q
  /\ 0 <= total_correct s <= total_questions_scored s
  /\ (successfully_processed s = 0 ->
      avg_score s = 0%Q /\ total_correct s = 0
      /\ total_questions_scored s = 0).
Proof.
  intros Hall. unfold main_summary.
  cbn [total_images successfully_processed failed_images avg_score
       total_correct total_questions_scored].
  pose proof (length_successful_failed batch) as Hlen.
  split; [reflexivity|]. split; [lia|].
  destruct (successful_of batch) as [|r0 rest] eqn:E.
  - split; [split; [apply Qle_refl|discriminate]|]. split; [lia|done].
  - set (ok := r0 :: rest) in *.
    assert (0 < Z.of_nat (length ok)) as Hn by (subst ok; simpl; lia).
    split; [|split; [|intros Hzero; lia]].
    + assert (Forall (fun p => (0 <= p <= 100)%Q)
                (map (fun r => score_percentage (summary r)) ok)) as Hps.
      { apply Forall_map. eapply Forall_impl; [exact Hall|].
        by intros r [_ Hp]. }
      destruct (sum_percentages_bounds _ 0%Q Hps) as [H0 H1].
      rewrite length_map in H1.
      by apply average_bounds.
    + assert (Forall (fun c => 0 <= c <= Z.of_nat (size (answer_key demo)))
                (map (fun r => correct_count (summary r)) ok)) as Hcs.
      { apply Forall_map. eapply Forall_impl; [exact Hall|].
        by intros r [Hc _]. }
      pose proof (sum_correct_bounds _ _ 0 Hcs) as Hb.
      rewrite length_map in Hb. lia.
Qed.

(** X9. After any batch of the demo, the summary of [main] is sound: the
    processed and the failed images add up to the images of the batch, the
    failed ones being the images whose detection or scoring raised; the
    average score lies between 0 and 100; the correct answers counted do
    not exceed the questions scored; and when no image was processed the
    average, the correct answers and the questions scored are all 0, with
    no division by zero. *)
Theorem main_summary_of_batch
    (detect_bubbles_simple : list N -> outcome (gmap (list N) (list (Z * Z))))
    (demo : SimpleHybridDemo) (image_files : list (list N)) :
  exists batch,
    process_batch detect_bubbles_simple demo image_files = Returns batch
    /\ total_images (main_summary demo batch)
       = Z.of_nat (length image_files)
    /\ successfully_processed (main_summary demo batch)
       + failed_images (main_summary demo batch)
       = total_images (main_summary demo batch)
    /\ failed_images (main_summary demo batch)
       = Z.of_nat (length (filter
           (fun img =>
              raised (detected ← detect_bubbles_simple img;
                      calculate_score demo
                        (convert_bubbles_to_answers detected)) = true)
           image_files))
    /\ (0 <= avg_score (main_summary demo batch) <= 100)%Q
    /\ 0 <= total_correct (main_summary demo batch)
       <= total_questions_scored (main_summary demo batch)
    /\ (successfully_processed (main_summary demo batch) = 0 ->
        avg_score (main_summary demo batch) = 0%Q
        /\ total_correct (main_summary demo batch) = 0
        /\ total_questions_scored (main_summary demo batch) = 0).
Proof.
  set (g := fun img =>
         match detect_bubbles_simple img with
         | Raises e => Failed img e (lit "failed")
         | Returns detected =>
             match calculate_score demo
                     (convert_bubbles_to_answers detected) with
             | Raises e => Failed img e (lit "failed")
             | Returns r => Scored r img (lit "Python OpenCV")
             end
         end).
  exists (map g image_files).
  split.
  - unfold process_batch. apply BatchFacts.mapM_returns. intros img.
    apply BatchFacts.simple_process_single_image_returns.
  - assert (Forall (plausible demo) (successful_of (map g image_files)))
      as Hall.
    { unfold successful_of. induction image_files as [|img l IH];
        [constructor|].
      cbn [map omap list_omap]. unfold g at 1.
      destruct (detect_bubbles_simple img) as [d|e]; [|exact IH].
      destruct (calculate_score demo _) as [r|e] eqn:Hr; [|exact IH].
      constructor; [|exact IH]. by eapply calculate_score_plausible. }
    destruct (main_summary_bounds demo _ Hall) as (H1 & H2 & H3 & H4 & H5).
    rewrite length_map in H1.
    split; [done|]. split; [done|]. split; [|done].
    unfold main_summary, failed_of. cbn [failed_images]. f_equal.
    rewrite (BatchFacts.length_filter_map is_failed).
    f_equal. apply list_filter_iff. intros img. unfold g.
    destruct (detect_bubbles_simple img) as [d|e]; simpl; [|done].
    by destruct (calculate_score demo _).
Qed.

End SimpleDemoMainFacts.

(** ** The hybrid scorer and its report *)

Module HybridMore.
Import HybridScorer MainHybrid.

Lemma mapM_ext {A B} (f g : A -> outcome B) (l : list A) :
  (forall x, f x = g x) -> mapM f l = mapM g l.
Proof.
  intros H. induction l as [|x l IH]; [reflexivity|].
  simpl. by rewrite H, IH.
Qed.

(** X10. The results of a batch depend neither on the answer key that is
    passed in nor on what the C program wrote: two runs in which the C
    detection succeeds on the same images give the same entries, whatever
    the C outputs and the answer keys are. *)
Theorem process_batch_ignores_key_and_c_output
    (c_output1 c_output2 score : Type)
    (detect1 : list N -> list N -> outcome c_output1)
    (detect2 : list N -> list N -> outcome c_output2)
    (fallback : list N -> outcome (gmap (list N) (list (Z * Z))))
    (backend : sheet_data -> outcome score)
    (image_files : list (list N)) (key1 key2 : gmap (list N) (list N)) :
  (forall img dir, raised (detect1 img dir) = raised (detect2 img dir)) ->
  process_batch c_output1 score detect1 fallback backend image_files key1
  = process_batch c_output2 score detect2 fallback backend image_files key2.
Proof.
  intros Hsame. unfold process_batch. apply mapM_ext. intros img.
  f_equal. unfold process_single_image, score_with_answers.
  specialize (Hsame img (lit "results/c_output")).
  destruct (detect1 img _), (detect2 img _); simpl in *;
    try discriminate; reflexivity.
Qed.

Lemma process_batch_ignores_key_and_c_output_witness :
  process_batch unit Z
    (fun _ _ => Returns tt) sample_fallback sample_backend
    [lit "a.png"; lit "c.png"] ∅
  = process_batch Z Z
      (fun _ _ => Returns 5) sample_fallback sample_backend
      [lit "a.png"; lit "c.png"] {[ lit "1" := lit "4" ]}.
Proof.
  apply (process_batch_ignores_key_and_c_output unit Z Z
           (fun _ _ => Returns tt) (fun _ _ => Returns 5)).
  intros img dir. reflexivity.
Defined.

(** *** The performance report *)

(** What the loop of the report keeps true. *)
Lemma count_result_invariant (results : list result) :
  let c := foldl count_result
                 {| n_successful := 0; n_failed := 0; n_c := 0;
                    n_fallback := 0; total_scores := []; rows := [] |}
                 results in
  n_successful c + n_failed c = Z.of_nat (length results)
  /\ n_failed c
     = Z.of_nat (length (filter (fun r => is_Some (r_error r)) results))
  /\ 0 <= n_successful c
  /\ 0 <= n_c c /\ 0 <= n_fallback c
  /\ n_c c + n_fallback c <= n_successful c
  /\ (Forall (fun r => r_error r = None ->
                       r_detection_method r = Some (lit "C-based")
                       \/ r_detection_method r = Some (lit "Python fallback"))
             results ->
      n_c c + n_fallback c = n_successful c)
  /\ (Z.of_nat (length (total_scores c)) <= n_successful c)
  /\ rows c = map row_of results.
Proof.
  induction results as [|r l IH] using rev_ind.
  - cbn. split_and!; try lia; done.
  - rewrite foldl_snoc, length_app, filter_app, length_app, map_app.
    set (c := foldl count_result _ l) in *. cbn zeta in IH.
    destruct IH as (Hsum & Hfail & Hs & Hc & Hf & Hle & Hexact & Hsc & Hrows).
    unfold count_result.
    cbn [n_successful n_failed n_c n_fallback total_scores rows].
    rewrite Hrows. fold (row_of r).
    destruct (r_error r) as [e|] eqn:Eerr.
    + rewrite bool_decide_true by (by eexists).
      rewrite filter_cons_True by (by rewrite Eerr; eexists).
      rewrite filter_nil. cbn [length map]. split_and!; try lia; try done.
      intros Hall. apply Forall_app in Hall as [Hall _]. by apply Hexact.
    + rewrite bool_decide_false by (by intros [? ?]).
      rewrite filter_cons_False by (rewrite Eerr; by intros [? ?]).
      rewrite filter_nil. cbn [length map].
      assert (Z.of_nat (length (match r_score r with
                                | Some s => total_scores c ++ [s]
                                | None => total_scores c
                                end)) <= n_successful c + 1) as Hsc'.
      { destruct (r_score r); [rewrite length_app; simpl|]; lia. }
      destruct (bool_decide (r_detection_method r = Some (lit "C-based")))
        eqn:EC;
        [|destruct (bool_decide
                      (r_detection_method r = Some (lit "Python fallback")))
            eqn:EF];
        (split_and!; try lia; try done;
         intros Hall; apply Forall_app in Hall as [Hall Hr];
         specialize (Hexact Hall);
         apply List.Forall_inv in Hr; specialize (Hr Eerr);
         try lia).
      apply bool_decide_eq_false in EC, EF. by destruct Hr.
Qed.

(** X11. The performance report of any list of results: every result is
    counted once, as successful or as failed (failed when it holds an
    error); the C-based and the fallback detections are counted among the
    successful ones only; there is one detail row per result, in the order
    of the results; both rates lie between 0 and 100; for an empty list
    both rates and the average score are 0, with no division by zero, and
    for any other list the rates are the successful and the C-based
    detections divided by the number of results, times 100. *)
Theorem generate_performance_report_counts (results : list result) :
  let rep := generate_performance_report results in
  let s := summary rep in
  total_images s = Z.of_nat (length results)
  /\ successful_detections s + failed_detections s = total_images s
  /\ failed_detections s
     = Z.of_nat (length (filter (fun r => is_Some (r_error r)) results))
  /\ 0 <= c_detections s /\ 0 <= python_fallback_detections s
  /\ c_detections s + python_fallback_detections s <= successful_detections s
  /\ detailed_results rep = map row_of results
  /\ (0 <= detection_success_rate (metrics rep) <= 100)%Q
  /\ (0 <= c_detection_rate (metrics rep) <= 100)%Q
  /\ (results = [] ->
      detection_success_rate (metrics rep) = 0%Q
      /\ c_detection_rate (metrics rep) = 0%Q
      /\ average_score (metrics rep) = 0%Q)
  /\ (results <> [] ->
      detection_success_rate (metrics rep)
      = (inject_Z (successful_detections s) / inject_Z (total_images s)
         * 100)%Q
      /\ c_detection_rate (metrics rep)
         = (inject_Z (c_detections s) / inject_Z (total_images s) * 100)%Q).
Proof.
  intros rep s. subst s rep. unfold generate_performance_report.
  cbn [summary metrics detailed_results total_images successful_detections
       failed_detections c_detections python_fallback_detections
       detection_success_rate c_detection_rate average_score].
  destruct (count_result_invariant results)
    as (Hsum & Hfail & Hs & Hc & Hf & Hle & _ & _ & Hrows).
  cbn zeta in *.
  split; [done|]. split; [done|]. split; [done|]. split; [done|].
  split; [done|]. split; [done|]. split; [done|].
  destruct results as [|r0 rest]; [by split_and!|].
  set (results := r0 :: rest) in *.
  set (c := foldl count_result _ results) in *.
  assert (0 <= n_failed c) as Hnf by lia.
  assert (0 < Z.of_nat (length results)) as Hpos by (subst results; simpl; lia).
  apply Z.ltb_lt in Hpos as Hlt. rewrite Hlt.
  split; [apply SimpleDemoMore.percentage_bounds; lia|].
  split; [apply SimpleDemoMore.percentage_bounds; lia|].
  split; [done|]. by intros _.
Qed.

Section FromBatch.

Variable c_output : Type.
Variable score_type : Type.
Variable backend_error : score_type -> option exception.
Variable backend_score : score_type -> option Q.
Variable detect_bubbles_c : list N -> list N -> outcome c_output.
Variable detect_bubbles_python_fallback :
  list N -> outcome (gmap (list N) (list (Z * Z))).
Variable calculate_sheet_score : sheet_data -> outcome score_type.

Let single :=
  process_single_image c_output score_type detect_bubbles_c
    detect_bubbles_python_fallback calculate_sheet_score.

(** A scored entry names one of the two detection methods and the image
    that was processed. *)
Lemma process_single_image_method img answer_key e :
  single img answer_key = Returns e ->
  exists r method,
    e = Scored r method img
    /\ (method = lit "C-based" \/ method = lit "Python fallback").
Proof.
  unfold single, process_single_image, score_with_answers.
  destruct (detect_bubbles_c _ _) as [c|ex]; simpl.
  - destruct (calculate_sheet_score _); simpl; [|discriminate].
    intros [= <-]. eexists _, _. split; [done|by left].
  - destruct (detect_bubbles_python_fallback _); simpl; [|discriminate].
    destruct (calculate_sheet_score _); simpl; [|discriminate].
    intros [= <-]. eexists _, _. split; [done|by right].
Qed.

(** X12. The report of a batch of the hybrid scorer, when the results of
    the backend hold no error of their own: the failed detections are the
    images whose processing raised, the successful ones are the others, and
    every successful one is counted either as C-based or as a fallback
    detection. *)
Theorem report_of_batch (image_files : list (list N))
    (answer_key : gmap (list N) (list N)) :
  (forall r, backend_error r = None) ->
  exists batch,
    process_batch c_output score_type detect_bubbles_c
      detect_bubbles_python_fallback calculate_sheet_score
      image_files answer_key = Returns batch
    /\ let s := summary (generate_performance_report
                           (map (result_of_entry score_type backend_error
                                   backend_score) batch)) in
       total_images s = Z.of_nat (length image_files)
       /\ failed_detections s
          = Z.of_nat (length (filter
               (fun img => raised (single img answer_key) = true)
               image_files))
       /\ successful_detections s
          = Z.of_nat (length (filter
               (fun img => raised (single img answer_key) = false)
               image_files))
       /\ c_detections s + python_fallback_detections s
          = successful_detections s.
Proof.
  intros Hclean.
  set (g := fun img => match single img answer_key with
                       | Returns r => r
                       | Raises e => Failed img e (lit "failed")
                       end).
  set (to_result := result_of_entry score_type backend_error backend_score).
  exists (map g image_files). split.
  { unfold process_batch. apply BatchFacts.mapM_returns. intros img.
    unfold g, single.
    by destruct (process_single_image _ _ _ _ _ img answer_key). }
  cbn zeta. unfold generate_performance_report.
  cbn [summary total_images successful_detections failed_detections
       c_detections python_fallback_detections].
  destruct (count_result_invariant (map to_result (map g image_files)))
    as (Hsum & Hfail & _ & _ & _ & _ & Hexact & _ & _).
  cbn zeta in *. set (c := foldl count_result _ _) in *.
  rewrite !length_map in Hsum. rewrite !length_map.
  assert (forall img, is_Some (r_error (to_result (g img)))
                      <-> raised (single img answer_key) = true) as Herr.
  { intros img. unfold g.
    destruct (single img answer_key) as [e|ex] eqn:E; simpl.
    - apply process_single_image_method in E as (r & m & -> & _).
      simpl. rewrite Hclean. split; [by intros [? ?]|done].
    - split; [done|by eexists]. }
  assert (length (filter (fun r => is_Some (r_error r))
                         (map to_result (map g image_files)))
          = length (filter (fun img => raised (single img answer_key) = true)
                           image_files)) as Hcount.
  { clear -Herr. induction image_files as [|img l IH]; [done|].
    cbn [map]. destruct (raised (single img answer_key)) eqn:E.
    - rewrite filter_cons_True by (by apply Herr).
      rewrite (filter_cons_True _ img) by done. simpl. by rewrite IH.
    - rewrite filter_cons_False by (rewrite Herr; congruence).
      rewrite (filter_cons_False _ img) by (cbv beta; congruence). done. }
  assert ((length (filter (fun img => raised (single img answer_key) = true)
                          image_files)
           + length (filter (fun img => raised (single img answer_key) = false)
                            image_files))%nat = length image_files) as Hpart.
  { clear. induction image_files as [|img l IH]; [done|].
    destruct (raised (single img answer_key)) eqn:E.
    - rewrite (filter_cons_True _ img) by done.
      rewrite (filter_cons_False _ img) by (cbv beta; congruence).
      simpl. lia.
    - rewrite (filter_cons_False _ img) by (cbv beta; congruence).
      rewrite (filter_cons_True _ img) by done.
      simpl. lia. }
  rewrite Hcount in Hfail.
  split; [done|]. split; [done|]. split; [lia|].
  apply Hexact. apply Forall_map, Forall_map, Forall_forall.
  intros img _ Hnone. unfold g in *.
  destruct (single img answer_key) as [e|ex] eqn:E; simpl in *.
  - apply process_single_image_method in E as (r & m & -> & [->| ->]);
      simpl; [by left|by right].
  - discriminate Hnone.
Qed.

End FromBatch.

Lemma report_of_batch_witness :
  exists batch,
    process_batch unit Z sample_detect_bubbles_c sample_fallback
      sample_backend [lit "a.png"; lit "c.png"; lit "b.png"] ∅
      = Returns batch
    /\ total_images
         (summary (generate_performance_report
            (map (result_of_entry Z (fun _ => None) (fun _ => None)) batch)))
       = 3
    /\ failed_detections
         (summary (generate_performance_report
            (map (result_of_entry Z (fun _ => None) (fun _ => None)) batch)))
       = 1
    /\ successful_detections
         (summary (generate_performance_report
            (map (result_of_entry Z (fun _ => None) (fun _ => None)) batch)))
       = 2.
Proof.
  destruct (report_of_batch unit Z (fun _ => None) (fun _ => None)
              sample_detect_bubbles_c sample_fallback sample_backend
              [lit "a.png"; lit "c.png"; lit "b.png"] ∅ (fun _ => eq_refl))
    as (batch & Hb & Ht & Hf & Hs & _).
  exists batch. split; [exact Hb|].
  split; [exact Ht|]. split; [exact Hf|exact Hs].
Defined.

End HybridMore.

(** ** More on [calibrate_positions.py] *)

Module CalibratePositionsMore.
Import PyStr CalibratePositions CalibrateColumns.
Import CalibratePositionsFacts.

(** *** The columns of the recommended mapping *)

Lemma generate_numeric_mapping_columns (x_min x_max : Q) :
  generate_numeric_mapping x_min x_max
  = columns_from x_min ((x_max - x_min) / inject_Z 13)%Q 0 labels.
Proof. reflexivity. Qed.

Lemma columns_from_cons x_min w i label ls :
  columns_from x_min w i (label :: ls)
  = (label, ((x_min + inject_Z (Z.of_nat i) * w)%Q,
             (x_min + (inject_Z (Z.of_nat i) + 1) * w)%Q))
      :: columns_from x_min w (S i) ls.
Proof.
  unfold columns_from. rewrite imap_cons. rewrite Nat.add_0_r. f_equal.
  apply imap_ext. intros j l _. simpl. by rewrite Nat.add_succ_r.
Qed.

Lemma columns_from_labels x_min w i ls :
  map fst (columns_from x_min w i ls) = ls.
Proof.
  revert i. induction ls as [|l ls IH]; intros i; [done|].
  rewrite columns_from_cons. simpl. by rewrite IH.
Qed.

Lemma labels_at_cons label a b mapping x :
  labels_at ((label, (a, b)) :: mapping) x
  = if Qle_bool a x && Qltb x b
    then label :: labels_at mapping x
    else labels_at mapping x.
Proof.
  unfold labels_at. rewrite filter_cons. simpl.
  destruct (Qle_bool a x && Qltb x b) eqn:E.
  - rewrite decide_True by done. done.
  - rewrite decide_False by done. done.
Qed.

Lemma inject_Z_S (i : nat) :
  (inject_Z (Z.of_nat (S i)) == inject_Z (Z.of_nat i) + 1)%Q.
Proof. rewrite Nat2Z.inj_succ. unfold Z.succ. by rewrite inject_Z_plus. Qed.

Lemma inject_Z_nat_nonneg (n : nat) : (0 <= inject_Z (Z.of_nat n))%Q.
Proof. change 0%Q with (inject_Z 0). rewrite <- Zle_Qle. lia. Qed.

(** A position left of the column at index [i] lies in none of the
    columns from [i] on. *)
Lemma columns_from_before x_min w i ls x :
  (0 < w)%Q ->
  (x < x_min + inject_Z (Z.of_nat i) * w)%Q ->
  labels_at (columns_from x_min w i ls) x = [].
Proof.
  intros Hw. revert i. induction ls as [|l ls IH]; intros i Hx; [done|].
  rewrite columns_from_cons, labels_at_cons.
  assert (Qle_bool (x_min + inject_Z (Z.of_nat i) * w) x = false) as ->.
  { apply not_true_is_false. rewrite Qle_bool_iff. lra. }
  simpl. apply IH. rewrite inject_Z_S. lra.
Qed.

(** A position within the columns from [i] on lies in exactly one. *)
Lemma columns_from_within x_min w i ls x :
  (0 < w)%Q ->
  (x_min + inject_Z (Z.of_nat i) * w <= x)%Q ->
  (x < x_min + inject_Z (Z.of_nat (i + length ls)) * w)%Q ->
  exists label,
    label ∈ ls /\ labels_at (columns_from x_min w i ls) x = [label].
Proof.
  intros Hw. revert i. induction ls as [|l ls IH]; intros i Hlo Hhi.
  - simpl in Hhi. rewrite Nat.add_0_r in Hhi. lra.
  - rewrite columns_from_cons, labels_at_cons.
    assert (Qle_bool (x_min + inject_Z (Z.of_nat i) * w) x = true) as ->
      by (by apply Qle_bool_iff).
    simpl.
    destruct (Qltb x (x_min + (inject_Z (Z.of_nat i) + 1) * w)) eqn:E.
    + apply Qltb_lt in E. exists l. split; [by left|].
      rewrite columns_from_before; [done|done|].
      rewrite inject_Z_S. lra.
    + apply Qltb_ge in E.
      destruct (IH (S i)) as (label & Hin & Heq).
      * rewrite inject_Z_S. lra.
      * simpl in Hhi. by rewrite Nat.add_succ_r in Hhi.
      * exists label. split; [by right|done].
Qed.

(** A position that lies in one of the columns from [i] on lies between
    the start of the first and the end of the last of them. *)
Lemma columns_from_outside x_min w i ls x :
  labels_at (columns_from x_min w i ls) x <> [] ->
  (x_min + inject_Z (Z.of_nat i) * w <= x)%Q
  /\ (x < x_min + inject_Z (Z.of_nat (i + length ls)) * w)%Q.
Proof.
  revert i. induction ls as [|l ls IH]; intros i; [done|].
  rewrite columns_from_cons, labels_at_cons.
  pose proof (inject_Z_nat_nonneg (length ls)) as Hn.
  assert (inject_Z (Z.of_nat (i + length (l :: ls)))
          == inject_Z (Z.of_nat i) + 1 + inject_Z (Z.of_nat (length ls)))%Q
    as Hlen.
  { simpl. rewrite Nat.add_succ_r, inject_Z_S, Nat2Z.inj_add, inject_Z_plus.
    ring. }
  rewrite Hlen.
  destruct (Qle_bool _ x && Qltb x _) eqn:E.
  - intros _. apply andb_true_iff in E as [Elo Ehi].
    apply Qle_bool_iff in Elo. apply Qltb_lt in Ehi.
    assert (0 < w)%Q as Hw by lra.
    pose proof (Qmult_le_0_compat _ _ Hn (Qlt_le_weak _ _ Hw)) as Hnw.
    split; [done|]. lra.
  - intros H. destruct (IH (S i) H) as [Hlo Hhi].
    rewrite inject_Z_S in Hlo.
    rewrite Nat.add_succ_l, inject_Z_S, Nat2Z.inj_add, inject_Z_plus in Hhi.
    assert (0 < w)%Q as Hw.
    { destruct (Qlt_le_dec 0 w) as [?|Hneg]; [done|].
      assert (0 <= inject_Z (Z.of_nat (length ls)) * - w)%Q
        by (apply Qmult_le_0_compat; [done|lra]).
      lra. }
    split; lra.
Qed.

Lemma columns_from_lookup x_min w i ls (k : nat) label :
  ls !! k = Some label ->
  columns_from x_min w i ls !! k
  = Some (label,
          ((x_min + inject_Z (Z.of_nat (i + k)) * w)%Q,
           (x_min + (inject_Z (Z.of_nat (i + k)) + 1) * w)%Q)).
Proof.
  intros Hk. unfold columns_from. by rewrite list_lookup_imap, Hk.
Qed.

(** X13. The thirteen columns of [generate_numeric_mapping] carry the
    thirteen labels in order, all different; the first column starts at
    x_min, and every column starts where the one before it ends.  So the
    columns divide the half-open range from the start of the first to the
    end of the last: a position in it lies in exactly one column, and a
    position outside it lies in none (as does every position when x_max is
    not above x_min). *)
Theorem generate_numeric_mapping_partitions (x_min x_max x : Q) :
  let mapping := generate_numeric_mapping x_min x_max in
  map fst mapping = labels
  /\ NoDup labels
  /\ exists first_start first_end last_start last_end,
       mapping !! 0%nat
       = Some ([not_sign; plus_minus], (first_start, first_end))
       /\ mapping !! 12%nat = Some (lit "9", (last_start, last_end))
       /\ (first_start == x_min)%Q
       /\ (forall (k : nat) la a b lb c d,
             mapping !! k = Some (la, (a, b)) ->
             mapping !! S k = Some (lb, (c, d)) ->
             (b == c)%Q)
       /\ ((first_start <= x)%Q /\ (x < last_end)%Q ->
           exists label, label ∈ labels /\ labels_at mapping x = [label])
       /\ (~ ((first_start <= x)%Q /\ (x < last_end)%Q) ->
           labels_at mapping x = [])
       /\ ((x_max <= x_min)%Q -> labels_at mapping x = []).
Proof.
  intros mapping. subst mapping. rewrite generate_numeric_mapping_columns.
  set (w := ((x_max - x_min) / inject_Z 13)%Q).
  assert (13 * w == x_max - x_min)%Q as Hw by (unfold w; field).
  clearbody w.
  split; [apply columns_from_labels|]. split.
  { apply (bool_decide_unpack (NoDup labels)). by vm_compute. }
  eexists _, _, _, _.
  split; [by apply columns_from_lookup|].
  split; [by apply columns_from_lookup|].
  change (inject_Z (Z.of_nat (0 + 0))) with 0%Q.
  change (inject_Z (Z.of_nat (0 + 12))) with 12%Q.
  assert (inject_Z (Z.of_nat (0 + length labels)) == 13)%Q as Hlen
    by reflexivity.
  split; [ring|]. split; [|split; [|split]].
  - intros k la a b lb c d Hk HSk.
    destruct (labels !! k) as [l1|] eqn:E1.
    2:{ apply lookup_ge_None in E1.
        apply lookup_lt_Some in Hk.
        unfold columns_from in Hk. rewrite length_imap in Hk. lia. }
    destruct (labels !! S k) as [l2|] eqn:E2.
    2:{ apply lookup_ge_None in E2.
        apply lookup_lt_Some in HSk.
        unfold columns_from in HSk. rewrite length_imap in HSk. lia. }
    rewrite (columns_from_lookup _ _ _ _ _ _ E1) in Hk.
    rewrite (columns_from_lookup _ _ _ _ _ _ E2) in HSk.
    injection Hk as _ _ <-. injection HSk as _ <- _.
    cbn [Nat.add]. rewrite inject_Z_S. ring.
  - intros [Hlo Hhi]. apply columns_from_within.
    + lra.
    + change (inject_Z (Z.of_nat 0)) with 0%Q. lra.
    + rewrite Hlen. lra.
  - intros Hout.
    destruct (labels_at (columns_from x_min w 0 labels) x) as [|l ls] eqn:E;
      [done|].
    exfalso. apply Hout.
    destruct (columns_from_outside x_min w 0 labels x) as [Hlo Hhi].
    { by rewrite E. }
    change (inject_Z (Z.of_nat 0)) with 0%Q in Hlo.
    rewrite Hlen in Hhi. split; lra.
  - intros Hle.
    destruct (labels_at (columns_from x_min w 0 labels) x) as [|l ls] eqn:E;
      [done|].
    exfalso.
    destruct (columns_from_outside x_min w 0 labels x) as [Hlo Hhi].
    { by rewrite E. }
    change (inject_Z (Z.of_nat 0)) with 0%Q in Hlo.
    rewrite Hlen in Hhi. lra.
Qed.

(** *** What the analysis reports *)

Lemma analyze_numeric_positions_some (loaded : outcome (list sheet)) a :
  analyze_numeric_positions loaded = Returns (Some a) ->
  exists data first others,
    loaded = Returns data
    /\ all_positions_of data = first :: others
    /\ a = analyze_positions data first others.
Proof.
  unfold analyze_numeric_positions.
  destruct loaded as [data|e]; simpl; [|discriminate].
  destruct (all_positions_of data) as [|first others] eqn:E; simpl;
    [discriminate|].
  intros [= <-]. by exists data, first, others.
Qed.

Lemma sheet_count_of_positive (data : list sheet) :
  all_positions_of data <> [] -> 1 <= sheet_count_of data.
Proof.
  unfold sheet_count_of, all_positions_of.
  induction data as [|s d IH]; [done|]. simpl.
  destruct (detected_answers s) as [answers|] eqn:E.
  - intros _. rewrite filter_cons_True by (by rewrite E; eexists).
    simpl. lia.
  - unfold positions_of_sheet at 1. rewrite E. simpl. intros H.
    rewrite filter_cons_False by (rewrite E; by intros [? ?]).
    by apply IH.
Qed.

(** X14. An analysis that is not empty reports what it read: the number of
    positions collected from the sheets, at least one; the number of sheets
    that hold detected answers, at least one and at most the number of
    sheets; and coordinate ranges whose ends are coordinates of collected
    positions and enclose the coordinates of all of them. *)
Theorem analyze_numeric_positions_ranges (data : list sheet) (a : analysis) :
  analyze_numeric_positions (Returns data) = Returns (Some a) ->
  let positions := all_positions_of data in
  total_marks_analyzed a = Z.of_nat (length positions)
  /\ 1 <= total_marks_analyzed a
  /\ 1 <= sheet_count a <= Z.of_nat (length data)
  /\ fst (x_coordinate_range a) ∈ map fst positions
  /\ snd (x_coordinate_range a) ∈ map fst positions
  /\ fst (y_coordinate_range a) ∈ map snd positions
  /\ snd (y_coordinate_range a) ∈ map snd positions
  /\ (forall p, p ∈ positions ->
       fst (x_coordinate_range a) <= fst p <= snd (x_coordinate_range a)
       /\ fst (y_coordinate_range a) <= snd p <= snd (y_coordinate_range a)).
Proof.
  intros H positions. subst positions.
  apply analyze_numeric_positions_some
    in H as (data' & first & others & [= <-] & Hpos & ->).
  rewrite Hpos. unfold analyze_positions.
  cbn [total_marks_analyzed sheet_count x_coordinate_range
       y_coordinate_range fst snd].
  destruct (min_of_spec (fst first) (map fst others)) as [Hxmin Hxlo].
  destruct (max_of_spec (fst first) (map fst others)) as [Hxmax Hxhi].
  destruct (min_of_spec (snd first) (map snd others)) as [Hymin Hylo].
  destruct (max_of_spec (snd first) (map snd others)) as [Hymax Hyhi].
  split; [done|]. split; [simpl; lia|]. split.
  { split.
    - apply sheet_count_of_positive. by rewrite Hpos.
    - unfold sheet_count_of. apply inj_le, length_filter. }
  split; [done|]. split; [done|]. split; [done|]. split; [done|].
  intros p Hp.
  assert (fst p ∈ fst first :: map fst others) as Hx
    by (by apply (list_elem_of_fmap_2 fst (first :: others))).
  assert (snd p ∈ snd first :: map snd others) as Hy
    by (by apply (list_elem_of_fmap_2 snd (first :: others))).
  split; split; auto.
Qed.

Lemma analyze_numeric_positions_ranges_witness :
  total_marks_analyzed (analyze_positions two_marks (0, 40) [(1200, 140)])
  = 2
  /\ x_coordinate_range (analyze_positions two_marks (0, 40) [(1200, 140)])
     = (0, 1200).
Proof.
  split.
  - exact (proj1 (analyze_numeric_positions_ranges two_marks
                    (analyze_positions two_marks (0, 40) [(1200, 140)])
                    eq_refl)).
  - reflexivity.
Defined.

(** X15. The thirteen boundaries start half a column right of the smallest
    x coordinate and end half a column right of the greatest one: for
    samples that differ in x, the last boundary lies beyond every sample,
    and the first lies strictly within their range. *)
Theorem analyze_numeric_positions_boundary_span
    (data : list sheet) (a : analysis) :
  analyze_numeric_positions (Returns data) = Returns (Some a) ->
  let x_min := inject_Z (fst (x_coordinate_range a)) in
  let x_max := inject_Z (snd (x_coordinate_range a)) in
  exists b0 b12,
    length (boundary_values a) = 13%nat
    /\ boundary_values a !! 0%nat = Some b0
    /\ boundary_values a !! 12%nat = Some b12
    /\ (0 <= column_width a)%Q
    /\ (b0 == x_min + column_width a / 2)%Q
    /\ (b12 == x_max + column_width a / 2)%Q
    /\ (fst (x_coordinate_range a) < snd (x_coordinate_range a) ->
        (x_min < b0)%Q /\ (b0 < x_max)%Q /\ (x_max < b12)%Q
        /\ forall p, p ∈ all_positions_of data ->
                     (inject_Z (fst p) < b12)%Q).
Proof.
  intros H x_min x_max.
  apply analyze_numeric_positions_some
    in H as (data' & first & others & [= <-] & Hpos & ->).
  destruct (min_of_spec (fst first) (map fst others)) as [_ Hxlo].
  destruct (max_of_spec (fst first) (map fst others)) as [Hxmax Hxhi].
  assert (min_of (fst first) (map fst others)
          <= max_of (fst first) (map fst others)) as Hle by auto.
  assert (forall p, p ∈ all_positions_of data ->
                    fst p <= max_of (fst first) (map fst others)) as Hall.
  { intros p Hp. rewrite Hpos in Hp. apply Hxhi.
    by apply (list_elem_of_fmap_2 fst (first :: others)). }
  subst x_min x_max. rewrite boundary_values_analyze.
  unfold analyze_positions.
  cbn [x_coordinate_range column_width fst snd].
  set (lo := min_of (fst first) (map fst others)) in *.
  set (hi := max_of (fst first) (map fst others)) in *.
  set (w := (inject_Z (hi - lo) / inject_Z (13 - 1))%Q).
  assert (12 * w == inject_Z hi - inject_Z lo)%Q as Hw.
  { unfold w, Z.sub. rewrite inject_Z_plus, inject_Z_opp.
    change (inject_Z (13 + - (1))) with 12%Q. field. }
  clearbody w.
  assert (inject_Z lo <= inject_Z hi)%Q as HleQ by (by rewrite <- Zle_Qle).
  exists (boundary_at lo w 0), (boundary_at lo w 12).
  split; [done|]. split; [done|]. split; [done|].
  unfold boundary_at.
  assert ((inject_Z 0 + 0.5) * w == w / 2)%Q as -> by (by field).
  assert ((inject_Z 12 + 0.5) * w == 12 * w + w / 2)%Q as HB by (by field).
  rewrite HB.
  assert (2 * (w / 2) == w)%Q as Hhalf by (by field).
  set (h := (w / 2)%Q) in *. clearbody h.
  split; [lra|]. split; [lra|]. split; [lra|].
  intros Hlt.
  assert (inject_Z lo < inject_Z hi)%Q as HltQ by (by rewrite <- Zlt_Qlt).
  split; [lra|]. split; [lra|]. split; [lra|].
  intros p Hp.
  assert (inject_Z (fst p) <= inject_Z hi)%Q
    by (rewrite <- Zle_Qle; by apply Hall).
  rewrite HB. lra.
Qed.

Lemma analyze_numeric_positions_boundary_span_witness :
  exists b0 b12,
    length (boundary_values
              (analyze_positions two_marks (0, 40) [(1200, 140)])) = 13%nat
    /\ boundary_values (analyze_positions two_marks (0, 40) [(1200, 140)])
         !! 0%nat = Some b0
    /\ boundary_values (analyze_positions two_marks (0, 40) [(1200, 140)])
         !! 12%nat = Some b12
    /\ (b0 == 50)%Q /\ (b12 == 1250)%Q.
Proof.
  destruct (analyze_numeric_positions_boundary_span two_marks
              (analyze_positions two_marks (0, 40) [(1200, 140)]) eq_refl)
    as (b0 & b12 & Hlen & H0 & H12 & _ & Hb0 & Hb12 & _).
  exists b0, b12. split; [exact Hlen|]. split; [exact H0|].
  split; [exact H12|]. split.
  - rewrite Hb0. reflexivity.
  - rewrite Hb12. reflexivity.
Defined.

(** *** What the calibration lets out *)

(** X16. The calibration swallows a failure to load the results file and
    answers it with nothing, like an analysis without positions; what it
    raises is what drawing the chart raises, nothing else; and it returns
    the analysis only after the chart was drawn. *)
Theorem calibrate_numeric_positions_outcomes
    (create_position_visualization : analysis -> outcome (list N))
    (loaded : outcome (list sheet)) :
  let calibrated :=
    calibrate_numeric_positions create_position_visualization loaded in
  (forall e, loaded = Raises e -> calibrated = Returns None)
  /\ (forall a, calibrated = Returns (Some a) ->
       analyze_numeric_positions loaded = Returns (Some a)
       /\ exists path, create_position_visualization a = Returns path)
  /\ (forall e, calibrated = Raises e ->
       exists a, analyze_numeric_positions loaded = Returns (Some a)
                 /\ create_position_visualization a = Raises e)
  /\ (forall a path,
       analyze_numeric_positions loaded = Returns (Some a) ->
       create_position_visualization a = Returns path ->
       calibrated = Returns (Some a)).
Proof.
  intros calibrated. subst calibrated. unfold calibrate_numeric_positions.
  split; [by intros e ->|].
  destruct (analyze_numeric_positions_returns loaded) as [r ->]. simpl.
  destruct r as [a|]; simpl.
  - destruct (create_position_visualization a) as [path|ex] eqn:E; simpl.
    + split; [intros a' [= <-]; split; [done|by eexists]|].
      split; [done|]. intros a' path' [= <-]. done.
    + split; [done|]. split.
      * intros e [= <-]. by exists a.
      * intros a' path' [= <-]. by rewrite E.
  - split; [done|]. split; [done|]. done.
Qed.

End CalibratePositionsMore.

(** ** More on [answer_key_manager.py] *)

Module AnswerKeyManagerMore.
Import PyStr AnswerKeyManager AnswerKeyManagerFacts.

Section Builder.

Variable upper : list N -> list N.
Variable int : list N -> option Z.

(** *** The list helper *)

(** X17. The list helper gives a token to exactly the questions from 1 to
    the smaller of the length of the list and the number of questions, and
    every token it gives is an entry of the list in upper case: the filler
    of its second branch is never written. *)
Theorem set_answers_from_list_domain (self : config) (l : list (list N)) :
  let total := total_questions (info self) in
  let self' := set_answers_from_list upper self l in
  (forall i, is_Some (answers self' !! str_of_int i)
             <-> 1 <= i <= Z.min (Z.of_nat (length l)) total)
  /\ (forall key v,
        answers self' !! key = Some v ->
        exists i a,
          key = str_of_int i /\ 1 <= i <= total
          /\ l !! Z.to_nat (i - 1) = Some a /\ v = upper a).
Proof.
  intros total self'. subst self'. rewrite set_answers_from_list_fold.
  fold total.
  set (g := fun i => if i <=? Z.of_nat (length l)
                     then upper (default [] (l !! Z.to_nat (i - 1)))
                     else lit "A").
  set (qs := seqZ 1 (Z.min (Z.of_nat (length l) + 1) (total + 1) - 1)).
  assert (forall i, i ∈ qs <-> 1 <= i <= Z.min (Z.of_nat (length l)) total)
    as Hqs.
  { intros i. unfold qs. rewrite elem_of_seqZ_range. lia. }
  split.
  - intros i. rewrite <- Hqs. split.
    + intros [v Hv].
      apply (foldl_insert_origin g) in Hv as [(j & Hj & Heq)|Hv].
      * apply (inj str_of_int) in Heq. by subst.
      * by rewrite lookup_empty in Hv.
    + intros Hi. rewrite (foldl_insert_member g) by done. by eexists.
  - intros key v Hv.
    destruct (foldl_insert_origin g _ _ _ _ Hv) as [(i & Hi & ->)|Hempty];
      [|by rewrite lookup_empty in Hempty].
    rewrite (foldl_insert_member g) in Hv by done. injection Hv as <-.
    apply Hqs in Hi.
    destruct (l !! Z.to_nat (i - 1)) as [a|] eqn:Ea.
    + exists i, a. split; [done|]. split; [lia|]. split; [done|].
      unfold g. destruct (Z.leb_spec i (Z.of_nat (length l))); [|lia].
      by rewrite Ea.
    + apply lookup_ge_None in Ea. lia.
Qed.

(** *** The pattern helper and its division *)

(** X18. The pattern helper raises exactly when the pattern is empty and
    there is at least one question, and then a ZeroDivisionError, from the
    index modulo the length of the pattern; without questions it returns
    an empty key whatever the pattern. *)
Theorem set_answers_from_pattern_raises (self : config) (p : list N) :
  let total := total_questions (info self) in
  (forall e, set_answers_from_pattern upper self p = Raises e
             <-> e = ZeroDivisionError /\ p = [] /\ 1 <= total)
  /\ (total <= 0 ->
      set_answers_from_pattern upper self p = Returns (with_answers self ∅)).
Proof.
  intros total. unfold set_answers_from_pattern. fold total. split.
  - intros e. destruct p as [|c p].
    + unfold fill_from_pattern. cbn [length Z.of_nat Z.eqb].
      replace (total + 1 - 1) with total by lia.
      destruct (Z.le_gt_cases total 0) as [Hle|Hgt].
      * rewrite seqZ_nil by done. simpl. split; [done|]. lia.
      * rewrite seqZ_cons by lia. simpl. split.
        -- intros [= <-]. split; [done|]. split; [done|lia].
        -- by intros [-> _].
    + rewrite fill_from_pattern_fold by done. simpl.
      split; [done|]. by intros (_ & ? & _).
  - intros Hle. unfold fill_from_pattern.
    rewrite seqZ_nil by lia. simpl.
    by destruct (Z.of_nat (length p) =? 0).
Qed.

(** *** The sections *)

(** X19. A section that declares the range first-last and holds a list of
    answers, and no pattern, gives the entry i of the list, in upper case,
    to the question first + i as long as that is not beyond last: entries
    beyond the range are dropped, and questions of the range beyond the
    list have no token. *)
Theorem set_answers_from_sections_list (self : config)
    (section_name : list N) (given : list (list N)) (first last : Z) :
  range_of_name int section_name = Returns (Some (first, last)) ->
  exists self',
    set_answers_from_sections upper int self
      [ (section_name,
         {| pattern := None; section_answers := Some given |}) ]
      = Returns self'
    /\ info self' = info self
    /\ (forall i,
          is_Some (answers self' !! str_of_int i)
          <-> first <= i <= last /\ i < first + Z.of_nat (length given))
    /\ (forall key v,
          answers self' !! key = Some v ->
          exists (i : nat) a,
            given !! i = Some a /\ first + Z.of_nat i <= last
            /\ key = str_of_int (first + Z.of_nat i) /\ v = upper a).
Proof.
  intros Hrange.
  exists (with_answers self (fill_from_answers upper first last given ∅)).
  unfold set_answers_from_sections. cbn [for_each]. rewrite Hrange. cbn.
  destruct (fill_from_answers_spec upper first last given ∅) as [Hin Hout].
  split; [done|]. split; [done|]. split.
  - intros i. split.
    + intros [v Hv]. apply Hout in Hv as [(j & a & Hj & Hle & Heq & _)|Hv];
        [|by rewrite lookup_empty in Hv].
      apply (inj str_of_int) in Heq. apply lookup_lt_Some in Hj. lia.
    + intros [Hi Hlt].
      destruct (lookup_lt_is_Some_2 given (Z.to_nat (i - first)))
        as [a Ha]; [lia|].
      specialize (Hin (Z.to_nat (i - first)) a Ha).
      replace (first + Z.of_nat (Z.to_nat (i - first))) with i in Hin by lia.
      rewrite Hin by lia. by eexists.
  - intros key v Hv. apply Hout in Hv as [Hv|Hv]; [done|].
    by rewrite lookup_empty in Hv.
Qed.

(** X20. A section whose name holds no "-" after its last "(" is passed
    over: the key is the one that the other sections give, whatever the
    section holds. *)
Theorem set_answers_from_sections_skips (self : config)
    (before after : list (list N * section_config))
    (section_name : list N) (section : section_config) :
  contains 45 (replace 41 [] (List.last (split 40 section_name) [])) = false ->
  set_answers_from_sections upper int self
    (before ++ (section_name, section) :: after)
  = set_answers_from_sections upper int self (before ++ after).
Proof.
  intros Hskip. unfold set_answers_from_sections.
  rewrite !for_each_app.
  destruct (for_each _ ∅ before) as [m|e]; [|done].
  cbn [for_each]. unfold range_of_name at 1. rewrite Hskip. done.
Qed.

(** X21. What the section helper raises: a ValueError, when the range in
    the name of a section cannot be read, or a ZeroDivisionError, when a
    section holds an empty pattern. *)
Theorem set_answers_from_sections_raises (self : config)
    (sections : list (list N * section_config)) (e : exception) :
  set_answers_from_sections upper int self sections = Raises e ->
  (e = ValueError
   /\ exists section_name section,
        (section_name, section) ∈ sections
        /\ range_of_name int section_name = Raises ValueError)
  \/ (e = ZeroDivisionError
      /\ exists section_name section,
           (section_name, section) ∈ sections
           /\ pattern section = Some []).
Proof.
  unfold set_answers_from_sections.
  generalize (∅ : gmap (list N) (list N)) as m.
  induction sections as [|[section_name section] l IH]; intros m;
    [discriminate|].
  cbn [for_each].
  assert (forall m',
             (m' ← for_each
                (fun answers_of '(section_name, section) =>
                   range ← range_of_name int section_name;
                   match range with
                   | None => Returns answers_of
                   | Some (first, last) =>
                       match pattern section, section_answers section with
                       | Some pattern_of, _ =>
                           fill_from_pattern upper first last pattern_of
                             answers_of
                       | None, Some given =>
                           Returns (fill_from_answers upper first last given
                                      answers_of)
                       | None, None => Returns answers_of
                       end
                   end) m' l; mret (with_answers self m')) = Raises e ->
             (e = ValueError
              /\ exists n s, (n, s) ∈ (section_name, section) :: l
                             /\ range_of_name int n = Raises ValueError)
             \/ (e = ZeroDivisionError
                 /\ exists n s, (n, s) ∈ (section_name, section) :: l
                                /\ pattern s = Some [])) as Hrest.
  { intros m' H. destruct (IH m' H) as [(-> & n & s & Hin & Hr)
                                        |(-> & n & s & Hin & Hp)].
    - left. split; [done|]. exists n, s. split; [by right|done].
    - right. split; [done|]. exists n, s. split; [by right|done]. }
  destruct (range_of_name int section_name) as [[[first last]|]|ex] eqn:Er;
    cbn.
  - destruct (pattern section) as [p|] eqn:Ep.
    + destruct p as [|c p].
      * unfold fill_from_pattern. cbn [length Z.of_nat Z.eqb].
        destruct (seqZ first (last + 1 - first)) as [|i qs]; cbn.
        -- apply Hrest.
        -- intros [= <-]. right. split; [done|].
           exists section_name, section. split; [by left|done].
      * rewrite fill_from_pattern_fold by done. apply Hrest.
    + destruct (section_answers section); apply Hrest.
  - apply Hrest.
  - intros [= <-]. left.
    assert (ex = ValueError) as ->.
    { revert Er. unfold range_of_name.
      destruct (contains _ _); [|discriminate].
      destruct (split _ _) as [|a [|b [|c rest]]]; try by intros [= <-].
      destruct (int a), (int b); by intros [=]. }
    split; [done|]. exists section_name, section. split; [by left|done].
Qed.

End Builder.

Lemma set_answers_from_sections_list_witness :
  exists self',
    set_answers_from_sections ascii_upper ascii_int
      (init (lit "2025-09-24"))
      [ (lit "Science (26-28)",
         {| pattern := None;
            section_answers :=
              Some [lit "b"; lit "c"; lit "d"; lit "e"] |}) ]
      = Returns self'
    /\ answers self' !! str_of_int 28 = Some (lit "D")
    /\ answers self' !! str_of_int 29 = None.
Proof.
  destruct (set_answers_from_sections_list ascii_upper ascii_int
              (init (lit "2025-09-24")) (lit "Science (26-28)")
              [lit "b"; lit "c"; lit "d"; lit "e"] 26 28 eq_refl)
    as (self' & Hrun & _ & _ & _).
  exists self'. split; [exact Hrun|].
  injection Hrun as <-. by vm_compute.
Defined.

Lemma set_answers_from_sections_skips_witness :
  set_answers_from_sections ascii_upper ascii_int (init (lit "2025-09-24"))
    ([ (lit "Math (1-25)",
        {| pattern := Some (lit "ABCDE"); section_answers := None |}) ]
     ++ (lit "Notes", {| pattern := Some []; section_answers := None |})
     :: [])
  = set_answers_from_sections ascii_upper ascii_int (init (lit "2025-09-24"))
      ([ (lit "Math (1-25)",
          {| pattern := Some (lit "ABCDE"); section_answers := None |}) ]
       ++ []).
Proof.
  exact (set_answers_from_sections_skips ascii_upper ascii_int
           (init (lit "2025-09-24"))
           [ (lit "Math (1-25)",
              {| pattern := Some (lit "ABCDE"); section_answers := None |}) ]
           [] (lit "Notes")
           {| pattern := Some []; section_answers := None |} eq_refl).
Defined.

Lemma set_answers_from_sections_raises_witness :
  set_answers_from_sections ascii_upper ascii_int (init (lit "2025-09-24"))
    [ (lit "Mid-term", {| pattern := None; section_answers := None |}) ]
  = Raises ValueError
  /\ exists section_name section,
       (section_name, section)
         ∈ [ (lit "Mid-term",
              {| pattern := None; section_answers := None |}) ]
       /\ range_of_name ascii_int section_name = Raises ValueError.
Proof.
  split; [reflexivity|].
  destruct (set_answers_from_sections_raises ascii_upper ascii_int
              (init (lit "2025-09-24"))
              [ (lit "Mid-term",
                 {| pattern := None; section_answers := None |}) ]
              ValueError eq_refl)
    as [[_ H]|[H _]]; [exact H|discriminate H].
Defined.

End AnswerKeyManagerMore.

(** ** More on [config_converter.py] *)

Module ConfigConverterMore.
Import PyStr ConfigConverter ConfigConverterFacts.

(** *** Reading the C configuration *)

Lemma answer_key_of_list_spec (l : list (list N)) :
  let key := answer_key_of_list l in
  size key = length l
  /\ (forall (k : nat) a,
        l !! k = Some a ->
        key !! str_of_int (1 + Z.of_nat k) = Some (clean_answer a))
  /\ (forall j, j < 1 \/ Z.of_nat (length l) < j ->
                key !! str_of_int j = None).
Proof.
  destruct (answer_key_fold l 1 ∅) as (Hsize & Hget & Hlow & Hhigh);
    [by intros; apply lookup_empty|].
  fold (answer_key_of_list l) in Hsize, Hget, Hlow, Hhigh.
  rewrite map_size_empty in Hsize.
  split; [done|]. split; [done|].
  intros j [Hj|Hj].
  - by rewrite Hlow, lookup_empty.
  - apply Hhigh. lia.
Qed.

(** X22. Reading a C configuration fails exactly when its list of formats
    is present and empty, and then with an IndexError.  Otherwise every
    layout parameter of the Python configuration is the one that the first
    format holds or, where the format does not hold it (or there are no
    formats), its default.  With a first subject the scoring holds its
    maximal score, choices and bias scores, or their defaults, and the
    answer key has one entry for each answer of its list, question i
    holding the answer i right-stripped with "&" turned into the sign
    U+00B1; without a subject there is no scoring and no answer key. *)
Theorem c_json_to_python_config_outcomes (c : c_config) :
  (forall e, c_json_to_python_config c = Raises e
             <-> e = IndexError /\ Formats c = Some [])
  /\ (forall p,
        c_json_to_python_config c = Returns p ->
        python_layout p
        = map Some
            (zip_with default layout_defaults
               (read_layout match Formats c with
                            | Some (f :: _) => f
                            | _ => empty_format
                            end))
        /\ (forall subject_key subject_data more,
              Subjects c = Some ((subject_key, subject_data) :: more) ->
              scoring p
              = Some {| max_score :=
                          Some (default 100 (MaxScore subject_data));
                        choices :=
                          Some (default default_choices
                                        (Choices subject_data));
                        bias_scores :=
                          Some (default [] (BiasScore subject_data)) |}
              /\ exists key,
                   answer_key p = Some key
                   /\ size key
                      = length (default [] (AnswerList subject_data))
                   /\ (forall (k : nat) a,
                         default [] (AnswerList subject_data) !! k = Some a ->
                         key !! str_of_int (1 + Z.of_nat k)
                         = Some (clean_answer a))
                   /\ (forall j,
                         j < 1
                         \/ Z.of_nat (length (default []
                                                (AnswerList subject_data)))
                            < j ->
                         key !! str_of_int j = None))
        /\ (Subjects c = None \/ Subjects c = Some [] ->
            scoring p = None /\ answer_key p = None)
        /\ (is_Some (scoring p)
            <-> exists subject_key subject_data more,
                  Subjects c = Some ((subject_key, subject_data) :: more))
        /\ (is_Some (answer_key p) <-> is_Some (scoring p))).
Proof.
  unfold c_json_to_python_config. split.
  - intros e. destruct (Formats c) as [[|f fs]|]; simpl.
    + split; [by intros [= <-]|by intros [-> _]].
    + split; [done|by intros [_ ?]].
    + split; [done|by intros [_ ?]].
  - intros p H.
    assert (Returns p = Returns
      {| paper := Some
           {| width := Some (default 3507 (Paper
                 match Formats c with
                 | Some (f :: _) => f
                 | _ => empty_format
                 end ≫= Paper_Width));
              height := Some (default 2480 (Paper
                 match Formats c with
                 | Some (f :: _) => f
                 | _ => empty_format
                 end ≫= Paper_height)) |};
         question_area := Some
           {| q_columns := Some (default 13 (Question
                 match Formats c with
                 | Some (f :: _) => f
                 | _ => empty_format
                 end ≫= Column));
              q_rows := Some (default 5 (Question
                 match Formats c with
                 | Some (f :: _) => f
                 | _ => empty_format
                 end ≫= Row));
              q_width := Some (default 40 (Question
                 match Formats c with
                 | Some (f :: _) => f
                 | _ => empty_format
                 end ≫= Width));
              q_height := Some (default 40 (Question
                 match Formats c with
                 | Some (f :: _) => f
                 | _ => empty_format
                 end ≫= Height));
              q_width_next := Some (default 47 (Question
                 match Formats c with
                 | Some (f :: _) => f
                 | _ => empty_format
                 end ≫= WidthNext));
              q_height_next := Some (default 48 (Question
                 match Formats c with
                 | Some (f :: _) => f
                 | _ => empty_format
                 end ≫= HeightNext)) |};
         sheet_area := Some
           {| s_columns := Some (default 4 (Sheet
                 match Formats c with
                 | Some (f :: _) => f
                 | _ => empty_format
                 end ≫= Column));
              s_rows := Some (default 9 (Sheet
                 match Formats c with
                 | Some (f :: _) => f
                 | _ => empty_format
                 end ≫= Row));
              s_x := Some (default 743 (Sheet
                 match Formats c with
                 | Some (f :: _) => f
                 | _ => empty_format
                 end ≫= X));
              s_y := Some (default 51 (Sheet
                 match Formats c with
                 | Some (f :: _) => f
                 | _ => empty_format
                 end ≫= Y));
              s_width_next := Some (default 714 (Sheet
                 match Formats c with
                 | Some (f :: _) => f
                 | _ => empty_format
                 end ≫= WidthNext));
              s_height_next := Some (default 268 (Sheet
                 match Formats c with
                 | Some (f :: _) => f
                 | _ => empty_format
                 end ≫= HeightNext)) |};
         scoring :=
           subject_data ← match default [] (Subjects c) with
                          | [] => None
                          | (_, subject_data) :: _ => Some subject_data
                          end;
           Some {| max_score := Some (default 100 (MaxScore subject_data));
                   choices :=
                     Some (default default_choices (Choices subject_data));
                   bias_scores :=
                     Some (default [] (BiasScore subject_data)) |};
         answer_key :=
           subject_data ← match default [] (Subjects c) with
                          | [] => None
                          | (_, subject_data) :: _ => Some subject_data
                          end;
           Some (answer_key_of_list
                   (default [] (AnswerList subject_data))) |}) as Hp.
    { destruct (Formats c) as [[|f fs]|]; simpl in H; [discriminate| |];
        by rewrite <- H. }
    injection Hp as ->. clear H.
    split; [reflexivity|].
    cbn [scoring answer_key].
    destruct (Subjects c) as [[|[k s] more]|]; cbn.
    + split; [intros ? ? ? [=]|]. split; [done|].
      split; [split; [by intros [? ?]|by intros (? & ? & ? & ?)]|done].
    + split.
      { intros k' s' more' [= <- <- <-]. split; [done|].
        exists (answer_key_of_list (default [] (AnswerList s))).
        split; [done|]. apply answer_key_of_list_spec. }
      split; [by intros [?|?]|].
      split; [split; [by eexists _, _, _|by eexists]|].
      split; by eexists.
    + split; [intros ? ? ? [=]|]. split; [done|].
      split; [split; [by intros [? ?]|by intros (? & ? & ? & ?)]|done].
Qed.

(** *** Writing the C configuration *)

(** X23. The answer list that is written for the C system has one entry
    for each entry of the key, read at the questions 1, 2, ... up to the
    size of the key; every entry has at least five characters and no sign
    U+00B1; a question without a token in the key becomes five spaces, and
    a token of five characters or more without the sign is written as it
    is. *)
Theorem python_to_c_json_answers (p : python_config) :
  let key := default ∅ (answer_key p) in
  exists s answers,
    Subjects (python_to_c_json p) = Some [(lit "10 ", s)]
    /\ AnswerList s = Some answers
    /\ length answers = size key
    /\ Forall (fun a => (5 <= length a)%nat /\ plus_minus ∉ a) answers
    /\ (forall i, 1 <= i <= Z.of_nat (size key) ->
                  key !! str_of_int i = None ->
                  answers !! Z.to_nat (i - 1) = Some (lit "     "))
    /\ (forall i a, 1 <= i <= Z.of_nat (size key) ->
                    key !! str_of_int i = Some a ->
                    plus_minus ∉ a -> (5 <= length a)%nat ->
                    answers !! Z.to_nat (i - 1) = Some a).
Proof.
  intros key. unfold python_to_c_json. fold key. cbn [Subjects].
  eexists _, _. split; [reflexivity|]. cbn [AnswerList].
  split; [reflexivity|].
  assert (forall i, 1 <= i <= Z.of_nat (size key) ->
            map (padded_answer key) (seqZ 1 (Z.of_nat (size key)))
              !! Z.to_nat (i - 1) = Some (padded_answer key i)) as Hget.
  { intros i Hi. rewrite list_lookup_fmap, lookup_seqZ_lt by lia. simpl.
    do 2 f_equal. lia. }
  split; [by rewrite length_map, length_seqZ, Nat2Z.id|]. split; [|split].
  - apply Forall_map, Forall_forall. intros i _. unfold padded_answer.
    split; [apply length_ljust|].
    unfold ljust. intros Hin. apply elem_of_app in Hin as [Hin|Hin].
    + by apply replace_removes in Hin.
    + apply list_elem_of_In, repeat_spec in Hin. discriminate Hin.
  - intros i Hi Hnone. rewrite Hget by done. unfold padded_answer.
    by rewrite Hnone.
  - intros i a Hi Ha Hpm Hlen. rewrite Hget by done. unfold padded_answer.
    rewrite Ha. simpl. f_equal.
    assert (replace plus_minus [ampersand] a = a) as ->.
    { rewrite replace_map. rewrite <- (map_id a) at 2. apply map_ext_in.
      intros c Hc. destruct (N.eqb_spec c plus_minus) as [->|_]; [|done].
      exfalso. apply Hpm. by apply list_elem_of_In. }
    unfold ljust. replace (5 - length a)%nat with 0%nat by lia.
    apply app_nil_r.
Qed.

(** *** Round trips *)

(** X24. The round trip from the C configuration is idempotent: what it
    returns, it returns unchanged when it is run again. *)
Theorem round_trip_idempotent (c c' : c_config) :
  round_trip c = Returns c' -> round_trip c' = Returns c'.
Proof.
  unfold round_trip at 1.
  destruct (c_json_to_python_config c) as [p|e] eqn:E; simpl; [|done].
  intros [= <-].
  destruct (python_to_c_json_written c p E)
    as (l & max & symbols & answers & bias & -> & _).
  apply round_trip_written, Forall_map, Forall_forall.
  intros a _. apply returned_answer_is_canonical.
Qed.

Lemma round_trip_idempotent_witness :
  round_trip (written_config default_layout (lit "10 ") 100 default_choices
                [lit "12   "] [] student_id_check subject_id_check)
  = Returns (written_config default_layout (lit "10 ") 100 default_choices
               [lit "12   "] [] student_id_check subject_id_check).
Proof.
  exact (round_trip_idempotent
           (written_config default_layout (lit "20 ") 100 default_choices
              [lit "12"] [] student_id_check subject_id_check)
           _ eq_refl).
Defined.

(** X25. The Python configuration read from a C configuration, written
    back for the C system and read again, is the same Python
    configuration exactly when the C configuration has a subject; without
    one, the second reading finds the subject that the writer made up. *)
Theorem python_config_round_trip (c : c_config) (p : python_config) :
  c_json_to_python_config c = Returns p ->
  c_json_to_python_config (python_to_c_json p) = Returns p
  <-> exists subject_key subject_data more,
        Subjects c = Some ((subject_key, subject_data) :: more).
Proof.
  unfold c_json_to_python_config at 1.
  destruct (Formats c) as [[|f fs]|]; simpl; [discriminate| |];
    intros [= <-];
    (destruct (Subjects c) as [[|[k s] more]|]; simpl;
     [split; [intros [=]|by intros (? & ? & ? & ?)]
     |split; [by eexists _, _, _|intros _]
     |split; [intros [=]|by intros (? & ? & ? & ?)]]);
    unfold c_json_to_python_config, python_to_c_json; simpl;
    by rewrite padded_answers_of_list, answer_key_of_list_returned.
Qed.

Lemma python_config_round_trip_witness :
  exists p,
    c_json_to_python_config
      (written_config default_layout (lit "20 ") 100 default_choices
         [lit "12"; lit "&3 "] [] student_id_check subject_id_check)
    = Returns p
    /\ c_json_to_python_config (python_to_c_json p) = Returns p.
Proof.
  eexists. split; [reflexivity|].
  refine (proj2 (python_config_round_trip
                   (written_config default_layout (lit "20 ") 100
                      default_choices [lit "12"; lit "&3 "] []
                      student_id_check subject_id_check)
                   _ eq_refl) _).
  by eexists _, _, _.
Defined.

End ConfigConverterMore.
